(** * Reliable multicast with Lamport clocks

    A shallow embedding of the two Python programs of the repository:

    - [lamport_clock.py], class [ReliableMulticastProcess]: reliable
      multicast over UDP with acknowledgements and retransmission
      (module [Ack] below);
    - [reliable_multicast_lamport.py], class [Processo]: reliable multicast
      by flooding over in-memory queues (module [Gossip] below).

    Python integers are unbounded and are modelled by [Z]; [str] by
    [string]; [set] by [gset]; [dict] by [gmap].  Console output ([print])
    is not part of the model.

    A process runs several threads (the listener, the retransmitter and
    the caller of the multicast method).  One call of a method, one round
    of the listener and one pass of the retransmitter are each one atomic
    step of the process state here; interleavings inside a method are not
    modelled.  The one exception is the retransmission thread of
    [lamport_clock.py], which takes no lock and reads the table of pending
    acknowledgements, a [defaultdict], several times for each key: it is
    also given read by read ([retransmitter_step]), so that the listener
    can act between its reads. *)

From Stdlib Require Import Ascii String.
From stdpp Require Import gmap strings pretty list fin_maps sorting.

Local Open Scope Z_scope.

(** ** Python built-ins used by the programs *)

(** [str(n)] and [f"{n}"] for an [int]: decimal digits, with a leading
    minus sign for negative numbers.  This is stdpp's [pretty] on [Z]. *)
Definition py_str_int (n : Z) : string := pretty n.

(** [range(n)] for an [int] n: [0, 1, ..., n-1], empty when [n <= 0]. *)
Definition py_range (n : Z) : list Z := Z.of_nat <$> seq 0 (Z.to_nat n).

(** [s.split(sep, maxsplit)] for a separator of one character: the string
    is cut at the first [maxsplit] occurrences of [sep], from the left. *)
Definition cons_head (c : ascii) (l : list string) : list string :=
  match l with
  | hd :: tl => String c hd :: tl
  | [] => [String c ""]
  end.

Fixpoint py_split (sep : ascii) (s : string) (maxsplit : nat) {struct s}
  : list string :=
  match s with
  | EmptyString => [""]
  | String c s' =>
      match maxsplit with
      | O => [s]
      | S n =>
          if decide (c = sep) then "" :: py_split sep s' n
          else cons_head c (py_split sep s' (S n))
      end
  end.

(** [int(s)] on an ASCII string.  Python strips surrounding white space,
    accepts one optional sign, and then wants decimal digits, where single
    underscores may separate digits.  [None] stands for [ValueError].  The
    interpreter's limit on the number of digits of a conversion is not
    modelled. *)
Definition digit_val (c : ascii) : option N :=
  let n := N_of_ascii c in
  if decide (48 <= n ∧ n <= 57)%N then Some (n - 48)%N else None.

Definition py_isspace (c : ascii) : bool :=
  let n := N_of_ascii c in
  bool_decide ((9 <= n ∧ n <= 13) ∨ (28 <= n ∧ n <= 32))%N.

Fixpoint py_lstrip (s : string) : string :=
  match s with
  | String c s' => if py_isspace c then py_lstrip s' else s
  | EmptyString => EmptyString
  end.

Fixpoint py_rstrip (s : string) : string :=
  match s with
  | EmptyString => EmptyString
  | String c s' =>
      match py_rstrip s' with
      | EmptyString => if py_isspace c then EmptyString else String c EmptyString
      | r => String c r
      end
  end.

Definition py_strip (s : string) : string := py_rstrip (py_lstrip s).

(** [digits_from acc after_digit s]: the digits of [s] continue the number
    [acc]; [after_digit] tells whether the previous character was a digit,
    which is where an underscore or the end of the string is allowed. *)
Fixpoint digits_from (acc : N) (after_digit : bool) (s : string) : option N :=
  match s with
  | EmptyString => if after_digit then Some acc else None
  | String c s' =>
      match digit_val c with
      | Some d => digits_from (acc * 10 + d)%N true s'
      | None =>
          if decide (c = "_"%char) then
            if after_digit then digits_from acc false s' else None
          else None
      end
  end.

Definition py_int (s : string) : option Z :=
  match py_strip s with
  | String "-" s' => (λ n, - Z.of_N n) <$> digits_from 0 false s'
  | String "+" s' => Z.of_N <$> digits_from 0 false s'
  | s' => Z.of_N <$> digits_from 0 false s'
  end.

(** ** The acknowledgement-based process ([lamport_clock.py]) *)

Module Ack.

Definition BASE_PORT : Z := 12000.
Definition NUM_PROCESSES : Z := 5.

(** The dictionary that [_send_message] serialises and that
    [_listen_for_messages] decodes. *)
Record Message := mkMessage {
  msg_type : string;
  message_id : string;
  content : string;
  sender_id : Z;
  lamport : Z
}.

(** A value of [buffer_messages]. *)
Record BufferEntry := mkBufferEntry {
  buf_content : string;
  buf_sender_id : Z;
  buf_lamport : Z
}.

(** The fields of [ReliableMulticastProcess] that the protocol uses.  The
    socket and the two threads are the environment of the model. *)
Record Process := mkProcess {
  process_id : Z;
  total_processes : Z;
  lamport_clock : Z;
  delivered_messages : gset string;
  pending_acks : gmap string (gset Z);
  buffer_messages : gmap string BufferEntry
}.

(** What a handler does to the outside: a datagram handed to the socket
    for the address [('127.0.0.1', target_port)], or a call of the
    delivery routine [r_deliver] with its three arguments. *)
Inductive Action :=
| SendTo (target_port : Z) (m : Message)
| RDeliver (mid : string) (original_content : string) (lamport_timestamp : Z).

#[global] Instance Message_eq_dec : EqDecision Message.
Proof. solve_decision. Defined.
#[global] Instance BufferEntry_eq_dec : EqDecision BufferEntry.
Proof. solve_decision. Defined.
#[global] Instance Action_eq_dec : EqDecision Action.
Proof. solve_decision. Defined.

(** Methods run in a state monad over [Process] that also logs the
    actions, in program order. *)
Definition M (A : Type) : Type := Process → A * Process * list Action.

Definition ret {A} (a : A) : M A := λ p, (a, p, []).
Definition bind {A B} (m : M A) (k : A → M B) : M B := λ p,
  let '(a, p1, o1) := m p in
  let '(b, p2, o2) := k a p1 in
  (b, p2, o1 ++ o2).
Definition get : M Process := λ p, (p, p, []).
Definition put (p' : Process) : M unit := λ _, (tt, p', []).
Definition emit (a : Action) : M unit := λ p, (tt, p, [a]).

Notation "'let*' x ':=' m 'in' k" := (bind m (λ x, k))
  (at level 10, x name, m at level 100, k at level 200).
Notation "m ;;; k" := (bind m (λ _, k))
  (at level 100, right associativity).

Fixpoint for_each {A} (l : list A) (body : A → M unit) : M unit :=
  match l with
  | [] => ret tt
  | x :: l' => body x ;;; for_each l' body
  end.

Definition exec {A} (m : M A) (p : Process) : Process := (m p).1.2.
Definition actions {A} (m : M A) (p : Process) : list Action := (m p).2.
Definition value {A} (m : M A) (p : Process) : A := (m p).1.1.

Definition set_lamport_clock (c : Z) (p : Process) : Process :=
  mkProcess (process_id p) (total_processes p) c
            (delivered_messages p) (pending_acks p) (buffer_messages p).
Definition set_delivered_messages (d : gset string) (p : Process) : Process :=
  mkProcess (process_id p) (total_processes p) (lamport_clock p)
            d (pending_acks p) (buffer_messages p).
Definition set_pending_acks (t : gmap string (gset Z)) (p : Process) : Process :=
  mkProcess (process_id p) (total_processes p) (lamport_clock p)
            (delivered_messages p) t (buffer_messages p).
Definition set_buffer_messages (b : gmap string BufferEntry) (p : Process)
  : Process :=
  mkProcess (process_id p) (total_processes p) (lamport_clock p)
            (delivered_messages p) (pending_acks p) b.

(** [__init__]. *)
Definition init (process_id total_processes : Z) : Process :=
  mkProcess process_id total_processes 0 ∅ ∅ ∅.

(** [self.lamport_clock += 1; return self.lamport_clock] *)
Definition _increment_lamport_clock : M Z :=
  let* self := get in
  put (set_lamport_clock (lamport_clock self + 1) self) ;;;
  let* self := get in
  ret (lamport_clock self).

(** [self.lamport_clock = max(self.lamport_clock, ts) + 1; return it] *)
Definition _update_lamport_clock (received_lamport_timestamp : Z) : M Z :=
  let* self := get in
  put (set_lamport_clock
         (Z.max (lamport_clock self) received_lamport_timestamp + 1) self) ;;;
  let* self := get in
  ret (lamport_clock self).

(** [_send_message]: the dictionary goes to the socket; an error of
    [sendto] is caught and printed, so the call always returns. *)
Definition _send_message (message_type message_id content : string)
    (sender_id lamport_timestamp target_port : Z) : M unit :=
  emit (SendTo target_port
          (mkMessage message_type message_id content sender_id
                     lamport_timestamp)).

(** [f"{self.process_id}-{current_lamport}-{message_content}"] *)
Definition format_message_id (process_id current_lamport : Z)
    (message_content : string) : string :=
  py_str_int process_id +:+ "-" +:+ py_str_int current_lamport
    +:+ "-" +:+ message_content.

Definition r_multicast (message_content : string) : M unit :=
  let* current_lamport := _increment_lamport_clock in
  let* self := get in
  let message_id :=
    format_message_id (process_id self) current_lamport message_content in
  put (set_pending_acks
         (<[message_id := list_to_set (py_range (total_processes self))]>
            (pending_acks self)) self) ;;;
  for_each (py_range (total_processes self)) (λ i,
    _send_message "DATA" message_id message_content (process_id self)
                  current_lamport (BASE_PORT + i)).

Definition r_deliver (message_id original_content : string)
    (lamport_timestamp : Z) : M unit :=
  _update_lamport_clock lamport_timestamp ;;;
  emit (RDeliver message_id original_content lamport_timestamp).

(** [_on_message_received]; its last parameter [sender_addr] is only
    printed and is left out. *)
Definition _on_message_received (message_id msg_content : string)
    (original_sender_id original_lamport : Z) : M unit :=
  _update_lamport_clock original_lamport ;;;
  let* self := get in
  if decide (message_id ∉ delivered_messages self) then
    put (set_delivered_messages ({[message_id]} ∪ delivered_messages self)
           self) ;;;
    let* self := get in
    put (set_buffer_messages
           (<[message_id :=
                mkBufferEntry msg_content original_sender_id original_lamport]>
              (buffer_messages self)) self) ;;;
    r_deliver message_id msg_content original_lamport ;;;
    let* self := get in
    _send_message "ACK" message_id "" (process_id self) (lamport_clock self)
                  (BASE_PORT + original_sender_id)
  else
    _send_message "ACK" message_id "" (process_id self) (lamport_clock self)
                  (BASE_PORT + original_sender_id).

Definition _on_ack_received (message_id : string) (ack_sender_id : Z)
  : M unit :=
  _increment_lamport_clock ;;;
  let* self := get in
  match pending_acks self !! message_id with
  | Some pending =>
      if decide (ack_sender_id ∈ pending) then
        let pending' := pending ∖ {[ack_sender_id]} in
        put (set_pending_acks (<[message_id := pending']> (pending_acks self))
               self) ;;;
        let* self := get in
        if decide (pending' = ∅) then
          put (set_pending_acks (delete message_id (pending_acks self)) self)
        else ret tt
      else ret tt
  | None => ret tt
  end.

(** One round of the loop of [_listen_for_messages], for a datagram that
    decoded to [received_message]; [listen_datagram] further down is the
    round from the bytes of the datagram. *)
Definition listen_step (received_message : Message) : M unit :=
  if decide (msg_type received_message = "DATA") then
    _on_message_received (message_id received_message)
      (content received_message) (sender_id received_message)
      (lamport received_message)
  else if decide (msg_type received_message = "ACK") then
    _on_ack_received (message_id received_message)
      (sender_id received_message)
  else ret tt.

(** The body of the loop over the keys in [_retransmit_messages], for one
    key.  [None] stands for the [ValueError] of a failed unpacking or of
    [int]; nothing has been sent for this key when it is raised. *)
Definition retransmit_one (self : Process) (message_id : string)
  : option (list Action) :=
  let pending := default ∅ (pending_acks self !! message_id) in
  if decide (pending = ∅) then Some []
  else
    match py_split "-" message_id 2 with
    | [original_sender_id_str; original_lamport_str; msg_content_part] =>
        original_sender_id ← py_int original_sender_id_str ;
        original_lamport ← py_int original_lamport_str ;
        if decide (original_sender_id = process_id self) then
          Some ((λ target_id,
                   SendTo (BASE_PORT + target_id)
                     (mkMessage "DATA" message_id msg_content_part
                                original_sender_id original_lamport))
                  <$> elements pending)
        else Some []
    | _ => None
    end.

(** The loop over the keys: the datagrams sent, and whether an exception
    ended the pass (and with it the retransmission thread). *)
Fixpoint retransmit_keys (self : Process) (keys : list string)
  : list Action * bool :=
  match keys with
  | [] => ([], false)
  | message_id :: keys' =>
      match retransmit_one self message_id with
      | None => ([], true)
      | Some sent =>
          let '(rest, raised) := retransmit_keys self keys' in
          (sent ++ rest, raised)
      end
  end.

(** One pass of [_retransmit_messages] after its sleep, with nothing
    happening in between.  The keys and the members of a pending set are
    visited in the order of [map_to_list] and [elements]; the order of
    Python's [dict] and [set] is not modelled.  The keys of the pass are
    keys of the table, so the [defaultdict] never inserts one here; the
    pass is given read by read, for the case that the listener acts in
    between, by [retransmitter_step] further down. *)
Definition retransmit_pass (self : Process) : list Action * bool :=
  retransmit_keys self (map_to_list (pending_acks self)).*1.

Definition _retransmit_messages : M unit := λ self,
  (tt, self, (retransmit_pass self).1).

(** What can happen to a process. *)
Inductive Event :=
| EvMulticast (message_content : string)
| EvReceive (received_message : Message)
| EvRetransmit.

Definition handler (ev : Event) : M unit :=
  match ev with
  | EvMulticast message_content => r_multicast message_content
  | EvReceive received_message => listen_step received_message
  | EvRetransmit => _retransmit_messages
  end.

Definition step (p : Process) (ev : Event) : Process := exec (handler ev) p.

Definition run (p : Process) (evs : list Event) : Process :=
  foldl step p evs.

End Ack.

(** ** The flooding process ([reliable_multicast_lamport.py]) *)

Module Gossip.

Definition NUM_PROCESSOS : Z := 6.

(** The dictionary built by [multicast] and forwarded by
    [handle_receive]. *)
Record Message := mkMessage {
  content : string;
  timestamp : Z;
  original_sender : Z
}.

(** What a queue can hold: a message, or the [{'type': 'STOP'}] dictionary
    of [stop]. *)
Inductive QueueItem :=
| Stop
| Msg (message : Message).

(** The fields of [Processo]; [all_queues] is shared by all processes and
    is represented by its length. *)
Record Processo := mkProcesso {
  id : Z;
  num_queues : nat;
  lamport_clock : Z;
  delivered_messages : gset (Z * Z);
  running : bool
}.

(** The effects of a method: [all_queues[i].put(message)], and the line
    that [handle_receive] prints when it delivers a message. *)
Inductive Action :=
| Put (i : nat) (message : Message)
| Entregue (message : Message).

#[global] Instance Message_eq_dec : EqDecision Message.
Proof. solve_decision. Defined.
#[global] Instance Action_eq_dec : EqDecision Action.
Proof. solve_decision. Defined.

Definition init (process_id : Z) (num_queues : nat) : Processo :=
  mkProcesso process_id num_queues 0 ∅ true.

Definition set_lamport_clock (c : Z) (p : Processo) : Processo :=
  mkProcesso (id p) (num_queues p) c (delivered_messages p) (running p).
Definition set_delivered_messages (d : gset (Z * Z)) (p : Processo)
  : Processo :=
  mkProcesso (id p) (num_queues p) (lamport_clock p) d (running p).
Definition set_running (b : bool) (p : Processo) : Processo :=
  mkProcesso (id p) (num_queues p) (lamport_clock p) (delivered_messages p) b.

(** [_tick] *)
Definition _tick (self : Processo) : Processo :=
  set_lamport_clock (lamport_clock self + 1) self.

(** [_basic_multicast]: one [put] per queue, in the order of the list. *)
Definition _basic_multicast (self : Processo) (message : Message)
  : list Action :=
  (λ i, Put i message) <$> seq 0 (num_queues self).

Definition handle_receive (self : Processo) (received_message : Message)
  : Processo * list Action :=
  let original_sender := original_sender received_message in
  let timestamp := timestamp received_message in
  let message_unique_id := (original_sender, timestamp) in
  if decide (message_unique_id ∈ delivered_messages self) then (self, [])
  else
    let self1 :=
      set_lamport_clock (Z.max (lamport_clock self) timestamp + 1) self in
    let self2 :=
      set_delivered_messages
        ({[message_unique_id]} ∪ delivered_messages self1) self1 in
    (self2, Entregue received_message :: _basic_multicast self2 received_message).

Definition multicast (self : Processo) (message_content : string)
  : Processo * list Action :=
  let self1 := _tick self in
  let message := mkMessage message_content (lamport_clock self1) (id self1) in
  (self1, _basic_multicast self1 message).

(** One round of the loop of [run] that found [item] in the queue. *)
Definition run_step (self : Processo) (item : QueueItem)
  : Processo * list Action :=
  match item with
  | Stop => (set_running false self, [])
  | Msg message => handle_receive self message
  end.

Inductive Event :=
| EvMulticast (message_content : string)
| EvQueue (item : QueueItem).

(** [multicast] is called by the application; a round of [run] happens
    only while [running] holds. *)
Definition step (p : Processo) (ev : Event) : Processo * list Action :=
  match ev with
  | EvMulticast message_content => multicast p message_content
  | EvQueue item => if running p then run_step p item else (p, [])
  end.

Definition run (p : Processo) (evs : list Event) : Processo :=
  foldl (λ p ev, (step p ev).1) p evs.

End Gossip.

(** ** Observations on a run *)

(** The number of calls of [r_deliver] among the actions of a handler. *)
Definition is_r_deliver (a : Ack.Action) : bool :=
  match a with
  | Ack.RDeliver _ _ _ => true
  | Ack.SendTo _ _ => false
  end.

Definition r_deliver_calls (acts : list Ack.Action) : nat :=
  length (filter (λ a, is_r_deliver a) acts).



(** The timestamps that the calls of [r_multicast] in a run take from the
    clock ([current_lamport]), in order. *)
Fixpoint ack_send_timestamps (p : Ack.Process) (evs : list Ack.Event)
  : list Z :=
  match evs with
  | [] => []
  | ev :: evs' =>
      match ev with
      | Ack.EvMulticast _ => [Ack.value Ack._increment_lamport_clock p]
      | _ => []
      end ++ ack_send_timestamps (Ack.step p ev) evs'
  end.

(** The acknowledgements for [mid] that a run receives: their senders. *)
Definition ack_senders (mid : string) (evs : list Ack.Event) : list Z :=
  omap (λ ev,
          match ev with
          | Ack.EvReceive m =>
              if decide (Ack.msg_type m = "ACK" ∧ Ack.message_id m = mid)
              then Some (Ack.sender_id m) else None
          | _ => None
          end) evs.

Definition same_origin (s t : Z) (m : Ack.Message) : Prop :=
  Ack.sender_id m = s ∧ Ack.lamport m = t.

#[global] Instance same_origin_dec s t m : Decision (same_origin s t m).
Proof. unfold same_origin. apply _. Defined.

(** The same observations for the flooding process. *)
Fixpoint gossip_trace (p : Gossip.Processo) (evs : list Gossip.Event)
  : list Gossip.Action :=
  match evs with
  | [] => []
  | ev :: evs' => (Gossip.step p ev).2 ++ gossip_trace (Gossip.step p ev).1 evs'
  end.

Definition entregues (acts : list Gossip.Action) : list Gossip.Message :=
  omap (λ a, match a with Gossip.Entregue m => Some m | _ => None end) acts.

Definition gossip_deliveries (p : Gossip.Processo) (evs : list Gossip.Event)
  : list Gossip.Message :=
  entregues (gossip_trace p evs).

Fixpoint gossip_send_timestamps (p : Gossip.Processo)
    (evs : list Gossip.Event) : list Z :=
  match evs with
  | [] => []
  | ev :: evs' =>
      match ev with
      | Gossip.EvMulticast _ => [Gossip.lamport_clock (Gossip._tick p)]
      | _ => []
      end ++ gossip_send_timestamps (Gossip.step p ev).1 evs'
  end.

Definition gossip_same_origin (s t : Z) (m : Gossip.Message) : Prop :=
  Gossip.original_sender m = s ∧ Gossip.timestamp m = t.

#[global] Instance gossip_same_origin_dec s t m :
  Decision (gossip_same_origin s t m).
Proof. unfold gossip_same_origin. apply _. Defined.

(** ** A network of acknowledgement-based processes *)

(** The datagrams among the actions of a handler, with their ports. *)
Definition wire_sends (acts : list Ack.Action) : list (Z * Ack.Message) :=
  omap (λ a, match a with
             | Ack.SendTo target_port m => Some (target_port, m)
             | Ack.RDeliver _ _ _ => None
             end) acts.

(** The processes by id, every datagram handed to a socket so far, and
    the calls of [r_deliver] so far: who delivered, handling which
    message. *)
Record Network := mkNetwork {
  procs : gmap Z Ack.Process;
  wire : list (Z * Ack.Message);
  delivery_log : list (Z * Ack.Message)
}.

(** The main program: processes [0 .. total-1], each told [total]. *)
Definition net_init (total : Z) : Network :=
  mkNetwork (list_to_map ((λ i, (i, Ack.init i total)) <$> py_range total))
            [] [].

(** Process [i], in state [p], handles [ev]. *)
Definition net_handle (N : Network) (i : Z) (p : Ack.Process)
    (ev : Ack.Event) : Network :=
  let acts := Ack.actions (Ack.handler ev) p in
  mkNetwork (<[i := Ack.step p ev]> (procs N))
            (wire N ++ wire_sends acts)
            (delivery_log N ++
             match ev with
             | Ack.EvReceive m => replicate (r_deliver_calls acts) (i, m)
             | _ => []
             end).

(** A step of the network: some process multicasts, runs a retransmission
    pass, or receives a datagram that was sent to its port.  A datagram
    stays on the wire: it may be received never (loss), late, in any
    order, and any number of times (duplication). *)
Inductive net_step (N : Network) : Network → Prop :=
| net_step_handle (i : Z) (p : Ack.Process) (ev : Ack.Event) :
    procs N !! i = Some p →
    (∀ m, ev = Ack.EvReceive m → (Ack.BASE_PORT + i, m) ∈ wire N) →
    net_step N (net_handle N i p ev).

Definition net_reachable (total : Z) (N : Network) : Prop :=
  rtc net_step (net_init total) N.

Definition data_on_wire (N : Network) (m : Ack.Message) : Prop :=
  Ack.msg_type m = "DATA" ∧ ∃ port, (port, m) ∈ wire N.

(** The calls of [r_deliver] by process [i] for messages of origin
    [(s, t)], and for messages with the id [mid]. *)
Definition log_by_origin (i s t : Z) (e : Z * Ack.Message) : Prop :=
  e.1 = i ∧ same_origin s t e.2.

Definition log_by_id (i : Z) (mid : string) (e : Z * Ack.Message) : Prop :=
  e.1 = i ∧ Ack.message_id e.2 = mid.

#[global] Instance log_by_origin_dec i s t e : Decision (log_by_origin i s t e).
Proof. unfold log_by_origin. apply _. Defined.
#[global] Instance log_by_id_dec i mid e : Decision (log_by_id i mid e).
Proof. unfold log_by_id. apply _. Defined.

(** What holds of every reachable network. *)
Record net_inv (N : Network) : Prop := mk_net_inv {
  inv_procs : ∀ i p, procs N !! i = Some p →
    Ack.process_id p = i ∧ 0 ≤ i ∧ 0 ≤ Ack.lamport_clock p;
  inv_data : ∀ m, data_on_wire N m →
    ∃ p, procs N !! Ack.sender_id m = Some p
         ∧ 0 ≤ Ack.lamport m ≤ Ack.lamport_clock p
         ∧ Ack.message_id m
           = Ack.format_message_id (Ack.sender_id m) (Ack.lamport m)
                                   (Ack.content m);
  inv_keys : ∀ i p k, procs N !! i = Some p →
    is_Some (Ack.pending_acks p !! k) →
    ∃ t c, 0 ≤ t ≤ Ack.lamport_clock p ∧ k = Ack.format_message_id i t c;
  inv_keys_content : ∀ i p t c m, procs N !! i = Some p → 0 ≤ t →
    is_Some (Ack.pending_acks p !! Ack.format_message_id i t c) →
    data_on_wire N m → Ack.sender_id m = i → Ack.lamport m = t →
    Ack.content m = c;
  inv_keys_inj : ∀ i p t c1 c2, procs N !! i = Some p → 0 ≤ t →
    is_Some (Ack.pending_acks p !! Ack.format_message_id i t c1) →
    is_Some (Ack.pending_acks p !! Ack.format_message_id i t c2) →
    c1 = c2;
  inv_unique : ∀ m1 m2, data_on_wire N m1 → data_on_wire N m2 →
    Ack.sender_id m1 = Ack.sender_id m2 → Ack.lamport m1 = Ack.lamport m2 →
    Ack.content m1 = Ack.content m2;
  inv_log : ∀ i m, (i, m) ∈ delivery_log N → data_on_wire N m;
  inv_once : ∀ i mid,
    (length (filter (log_by_id i mid) (delivery_log N))
     ≤ match procs N !! i with
       | Some p => if decide (mid ∈ Ack.delivered_messages p) then 1 else 0
       | None => 0
       end)%nat
}.

(** ** Notions used in the statements *)

Fixpoint all_digits (s : string) : bool :=
  match s with
  | EmptyString => true
  | String c s' => bool_decide (is_Some (digit_val c)) && all_digits s'
  end.

(** What [_on_ack_received] leaves in the table. *)
Definition ack_table (mid : string) (a : Z) (tbl : gmap string (gset Z))
  : gmap string (gset Z) :=
  match tbl !! mid with
  | Some pending =>
      if decide (a ∈ pending) then
        if decide (pending ∖ {[a]} = ∅) then delete mid tbl
        else <[mid := pending ∖ {[a]}]> tbl
      else tbl
  | None => tbl
  end.

(** The entry of one message id after an acknowledgement from [a]. *)
Definition acked (entry : option (gset Z)) (a : Z) : option (gset Z) :=
  pending ← entry;
  if decide (a ∈ pending) then
    if decide (pending ∖ {[a]} = ∅) then None else Some (pending ∖ {[a]})
  else Some pending.

(** Every key of [Ack.pending_acks] is an id that this process formatted with
    a timestamp that its clock has reached. *)
Definition keys_formatted (p : Ack.Process) : Prop :=
  ∀ k, is_Some (Ack.pending_acks p !! k) →
    ∃ t c, 0 ≤ t ≤ Ack.lamport_clock p ∧ k = Ack.format_message_id (Ack.process_id p) t c.

Definition well_formed (p : Ack.Process) : Prop :=
  0 ≤ Ack.process_id p ∧ 0 ≤ Ack.lamport_clock p ∧ keys_formatted p.

(** From [__init__] on, the keys of the buffer are the delivered ids. *)
Definition buffer_matches (p : Ack.Process) : Prop :=
  dom (Ack.buffer_messages p) = Ack.delivered_messages p.

(** The three lines of [_retransmit_messages] that take a message id
    apart: [split('-', 2)], the unpacking into three names, and the two
    calls of [int].  [None] stands for the [ValueError] of any of them. *)
Definition parse_message_id (message_id : string) : option (Z * Z * string) :=
  match py_split "-" message_id 2 with
  | [original_sender_id_str; original_lamport_str; msg_content_part] =>
      original_sender_id ← py_int original_sender_id_str ;
      original_lamport ← py_int original_lamport_str ;
      Some (original_sender_id, original_lamport, msg_content_part)
  | _ => None
  end.

(** Every pending set holds peers only. *)
Definition pending_in_range (p : Ack.Process) : Prop :=
  ∀ k pending, Ack.pending_acks p !! k = Some pending →
    ∀ j, j ∈ pending → 0 ≤ j < Ack.total_processes p.

(** No entry of [pending_acks] is the empty set. *)
Definition no_empty_entry (p : Ack.Process) : Prop :=
  ∀ k, Ack.pending_acks p !! k ≠ Some ∅.

(** ** The listener, from the socket *)


(** ** The retransmission thread, read by read *)

(** [self.pending_acks[message_id]] on a [collections.defaultdict(set)]:
    a key that is missing is inserted with [set()], which is returned. *)
Definition pending_acks_getitem (message_id : string) (self : Ack.Process)
  : gset Z * Ack.Process :=
  match Ack.pending_acks self !! message_id with
  | Some pending => (pending, self)
  | None =>
      (∅, Ack.set_pending_acks
            (<[message_id := ∅]> (Ack.pending_acks self)) self)
  end.

(** Where the thread is in [_retransmit_messages]: asleep; at the head of
    the [for] loop, with the keys that are left of the copy
    [list(self.pending_acks.keys())]; before the [print] that reads the
    entry again; before the inner [for] that reads it a third time; or
    gone, after a [ValueError]. *)
Inductive Retransmitter :=
| Sleeping
| AtTest (keys : list string)
| AtPrint (message_id msg_content_part : string)
          (original_sender_id original_lamport : Z) (keys : list string)
| AtSend (message_id msg_content_part : string)
         (original_sender_id original_lamport : Z) (keys : list string)
| Raised.

(** One step of the thread: up to and including its next read of
    [self.pending_acks]. *)
Definition retransmitter_step (self : Ack.Process) (pc : Retransmitter)
  : Ack.Process * Retransmitter * list Ack.Action :=
  match pc with
  | Sleeping => (self, AtTest (map_to_list (Ack.pending_acks self)).*1, [])
  | AtTest [] => (self, Sleeping, [])
  | AtTest (message_id :: keys) =>
      let '(pending, self) := pending_acks_getitem message_id self in
      if decide (pending = ∅) then (self, AtTest keys, [])
      else
        match py_split "-" message_id 2 with
        | [original_sender_id_str; original_lamport_str; msg_content_part] =>
            match py_int original_sender_id_str with
            | Some original_sender_id =>
                match py_int original_lamport_str with
                | Some original_lamport =>
                    if decide (original_sender_id = Ack.process_id self) then
                      (self,
                       AtPrint message_id msg_content_part original_sender_id
                               original_lamport keys, [])
                    else (self, AtTest keys, [])
                | None => (self, Raised, [])
                end
            | None => (self, Raised, [])
            end
        | _ => (self, Raised, [])
        end
  | AtPrint message_id msg_content_part original_sender_id original_lamport
            keys =>
      let '(_, self) := pending_acks_getitem message_id self in
      (self,
       AtSend message_id msg_content_part original_sender_id original_lamport
              keys, [])
  | AtSend message_id msg_content_part original_sender_id original_lamport
           keys =>
      let '(pending, self) := pending_acks_getitem message_id self in
      (self, AtTest keys,
       (λ target_id,
          Ack.SendTo (Ack.BASE_PORT + target_id)
            (Ack.mkMessage "DATA" message_id msg_content_part
                           original_sender_id original_lamport))
         <$> elements pending)
  | Raised => (self, Raised, [])
  end.

(** The thread runs on, with nothing in between, until it sleeps again or
    is gone: the process, where the thread is, and what was sent. *)
Fixpoint retransmitter_go (fuel : nat) (self : Ack.Process)
    (pc : Retransmitter) : Ack.Process * Retransmitter * list Ack.Action :=
  match fuel with
  | O => (self, pc, [])
  | S fuel' =>
      let '(self', pc', sent) := retransmitter_step self pc in
      match pc' with
      | Sleeping | Raised => (self', pc', sent)
      | _ =>
          let '(self'', pc'', sent') := retransmitter_go fuel' self' pc' in
          (self'', pc'', sent ++ sent')
      end
  end.

(** The three threads of a process, interleaved: a call of [r_multicast],
    a round of the listener, or a step of the retransmission thread. *)
Inductive ThreadStep :=
| ThMulticast (message_content : string)
| ThListen (received_message : Ack.Message)
| ThRetransmit.

Definition thread_step (st : Ack.Process * Retransmitter) (ts : ThreadStep)
  : Ack.Process * Retransmitter :=
  match ts with
  | ThMulticast message_content =>
      (Ack.step st.1 (Ack.EvMulticast message_content), st.2)
  | ThListen received_message =>
      (Ack.step st.1 (Ack.EvReceive received_message), st.2)
  | ThRetransmit => (retransmitter_step st.1 st.2).1
  end.

Definition thread_run (st : Ack.Process * Retransmitter)
    (tss : list ThreadStep) : Ack.Process * Retransmitter :=
  foldl thread_step st tss.

(** A schedule names, step by step, the process that acts and what it
    does.  [net_do] carries out one entry if the process exists and, for a
    receipt, if the datagram was sent to its port; [net_run] a whole
    schedule. *)
Definition net_enabled (N : Network) (i : Z) (ev : Ack.Event) : bool :=
  match ev with
  | Ack.EvReceive m => bool_decide ((Ack.BASE_PORT + i, m) ∈ wire N)
  | _ => true
  end.

Definition net_do (N : Network) (x : Z * Ack.Event) : option Network :=
  p ← procs N !! x.1 ;
  if net_enabled N x.1 x.2 then Some (net_handle N x.1 p x.2) else None.

Fixpoint net_run (N : Network) (sched : list (Z * Ack.Event))
  : option Network :=
  match sched with
  | [] => Some N
  | x :: sched' => N' ← net_do N x ; net_run N' sched'
  end.

(** More of what holds after a schedule [sched] from [net_init total]. *)
Record net_inv2 (total : Z) (sched : list (Z * Ack.Event)) (N : Network)
  : Prop := mk_net_inv2 {
  i2_range : ∀ i p, procs N !! i = Some p →
    0 ≤ i < total ∧ Ack.total_processes p = total;
  i2_all : ∀ i, 0 ≤ i < total → is_Some (procs N !! i);
  i2_types : ∀ port m, (port, m) ∈ wire N →
    Ack.msg_type m = "DATA" ∨ Ack.msg_type m = "ACK";
  i2_ack : ∀ port a, (port, a) ∈ wire N → Ack.msg_type a = "ACK" →
    ∃ q, procs N !! Ack.sender_id a = Some q
         ∧ Ack.message_id a ∈ Ack.delivered_messages q;
  i2_pending : ∀ s p k pending j q, procs N !! s = Some p →
    Ack.pending_acks p !! k = Some pending → procs N !! j = Some q →
    j ∈ pending ∨ k ∈ Ack.delivered_messages q;
  i2_done : ∀ m p j q, data_on_wire N m →
    procs N !! Ack.sender_id m = Some p →
    Ack.pending_acks p !! Ack.message_id m = None →
    procs N !! j = Some q →
    Ack.message_id m ∈ Ack.delivered_messages q;
  i2_log : ∀ i m, (i, m) ∈ delivery_log N →
    ∃ q, procs N !! i = Some q
         ∧ Ack.message_id m ∈ Ack.delivered_messages q
         ∧ Ack.lamport m < Ack.lamport_clock q;
  i2_origin : ∀ m, data_on_wire N m →
    (Ack.sender_id m, Ack.EvMulticast (Ack.content m)) ∈ sched
    ∧ 1 ≤ Ack.lamport m;
  i2_keys : ∀ i p t c, procs N !! i = Some p → 0 ≤ t →
    is_Some (Ack.pending_acks p !! Ack.format_message_id i t c) →
    (i, Ack.EvMulticast c) ∈ sched ∧ 1 ≤ t
}.

(** Every identity in [delivered_messages] has a timestamp below the
    clock. *)
Definition delivered_below (p : Gossip.Processo) : Prop :=
  ∀ s t, (s, t) ∈ Gossip.delivered_messages p → t < Gossip.lamport_clock p.

(** The [put]s among the actions of the flooding process: queue index
    and message. *)
Definition puts (acts : list Gossip.Action) : list (nat * Gossip.Message) :=
  omap (λ a, match a with Gossip.Put i m => Some (i, m) | _ => None end) acts.

(** The contents that a run hands to [multicast], in order. *)
Definition multicast_contents (evs : list Gossip.Event) : list string :=
  omap (λ ev, match ev with
              | Gossip.EvMulticast message_content => Some message_content
              | Gossip.EvQueue _ => None
              end) evs.

(** The number of calls of [multicast] among the events of a run. *)
Definition is_multicast (ev : Gossip.Event) : bool :=
  match ev with
  | Gossip.EvMulticast _ => true
  | Gossip.EvQueue _ => false
  end.

Definition multicast_calls (evs : list Gossip.Event) : nat :=
  length (filter (λ ev, is_multicast ev) evs).

(** ** A system of flooding processes *)

(** The threads of [reliable_multicast_lamport.py]: one per process, in
    the loop of [run], and the main program, which calls [multicast] and
    [stop].  [handle_receive] and [multicast] hold the lock of the process
    while they touch the clock and the set of delivered identities, and
    release it before [_basic_multicast]; so the [put]s of one
    [_basic_multicast] are separate steps here, and those that are still
    to be done are kept per thread. *)
Record GossipNet := mkGossipNet {
  processos : list Gossip.Processo;
  all_queues : list (list Gossip.QueueItem);
  forwarding : list (list Gossip.Action);
  main_sending : list Gossip.Action;
  created : list Gossip.Message;
  entregue_log : list (nat * Gossip.Message)
}.

Definition gnet_init (n : nat) : GossipNet :=
  mkGossipNet ((λ i, Gossip.init (Z.of_nat i) n) <$> seq 0 n)
              (replicate n []) (replicate n []) [] [] [].

(** [all_queues[k].put(item)]: the item goes to the tail of queue [k]. *)
Definition queue_put (k : nat) (item : Gossip.QueueItem)
    (qs : list (list Gossip.QueueItem)) : list (list Gossip.QueueItem) :=
  alter (λ q, q ++ [item]) k qs.

Definition is_put (a : Gossip.Action) : bool :=
  match a with
  | Gossip.Put _ _ => true
  | Gossip.Entregue _ => false
  end.

Definition put_actions (acts : list Gossip.Action) : list Gossip.Action :=
  filter (λ a, is_put a) acts.

(** The steps of the system. *)
Inductive GossipStep :=
| GMulticast (i : nat) (message_content : string)
| GMainPut
| GStop (i : nat)
| GGet (i : nat)
| GPut (i : nat).

Definition gnet_do (G : GossipNet) (st : GossipStep) : option GossipNet :=
  match st with
  | GMulticast i c =>
      (* the main program calls [processos[i].multicast(c)] *)
      match main_sending G with
      | [] =>
          p ← processos G !! i ;
          let '(p', acts) := Gossip.multicast p c in
          Some (mkGossipNet (<[i := p']> (processos G)) (all_queues G)
                  (forwarding G) acts
                  (created G ++
                   [Gossip.mkMessage c (Gossip.lamport_clock p') (Gossip.id p')])
                  (entregue_log G))
      | _ :: _ => None
      end
  | GMainPut =>
      (* one round of the loop of [_basic_multicast] in the main program *)
      match main_sending G with
      | Gossip.Put k m :: rest =>
          Some (mkGossipNet (processos G)
                  (queue_put k (Gossip.Msg m) (all_queues G))
                  (forwarding G) rest (created G) (entregue_log G))
      | _ => None
      end
  | GStop i =>
      (* the main program calls [processos[i].stop()] *)
      match main_sending G with
      | [] =>
          p ← processos G !! i ;
          Some (mkGossipNet (processos G)
                  (queue_put (Z.to_nat (Gossip.id p)) Gossip.Stop (all_queues G))
                  (forwarding G) [] (created G) (entregue_log G))
      | _ :: _ => None
      end
  | GGet i =>
      (* thread [i], at the head of its loop, finds an item in its queue *)
      p ← processos G !! i ;
      sending ← forwarding G !! i ;
      queue ← all_queues G !! Z.to_nat (Gossip.id p) ;
      match sending, queue with
      | [], item :: rest =>
          if Gossip.running p then
            let '(p', acts) := Gossip.run_step p item in
            Some (mkGossipNet (<[i := p']> (processos G))
                    (<[Z.to_nat (Gossip.id p) := rest]> (all_queues G))
                    (<[i := put_actions acts]> (forwarding G))
                    (main_sending G) (created G)
                    (entregue_log G ++ ((λ m, (i, m)) <$> entregues acts)))
          else None
      | _, _ => None
      end
  | GPut i =>
      (* one round of the loop of [_basic_multicast] in thread [i] *)
      sending ← forwarding G !! i ;
      match sending with
      | Gossip.Put k m :: rest =>
          Some (mkGossipNet (processos G)
                  (queue_put k (Gossip.Msg m) (all_queues G))
                  (<[i := rest]> (forwarding G))
                  (main_sending G) (created G) (entregue_log G))
      | _ => None
      end
  end.

Fixpoint gnet_run (G : GossipNet) (steps : list GossipStep)
  : option GossipNet :=
  match steps with
  | [] => Some G
  | st :: steps' => G' ← gnet_do G st ; gnet_run G' steps'
  end.

Definition identity (m : Gossip.Message) : Z * Z :=
  (Gossip.original_sender m, Gossip.timestamp m).

(** Some thread, in the loop of [_basic_multicast], has the [put] of [m]
    into queue [k] still to do. *)
Definition pending_put (G : GossipNet) (k : nat) (m : Gossip.Message) : Prop :=
  Gossip.Put k m ∈ main_sending G
  ∨ ∃ i sending, forwarding G !! i = Some sending ∧ Gossip.Put k m ∈ sending.

(** Message [m] is still on its way to queue [j]: it waits in the queue,
    or the [put] into that queue is still to do. *)
Definition on_the_way (G : GossipNet) (j : nat) (m : Gossip.Message) : Prop :=
  (∃ queue, all_queues G !! j = Some queue ∧ Gossip.Msg m ∈ queue)
  ∨ pending_put G j m.

(** Nothing is on its way to queue [j]: the queue holds no message and no
    thread is in the middle of a [_basic_multicast]. *)
Definition settled (G : GossipNet) (j : nat) : bool :=
  match all_queues G !! j with
  | Some queue =>
      forallb (λ item, match item with
                       | Gossip.Msg _ => false
                       | Gossip.Stop => true
                       end) queue
  | None => true
  end
  && bool_decide (main_sending G = [])
  && forallb (λ sending, bool_decide (sending = [])) (forwarding G).

(** How often process [j] has delivered message [m]. *)
Definition times_delivered (G : GossipNet) (j : nat) (m : Gossip.Message)
  : nat :=
  length (filter (λ x, x = (j, m)) (entregue_log G)).

(** What holds of the system after any steps from [gnet_init n]. *)
Record gnet_inv (n : nat) (G : GossipNet) : Prop := mk_gnet_inv {
  g_lengths : length (processos G) = n ∧ length (all_queues G) = n
              ∧ length (forwarding G) = n;
  g_ids : ∀ i p, processos G !! i = Some p →
    Gossip.id p = Z.of_nat i ∧ Gossip.num_queues p = n
    ∧ 0 ≤ Gossip.lamport_clock p;
  g_puts : ∀ k m, pending_put G k m → (k < n)%nat ∧ m ∈ created G;
  g_queued : ∀ j queue m, all_queues G !! j = Some queue →
    Gossip.Msg m ∈ queue → m ∈ created G;
  g_created : ∀ m, m ∈ created G →
    ∃ i p, processos G !! i = Some p
           ∧ Gossip.original_sender m = Z.of_nat i
           ∧ 1 ≤ Gossip.timestamp m ≤ Gossip.lamport_clock p;
  g_unique : ∀ m1 m2, m1 ∈ created G → m2 ∈ created G →
    identity m1 = identity m2 → m1 = m2;
  g_delivered : ∀ j p s t, processos G !! j = Some p →
    (s, t) ∈ Gossip.delivered_messages p →
    ∃ m, m ∈ created G ∧ identity m = (s, t) ∧ (j, m) ∈ entregue_log G;
  g_below : ∀ j p s t, processos G !! j = Some p →
    (s, t) ∈ Gossip.delivered_messages p → t < Gossip.lamport_clock p;
  g_log : ∀ j m, (j, m) ∈ entregue_log G →
    m ∈ created G
    ∧ ∃ p, processos G !! j = Some p
           ∧ identity m ∈ Gossip.delivered_messages p;
  g_log_nodup : NoDup (entregue_log G);
  g_everywhere : ∀ m j p, m ∈ created G → processos G !! j = Some p →
    identity m ∈ Gossip.delivered_messages p ∨ on_the_way G j m
}.

(** * Properties *)

(** ** The built-ins on examples *)

Example py_split_ex1 : py_split "-" "0-1-a-b" 2 = ["0"; "1"; "a-b"].
Proof. reflexivity. Qed.
Example py_split_ex2 : py_split "-" "-1-5-hello" 2 = [""; "1"; "5-hello"].
Proof. reflexivity. Qed.
Example py_split_ex3 : py_split "-" "abc" 2 = ["abc"].
Proof. reflexivity. Qed.
Example py_int_ex1 : py_int "120" = Some 120.
Proof. reflexivity. Qed.
Example py_int_ex2 : py_int "" = None.
Proof. reflexivity. Qed.
Example py_int_ex3 : py_int " -1_000 " = Some (-1000).
Proof. reflexivity. Qed.
Example py_int_ex4 : py_int "1__0" = None.
Proof. reflexivity. Qed.
Example py_str_int_ex : py_str_int 1204 = "1204" ∧ py_str_int (-7) = "-7".
Proof. split; reflexivity. Qed.
Example py_range_ex : py_range 3 = [0; 1; 2] ∧ py_range (-2) = [].
Proof. split; reflexivity. Qed.


(** ** The handlers of the acknowledgement-based process in closed form *)

Section AckHandlers.
Import Ack.

Lemma for_each_emit {A} (f : A → Action) (l : list A) (p : Process) :
  for_each l (λ x, emit (f x)) p = (tt, p, f <$> l).
Proof.
  induction l as [|x l IH]; [done|].
  simpl. unfold bind at 1. simpl. by rewrite IH.
Qed.

Lemma increment_eq (p : Process) :
  _increment_lamport_clock p
  = (lamport_clock p + 1, set_lamport_clock (lamport_clock p + 1) p, []).
Proof. done. Qed.

Lemma update_eq (t : Z) (p : Process) :
  _update_lamport_clock t p
  = (Z.max (lamport_clock p) t + 1,
     set_lamport_clock (Z.max (lamport_clock p) t + 1) p, []).
Proof. done. Qed.

Lemma r_multicast_eq (c : string) (p : Process) :
  let ts := lamport_clock p + 1 in
  let mid := format_message_id (process_id p) ts c in
  r_multicast c p
  = (tt,
     mkProcess (process_id p) (total_processes p) ts (delivered_messages p)
       (<[mid := list_to_set (py_range (total_processes p))]> (pending_acks p))
       (buffer_messages p),
     (λ i, SendTo (BASE_PORT + i) (mkMessage "DATA" mid c (process_id p) ts))
       <$> py_range (total_processes p)).
Proof.
  intros ts mid. unfold r_multicast, bind. cbn.
  unfold _send_message. by rewrite for_each_emit.
Qed.

Lemma on_message_received_fresh (mid c : string) (s t : Z) (p : Process) :
  mid ∉ delivered_messages p →
  let clk := Z.max (lamport_clock p) t + 2 in
  _on_message_received mid c s t p
  = (tt,
     mkProcess (process_id p) (total_processes p) clk
       ({[mid]} ∪ delivered_messages p) (pending_acks p)
       (<[mid := mkBufferEntry c s t]> (buffer_messages p)),
     [RDeliver mid c t;
      SendTo (BASE_PORT + s) (mkMessage "ACK" mid "" (process_id p) clk)]).
Proof.
  intros Hfresh clk. unfold _on_message_received, bind. cbn.
  destruct (decide _) as [_|Hin]; [|done].
  cbn. unfold clk.
  by replace (Z.max (Z.max (lamport_clock p) t + 1) t + 1)
    with (Z.max (lamport_clock p) t + 2) by lia.
Qed.

Lemma on_message_received_dup (mid c : string) (s t : Z) (p : Process) :
  mid ∈ delivered_messages p →
  let clk := Z.max (lamport_clock p) t + 1 in
  _on_message_received mid c s t p
  = (tt, set_lamport_clock clk p,
     [SendTo (BASE_PORT + s) (mkMessage "ACK" mid "" (process_id p) clk)]).
Proof.
  intros Hin clk. unfold _on_message_received, bind. cbn.
  destruct (decide _) as [Hfresh|_]; [done|]. done.
Qed.

Lemma on_ack_received_eq (mid : string) (a : Z) (p : Process) :
  _on_ack_received mid a p
  = (tt,
     mkProcess (process_id p) (total_processes p) (lamport_clock p + 1)
       (delivered_messages p) (ack_table mid a (pending_acks p))
       (buffer_messages p),
     []).
Proof.
  unfold _on_ack_received, bind, ack_table. cbn.
  destruct (pending_acks p !! mid) as [pending|] eqn:Hl; cbn; [|done].
  destruct (decide (a ∈ pending)); cbn; [|done].
  destruct (decide (pending ∖ {[a]} = ∅)); cbn; [|done].
  unfold set_pending_acks. cbn. by rewrite delete_insert_eq.
Qed.

End AckHandlers.

(** ** Clock operations, multicast and the handling of DATA *)

Section AckBasics.
Import Ack.

Lemma elem_of_py_range (i n : Z) : i ∈ py_range n ↔ 0 ≤ i < n.
Proof.
  unfold py_range. rewrite list_elem_of_fmap. split.
  - intros (k & -> & Hk). apply elem_of_seq in Hk. lia.
  - intros Hi. exists (Z.to_nat i). split; [lia|].
    apply elem_of_seq. lia.
Qed.

Lemma length_py_range (n : Z) : length (py_range n) = Z.to_nat n.
Proof. unfold py_range. by rewrite length_fmap, length_seq. Qed.

Lemma NoDup_py_range (n : Z) : NoDup (py_range n).
Proof.
  unfold py_range. apply NoDup_fmap_2; [|apply NoDup_seq].
  intros x y. lia.
Qed.

Lemma listen_step_data (m : Message) (p : Process) :
  msg_type m = "DATA" →
  listen_step m p
  = _on_message_received (message_id m) (content m) (sender_id m) (lamport m) p.
Proof. intros Hty. unfold listen_step. by rewrite decide_True. Qed.

Lemma listen_step_ack (m : Message) (p : Process) :
  msg_type m = "ACK" →
  listen_step m p = _on_ack_received (message_id m) (sender_id m) p.
Proof.
  intros Hty. unfold listen_step.
  rewrite decide_False by (rewrite Hty; discriminate).
  by rewrite decide_True.
Qed.

Lemma listen_step_other (m : Message) (p : Process) :
  msg_type m ≠ "DATA" → msg_type m ≠ "ACK" → listen_step m p = (tt, p, []).
Proof.
  intros H1 H2. unfold listen_step. by rewrite !decide_False.
Qed.

(** C4. [_increment_lamport_clock] (tick) adds exactly 1 to the counter and
    returns the new value; [_update_lamport_clock] (advance) sets the
    counter to [max(counter, received) + 1] and returns the new value.
    Neither touches another field nor sends anything. *)
Theorem C4_tick_and_advance (p : Process) (received : Z) :
  (value _increment_lamport_clock p = lamport_clock p + 1
   ∧ lamport_clock (exec _increment_lamport_clock p) = lamport_clock p + 1
   ∧ exec _increment_lamport_clock p
     = set_lamport_clock (lamport_clock p + 1) p
   ∧ actions _increment_lamport_clock p = [])
  ∧ (value (_update_lamport_clock received) p
     = Z.max (lamport_clock p) received + 1
     ∧ lamport_clock (exec (_update_lamport_clock received) p)
       = Z.max (lamport_clock p) received + 1
     ∧ exec (_update_lamport_clock received) p
       = set_lamport_clock (Z.max (lamport_clock p) received + 1) p
     ∧ actions (_update_lamport_clock received) p = []).
Proof.
  unfold value, exec, actions.
  rewrite increment_eq, update_eq. cbn. by repeat split.
Qed.

(** C5. [r_multicast(content)] ticks the clock to get the timestamp [ts],
    registers under the new message id the set of all peer identities
    [0 .. total_processes-1], which contains the sender, and sends one DATA
    message with that id, the sender's id, [ts] and the content to every
    peer, the sender included, and nothing else. *)
Theorem C5_multicast (p : Process) (c : string) :
  0 ≤ process_id p < total_processes p →
  let ts := lamport_clock p + 1 in
  let mid := format_message_id (process_id p) ts c in
  let data := mkMessage "DATA" mid c (process_id p) ts in
  let p' := exec (r_multicast c) p in
  let sent := actions (r_multicast c) p in
  value _increment_lamport_clock p = ts
  ∧ lamport_clock p' = ts
  ∧ (∃ pending, pending_acks p' !! mid = Some pending
       ∧ (∀ i, i ∈ pending ↔ 0 ≤ i < total_processes p)
       ∧ process_id p ∈ pending)
  ∧ (∀ mid', mid' ≠ mid → pending_acks p' !! mid' = pending_acks p !! mid')
  ∧ sent = (λ i, SendTo (BASE_PORT + i) data) <$> py_range (total_processes p)
  ∧ (∀ i, 0 ≤ i < total_processes p → SendTo (BASE_PORT + i) data ∈ sent)
  ∧ SendTo (BASE_PORT + process_id p) data ∈ sent
  ∧ (∀ a, a ∈ sent →
       ∃ i, 0 ≤ i < total_processes p ∧ a = SendTo (BASE_PORT + i) data)
  ∧ length sent = Z.to_nat (total_processes p).
Proof.
  intros Hpid ts mid data p' sent.
  unfold p', sent, exec, actions, value.
  rewrite r_multicast_eq, increment_eq. cbn. fold ts mid data.
  assert (Hmem : ∀ i, 0 ≤ i < total_processes p →
            SendTo (BASE_PORT + i) data
            ∈ (λ i, SendTo (BASE_PORT + i) data) <$> py_range (total_processes p)).
  { intros i Hi. apply list_elem_of_fmap. exists i. split; [done|].
    by apply elem_of_py_range. }
  split_and!; try done.
  - exists (list_to_set (py_range (total_processes p))).
    rewrite lookup_insert_eq. split_and!; [done| |].
    + intros i. rewrite elem_of_list_to_set. apply elem_of_py_range.
    + rewrite elem_of_list_to_set. by apply elem_of_py_range.
  - intros mid' Hne. by rewrite lookup_insert_ne.
  - by apply Hmem.
  - intros a (i & -> & Hi)%list_elem_of_fmap. exists i. split; [|done].
    by apply elem_of_py_range.
  - by rewrite length_fmap, length_py_range.
Qed.

Lemma C5_multicast_witness :
  let p := init 0 3 in
  0 ≤ process_id p < total_processes p
  ∧ SendTo (BASE_PORT + process_id p)
      (mkMessage "DATA" "0-1-hello" "hello" 0 1)
    ∈ actions (r_multicast "hello") p.
Proof.
  intros p.
  assert (Hpid : 0 ≤ process_id p < total_processes p) by (cbn; lia).
  split; [done|].
  pose proof (C5_multicast p "hello" Hpid) as H. cbn zeta in H.
  exact (proj1 (proj2 (proj2 (proj2 (proj2 (proj2 (proj2 H))))))).
Defined.

(** C6. A DATA message whose id is already in [delivered_messages] does not
    reach [r_deliver] and leaves [delivered_messages] as it is (the buffer
    and the table of pending acknowledgements too); the only action is one
    ACK for that id, sent to the port of the origin sender named in the
    message. *)
Theorem C6_duplicate_data (p : Process) (m : Message) :
  msg_type m = "DATA" →
  message_id m ∈ delivered_messages p →
  let p' := exec (listen_step m) p in
  let acts := actions (listen_step m) p in
  r_deliver_calls acts = 0%nat
  ∧ (∀ mid c t, RDeliver mid c t ∉ acts)
  ∧ delivered_messages p' = delivered_messages p
  ∧ buffer_messages p' = buffer_messages p
  ∧ pending_acks p' = pending_acks p
  ∧ acts = [SendTo (BASE_PORT + sender_id m)
              (mkMessage "ACK" (message_id m) "" (process_id p)
                         (lamport_clock p'))].
Proof.
  intros Hty Hin p' acts. unfold p', acts, exec, actions.
  rewrite listen_step_data by done.
  rewrite on_message_received_dup by done. cbn.
  split_and!; try done.
  intros mid c t Hel. apply list_elem_of_singleton in Hel. discriminate.
Qed.

Lemma C6_duplicate_data_witness :
  let m := mkMessage "DATA" "0-1-hello" "hello" 0 1 in
  let p := exec (listen_step m) (init 1 3) in
  actions (listen_step m) p
  = [SendTo 12000 (mkMessage "ACK" "0-1-hello" "" 1 4)].
Proof.
  intros m p.
  assert (Hty : msg_type m = "DATA") by reflexivity.
  assert (Hin : message_id m ∈ delivered_messages p) by (vm_compute; set_solver).
  pose proof (C6_duplicate_data p m Hty Hin) as H. cbn zeta in H.
  exact (proj2 (proj2 (proj2 (proj2 (proj2 H))))).
Defined.

(** C9. A DATA message whose id is not yet in [delivered_messages] moves
    the clock by the advance rule twice with the same timestamp, once in
    [_on_message_received] and once in [r_deliver]: afterwards the clock is
    [max(previous, received) + 2], not [+ 1], and that value is the one
    written into the ACK. *)
Theorem C9_fresh_data_advances_twice (p : Process) (m : Message) :
  msg_type m = "DATA" →
  message_id m ∉ delivered_messages p →
  let t := lamport m in
  let p' := exec (listen_step m) p in
  lamport_clock p'
  = lamport_clock
      (exec (_update_lamport_clock t) (exec (_update_lamport_clock t) p))
  ∧ lamport_clock p' = Z.max (lamport_clock p) t + 2
  ∧ lamport_clock p' ≠ Z.max (lamport_clock p) t + 1
  ∧ actions (listen_step m) p
    = [RDeliver (message_id m) (content m) t;
       SendTo (BASE_PORT + sender_id m)
         (mkMessage "ACK" (message_id m) "" (process_id p)
                    (Z.max (lamport_clock p) t + 2))].
Proof.
  intros Hty Hfresh t p'. unfold p', exec, actions.
  rewrite listen_step_data by done.
  rewrite on_message_received_fresh by done.
  rewrite !update_eq. cbn. fold t. split_and!; [lia|done|lia|done].
Qed.

Lemma C9_fresh_data_advances_twice_witness :
  let m := mkMessage "DATA" "0-5-hello" "hello" 0 5 in
  lamport_clock (exec (listen_step m) (init 1 3)) = 7.
Proof.
  intros m.
  assert (Hty : msg_type m = "DATA") by reflexivity.
  assert (Hfresh : message_id m ∉ delivered_messages (init 1 3))
    by (cbn; set_solver).
  pose proof (C9_fresh_data_advances_twice (init 1 3) m Hty Hfresh) as H.
  cbn zeta in H. exact (proj1 (proj2 H)).
Defined.

End AckBasics.

(** ** The message id as a string: formatting and parsing *)

Section MessageIds.

Lemma string_app_nil_l (s : string) : "" +:+ s = s.
Proof. done. Qed.

Lemma string_app_cons (c : ascii) (s1 s2 : string) :
  String c s1 +:+ s2 = String c (s1 +:+ s2).
Proof. done. Qed.

Lemma string_app_assoc (s1 s2 s3 : string) :
  (s1 +:+ s2) +:+ s3 = s1 +:+ (s2 +:+ s3).
Proof.
  induction s1 as [|c s1 IH]; [done|].
  by rewrite !string_app_cons, IH.
Qed.

Lemma digit_val_pretty_N_char (x : N) :
  (x < 10)%N → digit_val (pretty_N_char x) = Some x.
Proof.
  intros Hx.
  assert (x = 0 ∨ x = 1 ∨ x = 2 ∨ x = 3 ∨ x = 4 ∨ x = 5 ∨ x = 6 ∨ x = 7
          ∨ x = 8 ∨ x = 9)%N as Hcases by lia.
  repeat (destruct Hcases as [->|Hcases]; [done|]). by subst.
Qed.

Lemma digit_is_not_sign (c : ascii) :
  is_Some (digit_val c) →
  c ≠ "-"%char ∧ c ≠ "+"%char ∧ c ≠ "_"%char ∧ py_isspace c = false.
Proof.
  intros [d Hd]. unfold digit_val in Hd. case_decide as Hr; [|done].
  split_and!; try (intros ->; simpl in Hr; lia).
  unfold py_isspace. apply bool_decide_eq_false. lia.
Qed.

Lemma pretty_N_go_digits (x : N) (s : string) :
  ∃ d, pretty_N_go x s = d +:+ s ∧ all_digits d = true
       ∧ ((0 < x)%N → d ≠ "").
Proof.
  revert s. induction (N.lt_wf_0 x) as [x _ IH]. intros s.
  destruct (decide (x = 0)%N) as [->|Hx].
  { exists "". rewrite pretty_N_go_0. split_and!; [done|done|lia]. }
  rewrite pretty_N_go_step by lia.
  destruct (IH (x `div` 10)%N) with (s := String (pretty_N_char (x `mod` 10)) s)
    as (d & Hd & Hall & _).
  { apply N.div_lt; lia. }
  exists (d +:+ String (pretty_N_char (x `mod` 10)) "").
  rewrite Hd, string_app_assoc. split_and!; [done| |].
  - clear Hd. induction d as [|c d IHd].
    + rewrite string_app_nil_l. cbn.
      rewrite digit_val_pretty_N_char by (apply N.mod_lt; lia).
      by rewrite bool_decide_true.
    + rewrite string_app_cons. cbn in *.
      apply andb_true_iff in Hall as [-> Hall]. cbn. by apply IHd.
  - intros _. by destruct d.
Qed.

Lemma digits_from_pretty_N_go (x : N) (s : string) :
  digits_from 0 true (pretty_N_go x s) = digits_from x true s.
Proof.
  revert s. induction (N.lt_wf_0 x) as [x _ IH]. intros s.
  destruct (decide (x = 0)%N) as [->|Hx]; [by rewrite pretty_N_go_0|].
  rewrite pretty_N_go_step by lia.
  rewrite IH by (apply N.div_lt; lia). cbn.
  rewrite digit_val_pretty_N_char by (apply N.mod_lt; lia).
  f_equal. pose proof (N.div_mod x 10). lia.
Qed.

Lemma digits_from_flag (acc : N) (d : string) :
  all_digits d = true → d ≠ "" →
  digits_from acc false d = digits_from acc true d.
Proof.
  destruct d as [|c d]; [done|]. cbn. intros Hall _.
  apply andb_true_iff in Hall as [Hc _]. apply bool_decide_eq_true in Hc.
  by destruct Hc as [v ->].
Qed.

(** [str] of a non-negative [int] is a non-empty string of digits that
    [int] reads back. *)
Lemma py_str_int_digits (z : Z) :
  0 ≤ z →
  all_digits (py_str_int z) = true ∧ py_str_int z ≠ ""
  ∧ digits_from 0 false (py_str_int z) = Some (Z.to_N z).
Proof.
  intros Hz. destruct z as [|q|q]; [done| |lia].
  unfold py_str_int, pretty, pretty_Z, pretty, pretty_positive, pretty, pretty_N.
  rewrite decide_False by done.
  destruct (pretty_N_go_digits (N.pos q) "") as (d & Hd & Hall & Hne).
  assert (pretty_N_go (N.pos q) "" = d) as Hd'.
  { rewrite Hd. clear. induction d as [|c d IH]; [done|].
    by rewrite string_app_cons, IH. }
  specialize (Hne ltac:(lia)).
  split_and!; [by rewrite Hd'|by rewrite Hd'|].
  rewrite Hd', digits_from_flag by done.
  rewrite <- Hd', digits_from_pretty_N_go. done.
Qed.

Lemma py_lstrip_digits (d : string) : all_digits d = true → py_lstrip d = d.
Proof.
  destruct d as [|c d]; [done|]. cbn. intros Hall.
  apply andb_true_iff in Hall as [Hc _]. apply bool_decide_eq_true in Hc.
  apply digit_is_not_sign in Hc as (_ & _ & _ & ->). done.
Qed.

Lemma py_rstrip_digits (d : string) : all_digits d = true → py_rstrip d = d.
Proof.
  induction d as [|c d IH]; [done|]. cbn. intros Hall.
  apply andb_true_iff in Hall as [Hc Hall]. apply bool_decide_eq_true in Hc.
  apply digit_is_not_sign in Hc as (_ & _ & _ & Hsp).
  rewrite IH by done. rewrite Hsp. by destruct d.
Qed.

Lemma py_int_digits (d : string) :
  all_digits d = true → d ≠ "" →
  py_int d = Z.of_N <$> digits_from 0 false d.
Proof.
  intros Hall Hne. unfold py_int, py_strip.
  rewrite py_lstrip_digits, py_rstrip_digits by done.
  destruct d as [|c d]; [done|].
  cbn in Hall. apply andb_true_iff in Hall as [Hc _].
  apply bool_decide_eq_true in Hc.
  apply digit_is_not_sign in Hc as (Hm & Hp & _ & _).
  destruct c as [[] [] [] [] [] [] [] []]; try done.
Qed.

(** [int(str(z)) == z] for a non-negative [z]. *)
Lemma py_int_py_str_int (z : Z) : 0 ≤ z → py_int (py_str_int z) = Some z.
Proof.
  intros Hz. destruct (py_str_int_digits z Hz) as (Hall & Hne & Hval).
  rewrite py_int_digits, Hval by done. cbn. f_equal. lia.
Qed.

Lemma py_split_digits (d rest : string) (n : nat) :
  all_digits d = true →
  py_split "-" (d +:+ String "-" rest) (S n) = d :: py_split "-" rest n.
Proof.
  induction d as [|c d IH]; intros Hall.
  - rewrite string_app_nil_l. cbn. by rewrite decide_True.
  - cbn in Hall. apply andb_true_iff in Hall as [Hc Hall].
    apply bool_decide_eq_true in Hc.
    apply digit_is_not_sign in Hc as (Hm & _ & _ & _).
    rewrite string_app_cons. cbn -[py_split].
    change (py_split "-" (String c (d +:+ String "-" rest)) (S n))
      with (if decide (c = "-"%char)
            then "" :: py_split "-" (d +:+ String "-" rest) n
            else cons_head c (py_split "-" (d +:+ String "-" rest) (S n))).
    rewrite decide_False by done. by rewrite IH.
Qed.

Lemma py_split_0 (sep : ascii) (s : string) : py_split sep s 0 = [s].
Proof. by destruct s. Qed.

(** Splitting a formatted id gives back its three parts when the two
    numbers are not negative. *)
Lemma py_split_format_message_id (s t : Z) (c : string) :
  0 ≤ s → 0 ≤ t →
  py_split "-" (Ack.format_message_id s t c) 2
  = [py_str_int s; py_str_int t; c].
Proof.
  intros Hs Ht. unfold Ack.format_message_id.
  destruct (py_str_int_digits s Hs) as (Hs1 & _ & _).
  destruct (py_str_int_digits t Ht) as (Ht1 & _ & _).
  rewrite !(string_app_cons "-" ""), !string_app_nil_l.
  rewrite py_split_digits by done.
  rewrite py_split_digits by done.
  by rewrite py_split_0.
Qed.

Lemma format_message_id_inj (s t s' t' : Z) (c c' : string) :
  0 ≤ s → 0 ≤ t → 0 ≤ s' → 0 ≤ t' →
  Ack.format_message_id s t c = Ack.format_message_id s' t' c' →
  s = s' ∧ t = t' ∧ c = c'.
Proof.
  intros Hs Ht Hs' Ht' Heq.
  pose proof (py_split_format_message_id s t c Hs Ht) as H1.
  pose proof (py_split_format_message_id s' t' c' Hs' Ht') as H2.
  rewrite Heq, H2 in H1. injection H1 as E1 E2 E3.
  apply (inj pretty) in E1, E2. by subst.
Qed.

End MessageIds.

(** ** Invariants of a run of the acknowledgement-based process *)

Section AckInvariants.
Import Ack.

Lemma step_multicast (p : Process) (c : string) :
  step p (EvMulticast c)
  = mkProcess (process_id p) (total_processes p) (lamport_clock p + 1)
      (delivered_messages p)
      (<[format_message_id (process_id p) (lamport_clock p + 1) c :=
           list_to_set (py_range (total_processes p))]> (pending_acks p))
      (buffer_messages p).
Proof. unfold step, exec. cbn [handler]. by rewrite r_multicast_eq. Qed.

Lemma step_retransmit (p : Process) : step p EvRetransmit = p.
Proof. done. Qed.

Lemma step_receive_cases (p : Process) (m : Message) :
  let p' := step p (EvReceive m) in
  process_id p' = process_id p ∧ total_processes p' = total_processes p
  ∧ lamport_clock p ≤ lamport_clock p'
  ∧ delivered_messages p ⊆ delivered_messages p'
  ∧ (pending_acks p' = pending_acks p
     ∨ pending_acks p'
       = ack_table (message_id m) (sender_id m) (pending_acks p)).
Proof.
  unfold step, exec. cbn [handler].
  destruct (decide (msg_type m = "DATA")) as [Hd|Hd].
  - rewrite listen_step_data by done.
    destruct (decide (message_id m ∈ delivered_messages p)) as [Hin|Hin].
    + rewrite on_message_received_dup by done. cbn.
      split_and!; [done|done|lia|done|by left].
    + rewrite on_message_received_fresh by done. cbn.
      split_and!; [done|done|lia|set_solver|by left].
  - destruct (decide (msg_type m = "ACK")) as [Ha|Ha].
    + rewrite listen_step_ack, on_ack_received_eq by done. cbn.
      split_and!; [done|done|lia|done|by right].
    + rewrite listen_step_other by done. cbn.
      split_and!; [done|done|lia|done|by left].
Qed.

Lemma ack_table_lookup_ne (mid mid' : string) (a : Z)
    (tbl : gmap string (gset Z)) :
  mid' ≠ mid → ack_table mid a tbl !! mid' = tbl !! mid'.
Proof.
  intros Hne. unfold ack_table.
  destruct (tbl !! mid) as [pending|]; [|done].
  repeat case_decide; [|by rewrite lookup_insert_ne|done].
  by rewrite lookup_delete_ne.
Qed.

Lemma ack_table_lookup_eq (mid : string) (a : Z) (tbl : gmap string (gset Z)) :
  ack_table mid a tbl !! mid
  = pending ← tbl !! mid;
    if decide (a ∈ pending) then
      if decide (pending ∖ {[a]} = ∅) then None else Some (pending ∖ {[a]})
    else Some pending.
Proof.
  unfold ack_table.
  destruct (tbl !! mid) as [pending|] eqn:Hl; cbn; [|done].
  repeat case_decide; [by rewrite lookup_delete_eq|
                       by rewrite lookup_insert_eq|done].
Qed.

Lemma ack_table_dom (mid k : string) (a : Z) (tbl : gmap string (gset Z)) :
  is_Some (ack_table mid a tbl !! k) → is_Some (tbl !! k).
Proof.
  destruct (decide (k = mid)) as [->|Hne].
  - rewrite ack_table_lookup_eq. destruct (tbl !! mid); [eauto|].
    cbn. by intros [? ?].
  - by rewrite ack_table_lookup_ne.
Qed.

Lemma step_process_id (p : Process) (ev : Event) :
  process_id (step p ev) = process_id p
  ∧ total_processes (step p ev) = total_processes p.
Proof.
  destruct ev as [c|m|].
  - by rewrite step_multicast.
  - pose proof (step_receive_cases p m) as H. cbn zeta in H.
    by destruct H as (? & ? & _).
  - done.
Qed.

Lemma step_clock_mono (p : Process) (ev : Event) :
  lamport_clock p ≤ lamport_clock (step p ev).
Proof.
  destruct ev as [c|m|].
  - rewrite step_multicast. cbn. lia.
  - pose proof (step_receive_cases p m) as H. cbn zeta in H.
    by destruct H as (_ & _ & ? & _).
  - rewrite step_retransmit. lia.
Qed.

Lemma run_app (p : Process) (evs1 evs2 : list Event) :
  run p (evs1 ++ evs2) = run (run p evs1) evs2.
Proof. unfold run. apply foldl_app. Qed.

Lemma run_cons (p : Process) (ev : Event) (evs : list Event) :
  run p (ev :: evs) = run (step p ev) evs.
Proof. done. Qed.

Lemma run_process_id (p : Process) (evs : list Event) :
  process_id (run p evs) = process_id p
  ∧ total_processes (run p evs) = total_processes p.
Proof.
  revert p. induction evs as [|ev evs IH]; intros p; [done|].
  rewrite run_cons. destruct (IH (step p ev)) as [-> ->].
  apply step_process_id.
Qed.

Lemma run_clock_mono (p : Process) (evs : list Event) :
  lamport_clock p ≤ lamport_clock (run p evs).
Proof.
  revert p. induction evs as [|ev evs IH]; intros p; [done|].
  rewrite run_cons. etrans; [apply step_clock_mono|apply IH].
Qed.

Lemma well_formed_init (pid total : Z) : 0 ≤ pid → well_formed (init pid total).
Proof.
  intros Hpid. split_and!; [done|done|].
  intros k [x Hx]. cbn in Hx. by rewrite lookup_empty in Hx.
Qed.

Lemma well_formed_step (p : Process) (ev : Event) :
  well_formed p → well_formed (step p ev).
Proof.
  intros (Hpid & Hclk & Hkeys).
  pose proof (step_clock_mono p ev) as Hmono.
  destruct (step_process_id p ev) as [Hid _].
  split_and!; [by rewrite Hid|lia|].
  intros k Hk. rewrite Hid.
  assert (is_Some (pending_acks p !! k) →
          ∃ t c, 0 ≤ t ≤ lamport_clock (step p ev)
                 ∧ k = format_message_id (process_id p) t c) as Hold.
  { intros (t & c & Ht & ->)%Hkeys. exists t, c. split; [lia|done]. }
  destruct ev as [c|m|].
  - rewrite step_multicast in Hk |- *. cbn in Hk |- *.
    destruct (decide
      (k = format_message_id (process_id p) (lamport_clock p + 1) c))
      as [->|Hne].
    + exists (lamport_clock p + 1), c. split; [lia|done].
    + rewrite lookup_insert_ne in Hk by done.
      rewrite step_multicast in Hold. by apply Hold.
  - pose proof (step_receive_cases p m) as H. cbn zeta in H.
    destruct H as (_ & _ & _ & _ & [Hp|Hp]); rewrite Hp in Hk.
    + by apply Hold.
    + apply ack_table_dom in Hk. by apply Hold.
  - by apply Hold.
Qed.

Lemma well_formed_run (p : Process) (evs : list Event) :
  well_formed p → well_formed (run p evs).
Proof.
  revert p. induction evs as [|ev evs IH]; intros p Hwf; [done|].
  rewrite run_cons. by apply IH, well_formed_step.
Qed.

End AckInvariants.

(** ** Retransmission *)

Section AckRetransmission.
Import Ack.

Lemma elem_of_keys (tbl : gmap string (gset Z)) (k : string) :
  k ∈ (map_to_list tbl).*1 ↔ is_Some (tbl !! k).
Proof.
  rewrite list_elem_of_fmap. split.
  - intros ([k' v] & -> & Hel). apply elem_of_map_to_list in Hel. by exists v.
  - intros [v Hv]. exists (k, v). split; [done|]. by apply elem_of_map_to_list.
Qed.

Lemma retransmit_one_formatted (p : Process) (s t : Z) (c : string)
    (pending : gset Z) :
  0 ≤ s → 0 ≤ t →
  pending_acks p !! format_message_id s t c = Some pending →
  retransmit_one p (format_message_id s t c)
  = Some (if decide (pending = ∅) then []
          else if decide (s = process_id p) then
            (λ target,
               SendTo (BASE_PORT + target)
                 (mkMessage "DATA" (format_message_id s t c) c s t))
              <$> elements pending
          else []).
Proof.
  intros Hs Ht Hl. unfold retransmit_one. rewrite Hl.
  change (default ∅ (Some pending)) with pending.
  destruct (decide (pending = ∅)); [done|].
  rewrite py_split_format_message_id by done.
  rewrite !py_int_py_str_int by done. cbn.
  by destruct (decide (s = process_id p)).
Qed.

Lemma retransmit_one_shape (p : Process) (k : string) (sent : list Action)
    (a : Action) :
  retransmit_one p k = Some sent → a ∈ sent →
  ∃ pending target c lam,
    pending_acks p !! k = Some pending ∧ target ∈ pending
    ∧ a = SendTo (BASE_PORT + target)
            (mkMessage "DATA" k c (process_id p) lam).
Proof.
  unfold retransmit_one. intros Hsent Hel.
  destruct (pending_acks p !! k) as [pending|] eqn:Hl.
  2:{ change (default ∅ None) with (∅ : gset Z) in Hsent.
      rewrite decide_True in Hsent by done.
      injection Hsent as <-. by apply elem_of_nil in Hel. }
  change (default ∅ (Some pending)) with pending in Hsent.
  destruct (decide (pending = ∅)).
  { injection Hsent as <-. by apply elem_of_nil in Hel. }
  destruct (py_split "-" k 2) as [|s1 [|s2 [|s3 [|]]]]; try done.
  destruct (py_int s1) as [sid|]; [|done].
  destruct (py_int s2) as [lam|]; [|done]. cbn in Hsent.
  destruct (decide (sid = process_id p)) as [->|].
  2:{ injection Hsent as <-. by apply elem_of_nil in Hel. }
  injection Hsent as <-.
  apply list_elem_of_fmap in Hel as (target & -> & Htarget).
  apply elem_of_elements in Htarget.
  by exists pending, target, s3, lam.
Qed.

Lemma retransmit_keys_elem (p : Process) (keys : list string) (a : Action) :
  a ∈ (retransmit_keys p keys).1 →
  ∃ k sent, k ∈ keys ∧ retransmit_one p k = Some sent ∧ a ∈ sent.
Proof.
  induction keys as [|k keys IH]; cbn.
  { by intros ?%elem_of_nil. }
  destruct (retransmit_one p k) as [sent|] eqn:Hone.
  2:{ by intros ?%elem_of_nil. }
  destruct (retransmit_keys p keys) as [rest raised]. cbn in *.
  intros [Hel|Hel]%elem_of_app.
  - exists k, sent. split_and!; [left|done|done].
  - destruct (IH Hel) as (k' & sent' & ? & ? & ?).
    exists k', sent'. split_and!; [by right|done|done].
Qed.

Lemma retransmit_keys_total (p : Process) (keys : list string) :
  (∀ k, k ∈ keys → is_Some (retransmit_one p k)) →
  (retransmit_keys p keys).2 = false
  ∧ ∀ k sent a, k ∈ keys → retransmit_one p k = Some sent → a ∈ sent →
      a ∈ (retransmit_keys p keys).1.
Proof.
  induction keys as [|k keys IH]; intros Hall; cbn.
  { split; [done|]. by intros ??? ?%elem_of_nil. }
  destruct (Hall k) as [sent Hone]; [left|]. rewrite Hone.
  destruct IH as [Hraised Hin].
  { intros k' Hk'. apply Hall. by right. }
  destruct (retransmit_keys p keys) as [rest raised]. cbn in *.
  split; [done|].
  intros k' sent' a [->|Hk']%elem_of_cons Hone' Hel; apply elem_of_app.
  - left. congruence.
  - right. by eapply Hin.
Qed.

(** In a well-formed state every key parses, so a pass raises nothing. *)
Lemma well_formed_retransmit_one (p : Process) (k : string) :
  well_formed p → is_Some (pending_acks p !! k) →
  is_Some (retransmit_one p k).
Proof.
  intros (Hpid & Hclk & Hkeys) Hk.
  destruct (Hkeys k Hk) as (t & c & Ht & ->). destruct Hk as [pending Hl].
  erewrite retransmit_one_formatted by (done || lia). eauto.
Qed.

(** C8. Let a process with a non-negative id multicast [c] at any point of
    any run, and let any events follow.  A retransmission pass then mints
    no timestamp (the state, clock included, is unchanged) and raises no
    exception; every message it sends is of type DATA, names this process
    as origin, and goes to the port of a peer that is still in the pending
    set of the message's id; each message it sends under the id of that
    multicast is the very message that [r_multicast] sent (same id,
    origin, timestamp and content); and it sends that message to every
    peer still pending for it. *)
Theorem C8_retransmission (pid total : Z) (evs0 : list Event) (c : string)
    (evs : list Event) :
  0 ≤ pid →
  let p := run (init pid total) evs0 in
  let ts := lamport_clock p + 1 in
  let mid := format_message_id pid ts c in
  let original := mkMessage "DATA" mid c pid ts in
  let p2 := run (exec (r_multicast c) p) evs in
  let resent := actions _retransmit_messages p2 in
  (∀ i, 0 ≤ i < total →
     SendTo (BASE_PORT + i) original ∈ actions (r_multicast c) p)
  ∧ exec _retransmit_messages p2 = p2
  ∧ (retransmit_pass p2).2 = false
  ∧ (∀ a, a ∈ resent →
       ∃ m pending target,
         a = SendTo (BASE_PORT + target) m
         ∧ msg_type m = "DATA" ∧ sender_id m = pid
         ∧ pending_acks p2 !! message_id m = Some pending
         ∧ target ∈ pending)
  ∧ (∀ port m, SendTo port m ∈ resent → message_id m = mid → m = original)
  ∧ (∀ pending target,
       pending_acks p2 !! mid = Some pending → target ∈ pending →
       SendTo (BASE_PORT + target) original ∈ resent).
Proof.
  intros Hpid p ts mid original p2 resent.
  assert (Hwf : well_formed p) by by apply well_formed_run, well_formed_init.
  destruct (run_process_id (init pid total) evs0) as [Hid Htot].
  fold p in Hid, Htot. cbn in Hid, Htot.
  assert (Hp1 : exec (r_multicast c) p = step p (EvMulticast c)) by done.
  assert (Hwf2 : well_formed p2).
  { unfold p2. rewrite Hp1. by apply well_formed_run, well_formed_step. }
  assert (Hid2 : process_id p2 = pid).
  { unfold p2. rewrite Hp1.
    destruct (run_process_id (step p (EvMulticast c)) evs) as [-> _].
    by destruct (step_process_id p (EvMulticast c)) as [-> _]. }
  assert (Hts : 0 ≤ ts) by (destruct Hwf as (_ & ? & _); unfold ts; lia).
  destruct (retransmit_keys_total p2 (map_to_list (pending_acks p2)).*1)
    as [Hraised Hcomplete].
  { intros k Hk%elem_of_keys. by apply well_formed_retransmit_one. }
  split_and!.
  - intros i Hi. unfold actions. rewrite r_multicast_eq. cbn.
    rewrite Hid, Htot. fold ts mid original.
    apply list_elem_of_fmap. exists i. split; [done|].
    by apply elem_of_py_range.
  - done.
  - done.
  - intros a Hel. apply retransmit_keys_elem in Hel
      as (k & sent & _ & Hone & Hel).
    destruct (retransmit_one_shape _ _ _ _ Hone Hel)
      as (pending & target & c' & lam & Hl & Htarget & ->).
    exists (mkMessage "DATA" k c' (process_id p2) lam), pending, target.
    by rewrite Hid2.
  - intros port m Hel Hmid. apply retransmit_keys_elem in Hel
      as (k & sent & Hk & Hone & Hel).
    destruct (retransmit_one_shape _ _ _ _ Hone Hel)
      as (pending & target & c' & lam & Hl & Htarget & [= -> ->]).
    cbn in Hmid. subst k.
    unfold mid in Hone, Hl.
    rewrite (retransmit_one_formatted p2 pid ts c pending) in Hone
      by done.
    injection Hone as <-.
    destruct (decide (pending = ∅)); [by apply elem_of_nil in Hel|].
    rewrite decide_True in Hel by done.
    apply list_elem_of_fmap in Hel as (target' & Heq & _).
    injection Heq as _ Hc Hs Hlam. subst c' lam. by rewrite Hid2.
  - intros pending target Hl Htarget.
    eapply (Hcomplete mid).
    + apply elem_of_keys. eauto.
    + unfold mid. by apply retransmit_one_formatted.
    + rewrite decide_False by set_solver. rewrite decide_True by done.
      apply list_elem_of_fmap. exists target. split; [done|].
      by apply elem_of_elements.
Qed.

Lemma C8_retransmission_witness :
  actions _retransmit_messages
    (run (exec (r_multicast "hello") (run (init 0 3) []))
         [EvReceive (mkMessage "ACK" "0-1-hello" "" 1 3)])
  ≡ₚ [SendTo 12000 (mkMessage "DATA" "0-1-hello" "hello" 0 1);
      SendTo 12002 (mkMessage "DATA" "0-1-hello" "hello" 0 1)]
  ∧ ∀ port m,
      SendTo port m
      ∈ actions _retransmit_messages
          (run (exec (r_multicast "hello") (run (init 0 3) []))
               [EvReceive (mkMessage "ACK" "0-1-hello" "" 1 3)]) →
      message_id m = "0-1-hello" →
      m = mkMessage "DATA" "0-1-hello" "hello" 0 1.
Proof.
  split.
  - vm_compute. apply perm_swap.
  - assert (Hpid : 0 ≤ 0) by lia.
    pose proof (C8_retransmission 0 3 [] "hello"
                  [EvReceive (mkMessage "ACK" "0-1-hello" "" 1 3)] Hpid) as H.
    cbn zeta in H.
    exact (proj1 (proj2 (proj2 (proj2 (proj2 H))))).
Defined.

End AckRetransmission.

(** ** Acknowledgements *)

Section AckCompletion.
Import Ack.

Lemma foldl_acked_None (l : list Z) : foldl acked None l = None.
Proof. by induction l. Qed.

Lemma foldl_acked_Some (pending : gset Z) (l : list Z) :
  pending ≠ ∅ →
  foldl acked (Some pending) l
  = if decide (pending ∖ list_to_set l = ∅) then None
    else Some (pending ∖ list_to_set l).
Proof.
  revert pending. induction l as [|a l IH]; intros pending Hne.
  { cbn [foldl]. rewrite list_to_set_nil.
    replace (pending ∖ ∅) with pending by set_solver.
    by rewrite decide_False. }
  cbn [foldl]. rewrite list_to_set_cons.
  change (acked (Some pending) a)
    with (if decide (a ∈ pending) then
            if decide (pending ∖ {[a]} = ∅) then None
            else Some (pending ∖ {[a]})
          else Some pending).
  destruct (decide (a ∈ pending)) as [Ha|Ha].
  - replace (pending ∖ ({[a]} ∪ list_to_set l))
      with (pending ∖ {[a]} ∖ list_to_set l) by set_solver.
    destruct (decide (pending ∖ {[a]} = ∅)) as [He|He].
    + rewrite foldl_acked_None, He.
      replace (∅ ∖ list_to_set l : gset Z) with (∅ : gset Z) by set_solver.
      by rewrite decide_True.
    + by rewrite IH.
  - replace (pending ∖ ({[a]} ∪ list_to_set l))
      with (pending ∖ list_to_set l) by set_solver.
    by rewrite IH.
Qed.

Lemma ack_senders_cons (mid : string) (ev : Event) (evs : list Event) :
  ack_senders mid (ev :: evs) = ack_senders mid [ev] ++ ack_senders mid evs.
Proof. unfold ack_senders. cbn. by destruct (_ : option Z). Qed.

Lemma ack_senders_receive (mid : string) (m : Message) :
  ack_senders mid [EvReceive m]
  = if decide (msg_type m = "ACK" ∧ message_id m = mid) then [sender_id m]
    else [].
Proof. unfold ack_senders. cbn. by destruct (decide _). Qed.

(** One event changes the entry of a formatted id only by the
    acknowledgements for that id. *)
Lemma step_pending_lookup (p : Process) (ev : Event) (t : Z) (c : string) :
  0 ≤ process_id p → 0 ≤ t ≤ lamport_clock p →
  let mid := format_message_id (process_id p) t c in
  pending_acks (step p ev) !! mid
  = foldl acked (pending_acks p !! mid) (ack_senders mid [ev]).
Proof.
  intros Hpid Ht mid. destruct ev as [c'|m|]; [| |done].
  - rewrite step_multicast. cbn. rewrite lookup_insert_ne; [done|].
    intros Heq. apply format_message_id_inj in Heq; lia.
  - unfold step, exec. cbn [handler]. rewrite ack_senders_receive.
    destruct (decide (msg_type m = "DATA")) as [Hd|Hd].
    { rewrite decide_False by (rewrite Hd; intros [? _]; discriminate).
      rewrite listen_step_data by done.
      destruct (decide (message_id m ∈ delivered_messages p)).
      - by rewrite on_message_received_dup.
      - by rewrite on_message_received_fresh. }
    destruct (decide (msg_type m = "ACK")) as [Ha|Ha].
    2:{ rewrite decide_False by tauto. by rewrite listen_step_other. }
    rewrite listen_step_ack, on_ack_received_eq by done. cbn.
    destruct (decide (message_id m = mid)) as [Hm|Hm].
    + rewrite decide_True by done. cbn. rewrite Hm.
      apply ack_table_lookup_eq.
    + rewrite decide_False by tauto. cbn. by rewrite ack_table_lookup_ne.
Qed.

Lemma run_pending_lookup (p : Process) (evs : list Event) (t : Z) (c : string) :
  0 ≤ process_id p → 0 ≤ t ≤ lamport_clock p →
  let mid := format_message_id (process_id p) t c in
  pending_acks (run p evs) !! mid
  = foldl acked (pending_acks p !! mid) (ack_senders mid evs).
Proof.
  intros Hpid Ht mid. revert p Hpid Ht mid.
  induction evs as [|ev evs IH]; intros p Hpid Ht mid; [done|].
  rewrite run_cons, ack_senders_cons, foldl_app.
  destruct (step_process_id p ev) as [Hid _].
  pose proof (step_clock_mono p ev) as Hmono.
  unfold mid. rewrite <- Hid.
  rewrite IH by (rewrite ?Hid; lia).
  rewrite Hid. by rewrite step_pending_lookup.
Qed.

(** C7. [_on_ack_received] for an id that is not a key of [pending_acks]
    leaves the table as it is.  For a key, it takes the sender of the
    acknowledgement out of the pending set and touches no other entry; the
    entry is deleted exactly when this empties a set that was not empty
    before.  Over a run: after [r_multicast] has registered the peers
    [0 .. total_processes-1] (at least one), the entry holds the peers that
    have not acknowledged yet, and it is gone exactly when an ACK for the
    id has been received from each of them. *)
Theorem C7_ack_received :
  (∀ (p : Process) (mid : string) (a : Z),
     let p' := exec (_on_ack_received mid a) p in
     (pending_acks p !! mid = None → pending_acks p' = pending_acks p)
     ∧ (∀ mid', mid' ≠ mid → pending_acks p' !! mid' = pending_acks p !! mid')
     ∧ (∀ pending, pending_acks p !! mid = Some pending →
          pending_acks p' !! mid
          = (if decide (a ∈ pending ∧ pending ∖ {[a]} = ∅) then None
             else Some (pending ∖ {[a]}))
          ∧ (pending_acks p' !! mid = None
             ↔ pending ≠ ∅ ∧ pending ∖ {[a]} = ∅)))
  ∧ (∀ (pid total : Z) (evs0 : list Event) (c : string) (evs : list Event),
       0 ≤ pid → 0 < total →
       let p := run (init pid total) evs0 in
       let mid := format_message_id pid (lamport_clock p + 1) c in
       let p2 := run (exec (r_multicast c) p) evs in
       let rest : gset Z :=
         list_to_set (py_range total) ∖ list_to_set (ack_senders mid evs) in
       pending_acks p2 !! mid
       = (if decide (rest = ∅) then None else Some rest)
       ∧ (pending_acks p2 !! mid = None
          ↔ ∀ i, 0 ≤ i < total → i ∈ ack_senders mid evs)).
Proof.
  split.
  - intros p mid a p'. unfold p', exec. rewrite on_ack_received_eq. cbn.
    split_and!.
    + intros Hl. unfold ack_table. by rewrite Hl.
    + intros mid' Hne. by apply ack_table_lookup_ne.
    + intros pending Hl. rewrite ack_table_lookup_eq, Hl. cbn.
      destruct (decide (a ∈ pending)) as [Ha|Ha].
      * destruct (decide (pending ∖ {[a]} = ∅)) as [He|He].
        -- rewrite decide_True by done. split; [done|].
           split; [set_solver|done].
        -- rewrite decide_False by tauto. split; [done|].
           split; [done|tauto].
      * rewrite decide_False by tauto.
        replace (pending ∖ {[a]}) with pending by set_solver.
        split; [done|]. split; [done|]. intros [Hne He]. set_solver.
  - intros pid total evs0 c evs Hpid Htotal p mid p2 rest.
    assert (Hwf : well_formed p) by by apply well_formed_run, well_formed_init.
    destruct (run_process_id (init pid total) evs0) as [Hid Htot].
    fold p in Hid, Htot. cbn in Hid, Htot.
    destruct Hwf as (_ & Hclk & _).
    assert (Hl : pending_acks p2 !! mid
                 = foldl acked (Some (list_to_set (py_range total)))
                     (ack_senders mid evs)).
    { unfold p2.
      change (exec (r_multicast c) p) with (step p (EvMulticast c)).
      set (p1 := step p (EvMulticast c)).
      assert (Hid1 : process_id p1 = pid)
        by (unfold p1; by rewrite step_multicast).
      assert (Hclk1 : lamport_clock p1 = lamport_clock p + 1)
        by (unfold p1; by rewrite step_multicast).
      assert (Hl1 : pending_acks p1 !! mid
                    = Some (list_to_set (py_range total))).
      { unfold p1. rewrite step_multicast. cbn. rewrite Hid, Htot.
        apply lookup_insert_eq. }
      pose proof (run_pending_lookup p1 evs (lamport_clock p + 1) c) as H.
      cbn zeta in H. rewrite Hid1 in H. fold mid in H.
      rewrite H by lia. by rewrite Hl1. }
    assert (Hne : (list_to_set (py_range total) : gset Z) ≠ ∅).
    { intros He. assert (0 ∈ (list_to_set (py_range total) : gset Z)) as H0.
      { rewrite elem_of_list_to_set. apply elem_of_py_range. lia. }
      set_solver. }
    rewrite foldl_acked_Some in Hl by done. fold rest in Hl.
    split; [done|]. rewrite Hl.
    assert (rest = ∅ ↔ ∀ i, 0 ≤ i < total → i ∈ ack_senders mid evs) as Hiff.
    { unfold rest. split.
      - intros He i Hi.
        assert (i ∈ (list_to_set (py_range total) : gset Z))
          by (rewrite elem_of_list_to_set; by apply elem_of_py_range).
        destruct (decide (i ∈ ack_senders mid evs)); [done|].
        assert (i ∈ (∅ : gset Z)); [|set_solver].
        rewrite <- He. set_solver.
      - intros Hall. apply set_eq. intros i. split; [|set_solver].
        intros [Hi Hn]%elem_of_difference.
        rewrite elem_of_list_to_set in Hi, Hn.
        apply elem_of_py_range in Hi. by destruct Hn; apply Hall. }
    rewrite <- Hiff. by destruct (decide (rest = ∅)).
Qed.

Lemma C7_ack_received_witness :
  let acks := [EvReceive (mkMessage "ACK" "0-1-hi" "" 1 3);
               EvReceive (mkMessage "ACK" "0-1-hi" "" 0 3);
               EvReceive (mkMessage "ACK" "0-1-hi" "" 1 9)] in
  pending_acks (run (exec (r_multicast "hi") (run (init 0 3) [])) acks)
    !! "0-1-hi"
  = Some {[2]}.
Proof.
  intros acks.
  assert (Hpid : 0 ≤ 0) by lia. assert (Htotal : 0 < 3) by lia.
  pose proof (proj1 (proj2 C7_ack_received 0 3 [] "hi" acks Hpid Htotal)) as H.
  cbn zeta in H. etrans; [exact H|]. by vm_compute.
Defined.

End AckCompletion.

(** ** Delivery at most once *)

Section AckDelivery.
Import Ack.

Lemma listen_step_deliver_calls (p : Process) (m : Message) :
  r_deliver_calls (actions (listen_step m) p)
  = if decide (msg_type m = "DATA" ∧ message_id m ∉ delivered_messages p)
    then 1%nat else 0%nat.
Proof.
  unfold actions.
  destruct (decide (msg_type m = "DATA")) as [Hd|Hd].
  - rewrite listen_step_data by done.
    destruct (decide (message_id m ∈ delivered_messages p)) as [Hin|Hin].
    + rewrite on_message_received_dup by done.
      by rewrite decide_False by tauto.
    + rewrite on_message_received_fresh by done.
      by rewrite decide_True.
  - rewrite decide_False by tauto.
    destruct (decide (msg_type m = "ACK")) as [Ha|Ha].
    + by rewrite listen_step_ack, on_ack_received_eq.
    + by rewrite listen_step_other.
Qed.

Lemma listen_step_delivered (p : Process) (m : Message) :
  delivered_messages (step p (EvReceive m))
  = if decide (msg_type m = "DATA")
    then {[message_id m]} ∪ delivered_messages p
    else delivered_messages p.
Proof.
  unfold step, exec. cbn [handler].
  destruct (decide (msg_type m = "DATA")) as [Hd|Hd].
  - rewrite listen_step_data by done.
    destruct (decide (message_id m ∈ delivered_messages p)) as [Hin|Hin].
    + rewrite on_message_received_dup by done. cbn. set_solver.
    + by rewrite on_message_received_fresh.
  - destruct (decide (msg_type m = "ACK")) as [Ha|Ha].
    + by rewrite listen_step_ack, on_ack_received_eq.
    + by rewrite listen_step_other.
Qed.

Lemma step_delivered_mono (p : Process) (ev : Event) :
  delivered_messages p ⊆ delivered_messages (step p ev).
Proof.
  destruct ev as [c|m|]; [by rewrite step_multicast| |done].
  rewrite listen_step_delivered. case_decide; set_solver.
Qed.






End AckDelivery.

Section GossipDelivery.
Import Gossip.

Lemma handle_receive_fresh (p : Processo) (m : Message) :
  (original_sender m, timestamp m) ∉ delivered_messages p →
  handle_receive p m
  = (mkProcesso (id p) (num_queues p)
       (Z.max (lamport_clock p) (timestamp m) + 1)
       ({[(original_sender m, timestamp m)]} ∪ delivered_messages p)
       (running p),
     Entregue m :: ((λ i, Put i m) <$> seq 0 (num_queues p))).
Proof. intros Hfresh. unfold handle_receive. by rewrite decide_False. Qed.

Lemma handle_receive_dup (p : Processo) (m : Message) :
  (original_sender m, timestamp m) ∈ delivered_messages p →
  handle_receive p m = (p, []).
Proof. intros Hin. unfold handle_receive. by rewrite decide_True. Qed.

Lemma entregues_puts (m : Message) (l : list nat) :
  entregues ((λ i, Put i m) <$> l) = [].
Proof. by induction l. Qed.

Lemma gossip_deliveries_cons (p : Processo) (ev : Event) (evs : list Event) :
  gossip_deliveries p (ev :: evs)
  = entregues (step p ev).2 ++ gossip_deliveries (step p ev).1 evs.
Proof. unfold gossip_deliveries. cbn [gossip_trace]. apply omap_app. Qed.



End GossipDelivery.

(** ** The network: what the wire can carry *)

Section NetworkInvariant.
Import Ack.

Lemma elem_of_wire_sends (acts : list Action) (port : Z) (m : Message) :
  (port, m) ∈ wire_sends acts ↔ SendTo port m ∈ acts.
Proof.
  unfold wire_sends. rewrite list_elem_of_omap. split.
  - intros (a & Ha & Hsome). destruct a; [|done]. by injection Hsome as -> ->.
  - intros Ha. by exists (SendTo port m).
Qed.

Lemma data_on_wire_handle (N : Network) (i : Z) (p : Process) (ev : Event)
    (m : Message) :
  data_on_wire (net_handle N i p ev) m
  ↔ data_on_wire N m
    ∨ (msg_type m = "DATA" ∧ ∃ port, SendTo port m ∈ actions (handler ev) p).
Proof.
  unfold data_on_wire, net_handle. cbn [wire]. split.
  - intros (Hd & port & [Hel|Hel]%elem_of_app).
    + left. eauto.
    + right. split; [done|]. exists port. by apply elem_of_wire_sends.
  - intros [(Hd & port & Hel)|(Hd & port & Hel)]; (split; [done|]);
      exists port; apply elem_of_app; [by left|right].
    by apply elem_of_wire_sends.
Qed.

Lemma procs_handle (N : Network) (i j : Z) (p : Process) (ev : Event) :
  procs (net_handle N i p ev) !! j
  = if decide (i = j) then Some (step p ev) else procs N !! j.
Proof. unfold net_handle. cbn [procs]. apply lookup_insert. Qed.

(** Handling a received message sends nothing but acknowledgements. *)
Lemma listen_step_sends_ack (p : Process) (m m' : Message) (port : Z) :
  SendTo port m' ∈ actions (listen_step m) p → msg_type m' = "ACK".
Proof.
  unfold actions.
  destruct (decide (msg_type m = "DATA")) as [Hd|Hd].
  - rewrite listen_step_data by done.
    destruct (decide (message_id m ∈ delivered_messages p)) as [Hin|Hin].
    + rewrite on_message_received_dup by done. cbn.
      by intros [= _ ->]%list_elem_of_singleton.
    + rewrite on_message_received_fresh by done. cbn.
      intros [Heq|Hel]%elem_of_cons; [done|].
      by apply list_elem_of_singleton in Hel as [= _ ->].
  - destruct (decide (msg_type m = "ACK")) as [Ha|Ha].
    + rewrite listen_step_ack, on_ack_received_eq by done. cbn.
      by intros ?%elem_of_nil.
    + rewrite listen_step_other by done. cbn. by intros ?%elem_of_nil.
Qed.

Lemma r_multicast_sends (p : Process) (c : string) (port : Z) (m : Message) :
  SendTo port m ∈ actions (r_multicast c) p →
  m = mkMessage "DATA"
        (format_message_id (process_id p) (lamport_clock p + 1) c) c
        (process_id p) (lamport_clock p + 1).
Proof.
  unfold actions. rewrite r_multicast_eq. cbn.
  by intros (j & [= _ ->] & _)%list_elem_of_fmap.
Qed.

(** What a retransmission pass sends for a process whose keys are
    formatted ids: the message of some key, rebuilt from the key. *)
Lemma retransmit_sends (p : Process) (port : Z) (m : Message) :
  0 ≤ process_id p →
  (∀ k, is_Some (pending_acks p !! k) →
     ∃ t c, 0 ≤ t ≤ lamport_clock p
            ∧ k = format_message_id (process_id p) t c) →
  SendTo port m ∈ actions _retransmit_messages p →
  ∃ t c, 0 ≤ t ≤ lamport_clock p
    ∧ is_Some (pending_acks p !! format_message_id (process_id p) t c)
    ∧ m = mkMessage "DATA" (format_message_id (process_id p) t c) c
            (process_id p) t.
Proof.
  intros Hpid Hkeys Hel.
  apply retransmit_keys_elem in Hel as (k & sent & Hk & Hone & Hel).
  apply elem_of_keys in Hk.
  destruct (Hkeys k Hk) as (t & c & Ht & ->). destruct Hk as [pending Hl].
  rewrite (retransmit_one_formatted p _ t c pending) in Hone by (done || lia).
  injection Hone as <-.
  destruct (decide (pending = ∅)); [by apply elem_of_nil in Hel|].
  rewrite decide_True in Hel by done.
  apply list_elem_of_fmap in Hel as (target & [= _ ->] & _).
  exists t, c. split_and!; [lia|lia|eauto|done].
Qed.

Lemma net_inv_init (total : Z) : net_inv (net_init total).
Proof.
  assert (Hlook : ∀ i p, procs (net_init total) !! i = Some p →
            p = init i total ∧ 0 ≤ i).
  { intros i p Hl. cbn in Hl. apply elem_of_list_to_map_2 in Hl.
    apply list_elem_of_fmap in Hl as (j & [= -> ->] & Hj).
    apply elem_of_py_range in Hj. split; [done|lia]. }
  assert (Hwire : ∀ m, ¬ data_on_wire (net_init total) m).
  { intros m (_ & port & Hel). by apply elem_of_nil in Hel. }
  constructor.
  - intros i p (-> & Hi)%Hlook. by cbn.
  - intros m Hm. by destruct (Hwire m).
  - intros i p k (-> & _)%Hlook [x Hx]. cbn in Hx.
    by rewrite lookup_empty in Hx.
  - intros i p t c m _ _ _ Hm. by destruct (Hwire m).
  - intros i p t c1 c2 (-> & _)%Hlook _ [x Hx]. cbn in Hx.
    by rewrite lookup_empty in Hx.
  - intros m1 m2 Hm. by destruct (Hwire m1).
  - intros i m Hel. by apply elem_of_nil in Hel.
  - intros i mid. cbn [delivery_log net_init]. rewrite filter_nil. cbn. lia.
Qed.

Lemma net_inv_multicast (N : Network) (i : Z) (p : Process) (c : string) :
  net_inv N → procs N !! i = Some p →
  net_inv (net_handle N i p (EvMulticast c)).
Proof.
  intros Hinv Hp.
  destruct (inv_procs N Hinv i p Hp) as (Hid & Hi & Hclk).
  set (ts := lamport_clock p + 1).
  set (k0 := format_message_id i ts c).
  set (m0 := mkMessage "DATA" k0 c i ts).
  set (N' := net_handle N i p (EvMulticast c)).
  assert (Hstep : step p (EvMulticast c)
                  = mkProcess i (total_processes p) ts (delivered_messages p)
                      (<[k0 := list_to_set (py_range (total_processes p))]>
                         (pending_acks p))
                      (buffer_messages p))
    by (by rewrite step_multicast, Hid).
  assert (Hnew : ∀ m, data_on_wire N' m → data_on_wire N m ∨ m = m0).
  { intros m [Hm|(_ & port & Hel)]%data_on_wire_handle; [by left|right].
    apply r_multicast_sends in Hel. by rewrite Hid in Hel. }
  assert (Hold : ∀ m, data_on_wire N m → sender_id m = i → lamport m < ts).
  { intros m Hm Hs. destruct (inv_data N Hinv m Hm) as (q & Hq & Hr & _).
    rewrite Hs, Hp in Hq. injection Hq as <-. unfold ts. lia. }
  assert (Hkey : ∀ k, is_Some (pending_acks (step p (EvMulticast c)) !! k) →
            k = k0 ∨ (k ≠ k0 ∧ is_Some (pending_acks p !! k))).
  { intros k. rewrite Hstep. cbn. destruct (decide (k = k0)) as [->|Hne].
    - by left.
    - rewrite lookup_insert_ne by done. by right. }
  constructor.
  - intros j q. unfold N'. rewrite procs_handle. case_decide as Hj.
    + intros [= <-]. subst j. rewrite Hstep. cbn. unfold ts. lia.
    + apply (inv_procs N Hinv).
  - intros m [Hm| ->]%Hnew.
    + destruct (inv_data N Hinv m Hm) as (q & Hq & Hr & Hfmt).
      unfold N'. rewrite procs_handle. case_decide as Hj.
      * exists (step p (EvMulticast c)). rewrite <- Hj, Hp in Hq.
        injection Hq as <-. rewrite Hstep. cbn. unfold ts.
        split_and!; [done|lia|lia|done].
      * by exists q.
    + exists (step p (EvMulticast c)). unfold N'. rewrite procs_handle.
      cbn. rewrite decide_True by done. rewrite Hstep. cbn. unfold ts.
      split_and!; [done|lia|lia|done].
  - intros j q k. unfold N'. rewrite procs_handle. case_decide as Hj.
    + intros [= <-]. subst j. intros [->|[_ Hk]]%Hkey.
      * exists ts, c. rewrite Hstep. cbn. unfold ts. split; [lia|done].
      * destruct (inv_keys N Hinv i p k Hp Hk) as (t & c' & Ht & ->).
        exists t, c'. rewrite Hstep. cbn. unfold ts. split; [lia|done].
    + apply (inv_keys N Hinv).
  - intros j q t c' m. unfold N'. rewrite procs_handle. case_decide as Hj.
    + intros [= <-]. subst j. intros Ht [Hk|[Hne Hk]]%Hkey Hm Hs Hl.
      * apply format_message_id_inj in Hk as (_ & -> & ->);
          [|done|done|done|unfold ts; lia].
        apply Hnew in Hm as [Hm| ->]; [|done].
        pose proof (Hold m Hm Hs). lia.
      * apply Hnew in Hm as [Hm| ->].
        -- by apply (inv_keys_content N Hinv i p t c' m).
        -- cbn in Hl. subst t.
           destruct (inv_keys N Hinv i p _ Hp Hk) as (t' & c'' & Ht' & Heq).
           apply format_message_id_inj in Heq as (_ & Heq & _);
             [|done|done|done|lia].
           unfold ts in Heq. lia.
    + intros Hq Ht Hk Hm Hs Hl. apply Hnew in Hm as [Hm| ->].
      * by apply (inv_keys_content N Hinv j q t c' m).
      * cbn in Hs. done.
  - intros j q t c1 c2. unfold N'. rewrite procs_handle. case_decide as Hj.
    + intros [= <-]. subst j. intros Ht H1 H2.
      assert (Hts : ∀ c', is_Some (pending_acks p !! format_message_id i t c') →
                t < ts).
      { intros c' Hk.
        destruct (inv_keys N Hinv i p _ Hp Hk) as (t' & c'' & Ht' & Heq).
        apply format_message_id_inj in Heq as (_ & -> & _);
          [|done|done|done|lia].
        unfold ts. lia. }
      apply Hkey in H1 as [H1|[_ H1]]; apply Hkey in H2 as [H2|[_ H2]].
      * apply format_message_id_inj in H1 as (_ & _ & ->);
          [|done|done|done|unfold ts; lia].
        apply format_message_id_inj in H2 as (_ & _ & ->);
          [|done|done|done|unfold ts; lia].
        done.
      * apply format_message_id_inj in H1 as (_ & -> & _);
          [|done|done|done|unfold ts; lia].
        pose proof (Hts _ H2). lia.
      * apply format_message_id_inj in H2 as (_ & -> & _);
          [|done|done|done|unfold ts; lia].
        pose proof (Hts _ H1). lia.
      * by apply (inv_keys_inj N Hinv i p t c1 c2).
    + apply (inv_keys_inj N Hinv).
  - intros m1 m2 [H1| ->]%Hnew [H2| ->]%Hnew Hs Hl.
    + by apply (inv_unique N Hinv).
    + cbn in Hs, Hl. pose proof (Hold m1 H1 Hs). lia.
    + cbn in Hs, Hl. pose proof (Hold m2 H2 (eq_sym Hs)). lia.
    + done.
  - intros j m Hel. unfold N', net_handle in Hel. cbn [delivery_log] in Hel.
    rewrite app_nil_r in Hel.
    apply data_on_wire_handle. left. by apply (inv_log N Hinv j).
  - intros j mid. unfold N' at 1, net_handle. cbn [delivery_log].
    rewrite app_nil_r. unfold N'. rewrite procs_handle.
    case_decide as Hj.
    + subst j. pose proof (inv_once N Hinv i mid) as H. rewrite Hp in H.
      by rewrite Hstep.
    + apply (inv_once N Hinv).
Qed.

Lemma net_inv_retransmit (N : Network) (i : Z) (p : Process) :
  net_inv N → procs N !! i = Some p → net_inv (net_handle N i p EvRetransmit).
Proof.
  intros Hinv Hp.
  destruct (inv_procs N Hinv i p Hp) as (Hid & Hi & Hclk).
  set (N' := net_handle N i p EvRetransmit).
  assert (Hprocs : ∀ j, procs N' !! j = procs N !! j).
  { intros j. unfold N'. rewrite procs_handle. case_decide as Hj; [|done].
    subst j. by rewrite Hp. }
  assert (Hnew : ∀ m, data_on_wire N' m →
            data_on_wire N m
            ∨ ∃ t c, 0 ≤ t ≤ lamport_clock p
                ∧ is_Some (pending_acks p !! format_message_id i t c)
                ∧ m = mkMessage "DATA" (format_message_id i t c) c i t).
  { intros m [Hm|(_ & port & Hel)]%data_on_wire_handle; [by left|right].
    apply retransmit_sends in Hel; [by rewrite Hid in Hel|by rewrite Hid|].
    intros k Hk. rewrite Hid. by apply (inv_keys N Hinv i p k). }
  constructor.
  - intros j q. rewrite Hprocs. apply (inv_procs N Hinv).
  - intros m [Hm|(t & c & Ht & Hk & ->)]%Hnew.
    + destruct (inv_data N Hinv m Hm) as (q & Hq & Hr).
      exists q. by rewrite Hprocs.
    + exists p. rewrite Hprocs. cbn. done.
  - intros j q k. rewrite Hprocs. apply (inv_keys N Hinv).
  - intros j q t c m. rewrite Hprocs.
    intros Hq Ht Hk [Hm|(t' & c' & Ht' & Hk' & ->)]%Hnew Hs Hl.
    + by apply (inv_keys_content N Hinv j q t c m).
    + cbn in Hs, Hl |- *. subst j t'. rewrite Hp in Hq. injection Hq as <-.
      by apply (inv_keys_inj N Hinv i p t c' c).
  - intros j q t c1 c2. rewrite Hprocs. apply (inv_keys_inj N Hinv).
  - intros m1 m2 [H1|(t1 & c1 & Ht1 & Hk1 & ->)]%Hnew
                 [H2|(t2 & c2 & Ht2 & Hk2 & ->)]%Hnew Hs Hl.
    + by apply (inv_unique N Hinv).
    + cbn in Hs, Hl |- *.
      apply (inv_keys_content N Hinv i p t2 c2 m1); (done || lia).
    + cbn in Hs, Hl |- *. symmetry.
      apply (inv_keys_content N Hinv i p t1 c1 m2); (done || lia).
    + cbn in Hs, Hl |- *. subst t2.
      apply (inv_keys_inj N Hinv i p t1 c1 c2); (done || lia).
  - intros j m Hel. unfold N', net_handle in Hel. cbn [delivery_log] in Hel.
    rewrite app_nil_r in Hel.
    apply data_on_wire_handle. left. by apply (inv_log N Hinv j).
  - intros j mid. rewrite Hprocs. unfold N', net_handle. cbn [delivery_log].
    rewrite app_nil_r. apply (inv_once N Hinv).
Qed.

Lemma net_inv_receive (N : Network) (i : Z) (p : Process) (m : Message) :
  net_inv N → procs N !! i = Some p → (BASE_PORT + i, m) ∈ wire N →
  net_inv (net_handle N i p (EvReceive m)).
Proof.
  intros Hinv Hp Hwire.
  destruct (inv_procs N Hinv i p Hp) as (Hid & Hi & Hclk).
  set (N' := net_handle N i p (EvReceive m)).
  pose proof (step_receive_cases p m) as Hcases. cbn zeta in Hcases.
  destruct Hcases as (Hid' & _ & Hmono & Hdel & Hpend).
  assert (Hdata : ∀ m', data_on_wire N' m' ↔ data_on_wire N m').
  { intros m'. unfold N'. rewrite data_on_wire_handle. split; [|by left].
    intros [Hm|(Hd & port & Hel)]; [done|]. cbn [handler] in Hel.
    apply listen_step_sends_ack in Hel. rewrite Hd in Hel. discriminate. }
  assert (Hkeys : ∀ k, is_Some (pending_acks (step p (EvReceive m)) !! k) →
            is_Some (pending_acks p !! k)).
  { intros k. destruct Hpend as [-> | ->]; [done|apply ack_table_dom]. }
  constructor.
  - intros j q. unfold N'. rewrite procs_handle. case_decide as Hj.
    + intros [= <-]. subst j. split_and!; [by rewrite Hid'|done|lia].
    + apply (inv_procs N Hinv).
  - intros m' Hm%Hdata.
    destruct (inv_data N Hinv m' Hm) as (q & Hq & Hr & Hfmt).
    unfold N'. rewrite procs_handle. case_decide as Hj.
    + exists (step p (EvReceive m)). rewrite <- Hj, Hp in Hq.
      injection Hq as <-. split_and!; [done|lia|lia|done].
    + by exists q.
  - intros j q k. unfold N'. rewrite procs_handle. case_decide as Hj.
    + intros [= <-]. subst j. intros Hk%Hkeys.
      destruct (inv_keys N Hinv i p k Hp Hk) as (t & c & Ht & ->).
      exists t, c. split; [lia|done].
    + apply (inv_keys N Hinv).
  - intros j q t c m'. unfold N'. rewrite procs_handle. case_decide as Hj.
    + intros [= <-]. subst j. intros Ht Hk%Hkeys Hm%Hdata.
      by apply (inv_keys_content N Hinv i p t c m').
    + intros Hq Ht Hk Hm%Hdata. by apply (inv_keys_content N Hinv j q t c m').
  - intros j q t c1 c2. unfold N'. rewrite procs_handle. case_decide as Hj.
    + intros [= <-]. subst j. intros Ht H1%Hkeys H2%Hkeys.
      by apply (inv_keys_inj N Hinv i p t c1 c2).
    + apply (inv_keys_inj N Hinv).
  - intros m1 m2 H1%Hdata H2%Hdata. by apply (inv_unique N Hinv).
  - intros j m' Hel. apply Hdata. unfold N', net_handle in Hel.
    cbn [delivery_log] in Hel. apply elem_of_app in Hel as [Hel|Hel].
    + by apply (inv_log N Hinv j).
    + cbn [handler] in Hel. rewrite listen_step_deliver_calls in Hel.
      case_decide as Hc; [|by apply elem_of_nil in Hel].
      apply list_elem_of_singleton in Hel as [= -> ->].
      split; [tauto|by exists (BASE_PORT + i)].
  - intros j mid. unfold N' at 1, net_handle. cbn [delivery_log handler].
    rewrite filter_app, length_app, listen_step_deliver_calls.
    pose proof (inv_once N Hinv j mid) as Hold.
    unfold N'. rewrite procs_handle. destruct (decide (i = j)) as [Hj|Hj].
    + subst j. rewrite Hp in Hold. rewrite listen_step_delivered.
      destruct (decide (msg_type m = "DATA")) as [Hd|Hd].
      * destruct (decide (message_id m ∈ delivered_messages p)) as [Hin|Hin].
        -- rewrite decide_False by tauto. cbn [replicate].
           rewrite filter_nil.
           replace ({[message_id m]} ∪ delivered_messages p)
             with (delivered_messages p) by set_solver.
           cbn [length]. lia.
        -- rewrite decide_True by done. cbn [replicate].
           destruct (decide (message_id m = mid)) as [Heq|Hne].
           ++ rewrite filter_cons_True by done. rewrite filter_nil.
              rewrite decide_False in Hold by (by rewrite <- Heq).
              rewrite decide_True by set_solver. cbn [length]. lia.
           ++ rewrite filter_cons_False by (intros [_ ?]; done).
              rewrite filter_nil. cbn [length].
              destruct (decide (mid ∈ delivered_messages p)) as [Hm|Hm].
              ** rewrite decide_True by set_solver. lia.
              ** rewrite decide_False by set_solver. lia.
      * rewrite decide_False by tauto. cbn [replicate]. rewrite filter_nil.
        cbn [length]. lia.
    + assert (filter (log_by_id j mid)
                (replicate
                   (if decide (msg_type m = "DATA"
                               ∧ message_id m ∉ delivered_messages p)
                    then 1%nat else 0%nat) (i, m)) = []) as ->.
      { case_decide; [|done]. cbn [replicate].
        by rewrite filter_cons_False by (intros [? _]; done). }
      cbn [length]. lia.
Qed.

Lemma net_inv_step (N N' : Network) : net_inv N → net_step N N' → net_inv N'.
Proof.
  intros Hinv [i p ev Hp Hrecv]. destruct ev as [c|m|].
  - by apply net_inv_multicast.
  - apply net_inv_receive; [done|done|]. by apply Hrecv.
  - by apply net_inv_retransmit.
Qed.

Lemma net_inv_reachable (total : Z) (N : Network) :
  net_reachable total N → net_inv N.
Proof.
  unfold net_reachable. revert N.
  apply (rtc_ind_r (λ N, net_inv N) (net_init total)).
  - apply net_inv_init.
  - intros N N' _ Hstep Hinv. by eapply net_inv_step.
Qed.


End NetworkInvariant.

Section AtMostOnce.



End AtMostOnce.

(** ** The clock along a run *)

Section Clocks.

Lemma ack_send_timestamps_above (p : Ack.Process) (evs : list Ack.Event) :
  Forall (λ t, Ack.lamport_clock p < t) (ack_send_timestamps p evs).
Proof.
  revert p. induction evs as [|ev evs IH]; intros p; [constructor|].
  cbn [ack_send_timestamps]. apply Forall_app. split.
  - destruct ev; try constructor; [|constructor].
    unfold Ack.value. rewrite increment_eq. cbn. lia.
  - eapply Forall_impl; [apply IH|]. intros t Ht.
    pose proof (step_clock_mono p ev). cbn beta in Ht. lia.
Qed.


Lemma gossip_step_clock_mono (p : Gossip.Processo) (ev : Gossip.Event) :
  Gossip.lamport_clock p ≤ Gossip.lamport_clock (Gossip.step p ev).1.
Proof.
  destruct ev as [c|[|m]]; cbn [Gossip.step].
  - cbn. lia.
  - destruct (Gossip.running p); cbn; lia.
  - destruct (Gossip.running p); cbn [Gossip.run_step fst]; [|lia].
    destruct (decide ((Gossip.original_sender m, Gossip.timestamp m)
                      ∈ Gossip.delivered_messages p)).
    + rewrite handle_receive_dup by done. cbn. lia.
    + rewrite handle_receive_fresh by done. cbn. lia.
Qed.

Lemma gossip_send_timestamps_above (p : Gossip.Processo)
    (evs : list Gossip.Event) :
  Forall (λ t, Gossip.lamport_clock p < t) (gossip_send_timestamps p evs).
Proof.
  revert p. induction evs as [|ev evs IH]; intros p; [constructor|].
  cbn [gossip_send_timestamps]. apply Forall_app. split.
  - destruct ev; try constructor; [|constructor]. cbn. lia.
  - eapply Forall_impl; [apply IH|]. intros t Ht.
    pose proof (gossip_step_clock_mono p ev). cbn beta in Ht. lia.
Qed.





End Clocks.

(** ** The buffer of delivered messages *)

Section AckBuffer.
Import Ack.

Lemma step_buffer_cases (p : Process) (ev : Event) :
  buffer_messages (step p ev) = buffer_messages p
  ∨ (∃ m, (ev = EvReceive m) ∧ (msg_type m = "DATA")
       ∧ (message_id m ∉ delivered_messages p)
       ∧ buffer_messages (step p ev)
         = <[message_id m :=
               mkBufferEntry (content m) (sender_id m) (lamport m)]>
             (buffer_messages p)).
Proof.
  destruct ev as [c|m|]; [left; by rewrite step_multicast| |by left].
  unfold step, exec. cbn [handler].
  destruct (decide (msg_type m = "DATA")) as [Hd|Hd].
  - rewrite listen_step_data by done.
    destruct (decide (message_id m ∈ delivered_messages p)) as [Hin|Hin].
    + left. by rewrite on_message_received_dup.
    + right. exists m. by rewrite on_message_received_fresh.
  - left. destruct (decide (msg_type m = "ACK")) as [Ha|Ha].
    + by rewrite listen_step_ack, on_ack_received_eq.
    + by rewrite listen_step_other.
Qed.

Lemma step_buffer_dom (p : Process) (ev : Event) :
  dom (buffer_messages p) ⊆ dom (buffer_messages (step p ev)).
Proof.
  destruct (step_buffer_cases p ev) as [->|(m & _ & _ & _ & ->)]; [done|].
  rewrite dom_insert_L. set_solver.
Qed.

Lemma run_buffer_dom (p : Process) (evs : list Event) :
  dom (buffer_messages p) ⊆ dom (buffer_messages (run p evs)).
Proof.
  revert p. induction evs as [|ev evs IH]; intros p; [done|].
  rewrite run_cons. etrans; [apply step_buffer_dom|apply IH].
Qed.

Lemma buffer_matches_step (p : Process) (ev : Event) :
  buffer_matches p → buffer_matches (step p ev).
Proof.
  unfold buffer_matches. intros Hinv.
  destruct (step_buffer_cases p ev) as [Hb|(m & -> & Hd & Hfresh & Hb)];
    rewrite Hb.
  - destruct ev as [c|m|]; [by rewrite step_multicast| |done].
    rewrite listen_step_delivered.
    destruct (decide (msg_type m = "DATA")) as [Hd|Hd]; [|done].
    destruct (decide (message_id m ∈ delivered_messages p)) as [Hin|Hin].
    + rewrite Hinv. set_solver.
    + exfalso. revert Hb. unfold step, exec. cbn [handler].
      rewrite listen_step_data, on_message_received_fresh by done. cbn.
      intros Hb. apply Hin. rewrite <- Hinv, <- Hb, dom_insert_L. set_solver.
  - rewrite listen_step_delivered, decide_True by done.
    by rewrite dom_insert_L, Hinv.
Qed.

Lemma buffer_matches_run (p : Process) (evs : list Event) :
  buffer_matches p → buffer_matches (run p evs).
Proof.
  revert p. induction evs as [|ev evs IH]; intros p Hinv; [done|].
  rewrite run_cons. by apply IH, buffer_matches_step.
Qed.

Lemma buffer_mono_run (p : Process) (evs : list Event) :
  buffer_matches p → buffer_messages p ⊆ buffer_messages (run p evs).
Proof.
  revert p. induction evs as [|ev evs IH]; intros p Hinv; [done|].
  rewrite run_cons. etrans; [|apply IH; by apply buffer_matches_step].
  destruct (step_buffer_cases p ev) as [->|(m & _ & _ & Hfresh & ->)]; [done|].
  apply insert_subseteq. apply not_elem_of_dom. by rewrite Hinv.
Qed.

Lemma retransmit_keys_ignores_buffer (p : Process)
    (b : gmap string BufferEntry) (keys : list string) :
  retransmit_keys (set_buffer_messages b p) keys = retransmit_keys p keys.
Proof.
  induction keys as [|k keys IH]; [done|]. cbn [retransmit_keys].
  change (retransmit_one (set_buffer_messages b p) k)
    with (retransmit_one p k).
  by rewrite IH.
Qed.

(** No handler reads the buffer: with another buffer in its place, a
    handler does the same actions and leaves the same state apart from the
    buffer. *)
Lemma handler_ignores_buffer (p : Process) (b : gmap string BufferEntry)
    (ev : Event) :
  actions (handler ev) (set_buffer_messages b p) = actions (handler ev) p
  ∧ set_buffer_messages ∅ (step (set_buffer_messages b p) ev)
    = set_buffer_messages ∅ (step p ev).
Proof.
  unfold step, exec, actions. destruct ev as [c|m|]; cbn [handler].
  - rewrite !r_multicast_eq. by cbn.
  - destruct (decide (msg_type m = "DATA")) as [Hd|Hd].
    + rewrite !listen_step_data by done.
      destruct (decide (message_id m ∈ delivered_messages p)) as [Hin|Hin].
      * rewrite !on_message_received_dup by done. by cbn.
      * rewrite !on_message_received_fresh by done. by cbn.
    + destruct (decide (msg_type m = "ACK")) as [Ha|Ha].
      * rewrite !listen_step_ack, !on_ack_received_eq by done. by cbn.
      * rewrite !listen_step_other by done. by cbn.
  - unfold _retransmit_messages, retransmit_pass. cbn.
    by rewrite retransmit_keys_ignores_buffer.
Qed.

(** C10. Handling a DATA message whose id is not yet delivered inserts one
    entry under that id into [buffer_messages]; no event of a run removes a
    key, so the set of keys only grows; from [__init__] on the keys are
    exactly the delivered ids, a first delivery adds a key that was not
    there, and no entry is ever changed; and no handler reads the buffer:
    its content has no effect on the actions or on the rest of the
    state. *)
Theorem C10_buffer_grows :
  (∀ (p : Process) (m : Message),
     msg_type m = "DATA" → message_id m ∉ delivered_messages p →
     buffer_messages (step p (EvReceive m))
     = <[message_id m := mkBufferEntry (content m) (sender_id m) (lamport m)]>
         (buffer_messages p))
  ∧ (∀ (p : Process) (evs : list Event),
       dom (buffer_messages p) ⊆ dom (buffer_messages (run p evs)))
  ∧ (∀ (pid total : Z) (evs0 evs : list Event),
       let p := run (init pid total) evs0 in
       dom (buffer_messages p) = delivered_messages p
       ∧ buffer_messages p ⊆ buffer_messages (run p evs)
       ∧ (size (buffer_messages p) ≤ size (buffer_messages (run p evs)))%nat
       ∧ ∀ m, msg_type m = "DATA" → message_id m ∉ delivered_messages p →
           size (buffer_messages (step p (EvReceive m)))
           = S (size (buffer_messages p)))
  ∧ (∀ (p : Process) (b : gmap string BufferEntry) (ev : Event),
       actions (handler ev) (set_buffer_messages b p) = actions (handler ev) p
       ∧ set_buffer_messages ∅ (step (set_buffer_messages b p) ev)
         = set_buffer_messages ∅ (step p ev)).
Proof.
  assert (Hins : ∀ (p : Process) (m : Message),
     msg_type m = "DATA" → message_id m ∉ delivered_messages p →
     buffer_messages (step p (EvReceive m))
     = <[message_id m := mkBufferEntry (content m) (sender_id m) (lamport m)]>
         (buffer_messages p)).
  { intros p m Hd Hfresh. unfold step, exec. cbn [handler].
    by rewrite listen_step_data, on_message_received_fresh. }
  split_and!; [done|apply run_buffer_dom| |apply handler_ignores_buffer].
  intros pid total evs0 evs p.
  assert (Hinv : buffer_matches p).
  { apply buffer_matches_run. unfold buffer_matches. cbn. set_solver. }
  split_and!.
  - done.
  - by apply buffer_mono_run.
  - apply map_subseteq_size. by apply buffer_mono_run.
  - intros m Hd Hfresh. rewrite Hins by done.
    apply map_size_insert_None, not_elem_of_dom. by rewrite Hinv.
Qed.

Lemma C10_buffer_grows_witness :
  let m := mkMessage "DATA" "0-1-hello" "hello" 0 1 in
  buffer_messages (step (init 1 3) (EvReceive m))
  = <[ "0-1-hello" := mkBufferEntry "hello" 0 1 ]> ∅.
Proof.
  intros m.
  assert (Hd : msg_type m = "DATA") by reflexivity.
  assert (Hfresh : message_id m ∉ delivered_messages (init 1 3))
    by (cbn; set_solver).
  exact (proj1 C10_buffer_grows (init 1 3) m Hd Hfresh).
Defined.

End AckBuffer.

(** ** The identity of a message *)

Section MessageIdentity.

(** C2, as the code has it.  The id that [r_multicast] gives a message is
    the string ["<sender>-<timestamp>-<content>"]: it is a function of the
    three, and for non-negative numbers two ids are equal only if sender,
    timestamp and content all are.  [_on_message_received] decides on the
    id string alone whether to deliver, whatever sender, timestamp and
    content the message carries beside it, and [_on_ack_received] looks the
    id string up in [pending_acks].  In the flooding process the identity
    is the pair of original sender and timestamp, and the content plays no
    part in the decision. *)
Theorem C2_message_identity :
  (∀ (p : Ack.Process) (c : string) (port : Z) (m : Ack.Message),
     Ack.SendTo port m ∈ Ack.actions (Ack.r_multicast c) p →
     Ack.message_id m
     = py_str_int (Ack.sender_id m) +:+ "-" +:+ py_str_int (Ack.lamport m)
         +:+ "-" +:+ Ack.content m
     ∧ Ack.content m = c
     ∧ is_Some (Ack.pending_acks (Ack.exec (Ack.r_multicast c) p)
                  !! Ack.message_id m))
  ∧ (∀ (s t s' t' : Z) (c c' : string),
       0 ≤ s → 0 ≤ t → 0 ≤ s' → 0 ≤ t' →
       Ack.format_message_id s t c = Ack.format_message_id s' t' c'
       ↔ s = s' ∧ t = t' ∧ c = c')
  ∧ (∀ (p : Ack.Process) (m : Ack.Message),
       Ack.msg_type m = "DATA" →
       r_deliver_calls (Ack.actions (Ack.listen_step m) p)
       = (if decide (Ack.message_id m ∈ Ack.delivered_messages p)
          then 0%nat else 1%nat)
       ∧ Ack.delivered_messages (Ack.step p (Ack.EvReceive m))
         = {[Ack.message_id m]} ∪ Ack.delivered_messages p)
  ∧ (∀ (p : Ack.Process) (m : Ack.Message),
       Ack.msg_type m = "ACK" →
       Ack.pending_acks (Ack.step p (Ack.EvReceive m))
       = ack_table (Ack.message_id m) (Ack.sender_id m) (Ack.pending_acks p))
  ∧ (∀ (p : Gossip.Processo) (m : Gossip.Message),
       entregues (Gossip.handle_receive p m).2
       = (if decide ((Gossip.original_sender m, Gossip.timestamp m)
                     ∈ Gossip.delivered_messages p)
          then [] else [m])
       ∧ Gossip.delivered_messages (Gossip.handle_receive p m).1
         = {[(Gossip.original_sender m, Gossip.timestamp m)]}
           ∪ Gossip.delivered_messages p).
Proof.
  split_and!.
  - intros p c port m. unfold Ack.actions, Ack.exec.
    rewrite r_multicast_eq. cbn.
    intros (i & [= -> ->] & _)%list_elem_of_fmap. cbn.
    split_and!; [done|done|]. rewrite lookup_insert_eq. eauto.
  - intros s t s' t' c c' Hs Ht Hs' Ht'. split.
    + by apply format_message_id_inj.
    + by intros (-> & -> & ->).
  - intros p m Hd. rewrite listen_step_deliver_calls, listen_step_delivered.
    rewrite (decide_True (P := Ack.msg_type m = "DATA")) by done.
    split; [|done].
    destruct (decide (Ack.message_id m ∈ Ack.delivered_messages p)).
    + by rewrite decide_False by tauto.
    + by rewrite decide_True.
  - intros p m Ha. unfold Ack.step, Ack.exec. cbn [Ack.handler].
    by rewrite listen_step_ack, on_ack_received_eq.
  - intros p m.
    destruct (decide ((Gossip.original_sender m, Gossip.timestamp m)
                      ∈ Gossip.delivered_messages p)) as [Hin|Hin].
    + rewrite handle_receive_dup by done. cbn. split; [done|set_solver].
    + rewrite handle_receive_fresh by done. cbn [fst snd].
      split; [|done].
      change (entregues (Gossip.Entregue m :: ?l)) with (m :: entregues l).
      by rewrite entregues_puts.
Qed.

Lemma C2_message_identity_witness :
  Ack.format_message_id 0 1 "a" = Ack.format_message_id 0 1 "b"
  ↔ 0 = 0 ∧ 1 = 1 ∧ "a" = "b".
Proof.
  assert (H0 : 0 ≤ 0) by lia. assert (H1 : 0 ≤ 1) by lia.
  exact (proj1 (proj2 C2_message_identity) 0 1 0 1 "a" "b" H0 H1 H0 H1).
Defined.

(** C2 as the specification states it fails on the acknowledgement-based
    process: the id is not ["<sender>-<timestamp>"], ids of one origin
    differ with the content, and membership in [delivered_messages]
    follows the content part of the id. *)
Lemma C2_counterexample :
  let data := Ack.mkMessage "DATA" "0-1-hello" "hello" 0 1 in
  let a := Ack.mkMessage "DATA" "0-1-a" "a" 0 1 in
  let b := Ack.mkMessage "DATA" "0-1-b" "b" 0 1 in
  Ack.SendTo 12000 data ∈ Ack.actions (Ack.r_multicast "hello") (Ack.init 0 3)
  ∧ Ack.message_id data ≠ py_str_int 0 +:+ "-" +:+ py_str_int 1
  ∧ Ack.format_message_id 0 1 "a" ≠ Ack.format_message_id 0 1 "b"
  ∧ ¬ (∀ (p : Ack.Process) (c : string) (port : Z) (m : Ack.Message),
         Ack.SendTo port m ∈ Ack.actions (Ack.r_multicast c) p →
         Ack.message_id m
         = py_str_int (Ack.sender_id m) +:+ "-" +:+ py_str_int (Ack.lamport m))
  ∧ ¬ (∀ (p : Ack.Process) (m1 m2 : Ack.Message),
         Ack.msg_type m1 = "DATA" → Ack.msg_type m2 = "DATA" →
         same_origin (Ack.sender_id m1) (Ack.lamport m1) m2 →
         r_deliver_calls
           (Ack.actions (Ack.listen_step m2)
              (Ack.step p (Ack.EvReceive m1))) = 0%nat).
Proof.
  intros data a b.
  assert (Hsent : Ack.SendTo 12000 data
                  ∈ Ack.actions (Ack.r_multicast "hello") (Ack.init 0 3))
    by (vm_compute; left).
  split_and!; [done|by vm_compute|by vm_compute| |].
  - intros Hspec. specialize (Hspec _ _ _ _ Hsent). by vm_compute in Hspec.
  - intros Hspec.
    assert (Hd : Ack.msg_type a = "DATA") by reflexivity.
    assert (Hd' : Ack.msg_type b = "DATA") by reflexivity.
    assert (Ho : same_origin (Ack.sender_id a) (Ack.lamport a) b)
      by (by split).
    specialize (Hspec (Ack.init 1 3) a b Hd Hd' Ho).
    by vm_compute in Hspec.
Qed.

End MessageIdentity.

(** * Further properties of the two programs *)

(** ** Message ids taken apart again *)

Section ParseMessageId.
Import Ack.

(** [retransmit_one] is the parse followed by the sends. *)
Lemma retransmit_one_parse (p : Process) (k : string) :
  retransmit_one p k
  = let pending := default ∅ (pending_acks p !! k) in
    if decide (pending = ∅) then Some []
    else
      '(sid, lam, c) ← parse_message_id k ;
      Some (if decide (sid = process_id p) then
              (λ target_id,
                 SendTo (BASE_PORT + target_id) (mkMessage "DATA" k c sid lam))
                <$> elements pending
            else []).
Proof.
  unfold retransmit_one, parse_message_id. cbn zeta.
  destruct (decide _); [done|].
  destruct (py_split "-" k 2) as [|s1 [|s2 [|s3 [|]]]]; try done.
  destruct (py_int s1) as [sid|]; [|done].
  destruct (py_int s2) as [lam|]; [|done]. cbn.
  by destruct (decide (sid = process_id p)).
Qed.

Lemma py_split_length (sep : ascii) (s : string) (n : nat) :
  (1 ≤ length (py_split sep s n) ≤ S n)%nat.
Proof.
  revert n. induction s as [|c s IH]; intros n; [cbn; lia|].
  destruct n as [|n]; [cbn; lia|]. cbn [py_split].
  destruct (decide (c = sep)).
  - specialize (IH n). cbn [length]. lia.
  - specialize (IH (S n)).
    destruct (py_split sep s (S n)) as [|hd tl]; cbn in *; lia.
Qed.

Lemma py_str_int_negative (z : Z) :
  z < 0 → ∃ d, py_str_int z = String "-" d.
Proof.
  intros Hz. destruct z as [|q|q]; [lia|lia|].
  unfold py_str_int, pretty, pretty_Z. eauto.
Qed.

Lemma parse_message_id_dash (rest : string) :
  parse_message_id (String "-" rest) = None.
Proof.
  unfold parse_message_id.
  change (py_split "-" (String "-" rest) 2) with ("" :: py_split "-" rest 1).
  pose proof (py_split_length "-" rest 1) as Hlen.
  destruct (py_split "-" rest 1) as [|s2 [|s3 [|]]]; cbn in Hlen; try lia; done.
Qed.

(** X1. The id that [r_multicast] formats from a non-negative sender id, a
    non-negative timestamp and any content, dashes in the content
    included, is taken apart by [_retransmit_messages] into the same
    sender id, timestamp and content. *)
Theorem X1_message_id_round_trip (s t : Z) (c : string) :
  0 ≤ s → 0 ≤ t →
  parse_message_id (format_message_id s t c) = Some (s, t, c).
Proof.
  intros Hs Ht. unfold parse_message_id.
  rewrite py_split_format_message_id by done.
  by rewrite !py_int_py_str_int by done.
Qed.

Lemma X1_message_id_round_trip_witness :
  parse_message_id (format_message_id 12 340 "a-b--c") = Some (12, 340, "a-b--c").
Proof.
  assert (H1 : 0 ≤ 12) by lia. assert (H2 : 0 ≤ 340) by lia.
  exact (X1_message_id_round_trip 12 340 "a-b--c" H1 H2).
Defined.

(** X2. For a process whose id is negative the id it formats starts with
    a minus sign and cannot be taken apart: the first field is empty and
    [int] raises [ValueError].  Such a process never retransmits: a pass
    sends nothing, and it raises as soon as one entry of [pending_acks]
    is not empty, whatever happened before. *)
Theorem X2_negative_id_breaks_retransmission (pid total : Z)
    (evs : list Event) :
  pid < 0 →
  let p := run (init pid total) evs in
  (∀ t c, parse_message_id (format_message_id pid t c) = None)
  ∧ (retransmit_pass p).1 = []
  ∧ ((∃ k pending, pending_acks p !! k = Some pending ∧ pending ≠ ∅) →
     (retransmit_pass p).2 = true).
Proof.
  intros Hpid p.
  assert (Hparse : ∀ t c, parse_message_id (format_message_id pid t c) = None).
  { intros t c. destruct (py_str_int_negative pid Hpid) as (d & Hd).
    unfold format_message_id. rewrite Hd, string_app_cons.
    apply parse_message_id_dash. }
  assert (Hkeys : ∀ k, is_Some (pending_acks p !! k) →
            ∃ t c, k = format_message_id pid t c).
  { unfold p. clear. induction evs as [|ev evs IH] using rev_ind.
    - intros k [x Hx]. cbn in Hx. by rewrite lookup_empty in Hx.
    - rewrite run_app. cbn [run foldl]. fold (run (init pid total) evs).
      set (q := run (init pid total) evs) in *.
      assert (Hq : process_id q = pid)
        by (unfold q; by destruct (run_process_id (init pid total) evs)).
      intros k Hk. destruct ev as [c|m|].
      + rewrite step_multicast in Hk. cbn in Hk.
        destruct (decide
          (k = format_message_id (process_id q) (lamport_clock q + 1) c))
          as [->|Hne].
        * rewrite Hq. eauto.
        * rewrite lookup_insert_ne in Hk by done. by apply IH.
      + pose proof (step_receive_cases q m) as H. cbn zeta in H.
        destruct H as (_ & _ & _ & _ & [Hp|Hp]); rewrite Hp in Hk.
        * by apply IH.
        * apply ack_table_dom in Hk. by apply IH.
      + rewrite step_retransmit in Hk. by apply IH. }
  assert (Hone : ∀ k, is_Some (pending_acks p !! k) →
            retransmit_one p k
            = if decide (default ∅ (pending_acks p !! k) = ∅) then Some []
              else None).
  { intros k Hk. destruct (Hkeys k Hk) as (t & c & ->).
    rewrite retransmit_one_parse. cbn zeta. rewrite Hparse.
    by destruct (decide _). }
  assert (Hgen : ∀ keys, (∀ k, k ∈ keys → is_Some (pending_acks p !! k)) →
            (retransmit_keys p keys).1 = []
            ∧ ((∃ k, k ∈ keys ∧ default ∅ (pending_acks p !! k) ≠ ∅) →
               (retransmit_keys p keys).2 = true)).
  { induction keys as [|k keys IH]; intros Hall.
    - split; [done|]. intros (k & Hk & _). by apply elem_of_nil in Hk.
    - cbn [retransmit_keys]. rewrite Hone by (apply Hall; left).
      destruct (decide (default ∅ (pending_acks p !! k) = ∅)) as [He|He].
      + destruct IH as [IH1 IH2]; [intros k' Hk'; apply Hall; by right|].
        destruct (retransmit_keys p keys) as [rest raised]. cbn in *.
        split; [done|]. intros (k' & [->|Hk']%elem_of_cons & Hne); [done|].
        apply IH2. eauto.
      + by split. }
  split_and!; [done| |].
  - apply Hgen. intros k Hk. by apply elem_of_keys.
  - intros (k & pending & Hl & Hne).
    apply Hgen; [intros k' Hk'; by apply elem_of_keys|].
    exists k. split; [apply elem_of_keys; eauto|]. by rewrite Hl.
Qed.

Lemma X2_negative_id_breaks_retransmission_witness :
  retransmit_pass (run (init (-1) 3) [EvMulticast "x-y"]) = ([], true).
Proof.
  assert (Hpid : -1 < 0) by lia.
  pose proof (X2_negative_id_breaks_retransmission (-1) 3
                [EvMulticast "x-y"] Hpid) as H.
  cbn zeta in H. destruct H as (_ & H1 & H2).
  destruct (retransmit_pass (run (init (-1) 3) [EvMulticast "x-y"]))
    as [sent raised]. cbn in H1, H2. subst sent. f_equal. apply H2.
  exists "-1-1-x-y", (list_to_set (py_range 3)).
  split; [by vm_compute|]. by vm_compute.
Defined.

End ParseMessageId.

(** ** The table of pending acknowledgements along a run *)

Section PendingSets.
Import Ack.

Lemma ack_table_lookup_Some (mid k : string) (a : Z)
    (tbl : gmap string (gset Z)) (pending' : gset Z) :
  ack_table mid a tbl !! k = Some pending' →
  ∃ pending, tbl !! k = Some pending ∧ pending' ⊆ pending
             ∧ (pending ≠ ∅ → pending' ≠ ∅).
Proof.
  destruct (decide (k = mid)) as [->|Hne].
  - rewrite ack_table_lookup_eq.
    destruct (tbl !! mid) as [pending|]; [|done]. cbn.
    destruct (decide (a ∈ pending)).
    + destruct (decide (pending ∖ {[a]} = ∅)); [done|].
      intros [= <-]. exists pending. split_and!; [done|set_solver|done].
    + intros [= <-]. by exists pending.
  - rewrite ack_table_lookup_ne by done. intros Hl. by exists pending'.
Qed.

Lemma pending_acks_getitem_cases (k : string) (p : Process) :
  let pending := (pending_acks_getitem k p).1 in
  let p' := (pending_acks_getitem k p).2 in
  process_id p' = process_id p ∧ total_processes p' = total_processes p
  ∧ lamport_clock p' = lamport_clock p
  ∧ delivered_messages p' = delivered_messages p
  ∧ buffer_messages p' = buffer_messages p
  ∧ ((pending_acks p !! k = Some pending ∧ p' = p)
     ∨ (pending_acks p !! k = None ∧ pending = ∅
        ∧ pending_acks p' = <[k := ∅]> (pending_acks p))).
Proof.
  unfold pending_acks_getitem.
  destruct (pending_acks p !! k) as [pending|] eqn:Hl; cbn.
  - split_and!; try done. by left.
  - split_and!; try done. by right.
Qed.

(** A step of the retransmission thread changes nothing of the process
    but, at most, one entry of [pending_acks]: a key that was missing is
    now there with the empty set. *)
Lemma retransmitter_step_cases (p : Process) (pc : Retransmitter) :
  let p' := (retransmitter_step p pc).1.1 in
  process_id p' = process_id p ∧ total_processes p' = total_processes p
  ∧ lamport_clock p' = lamport_clock p
  ∧ delivered_messages p' = delivered_messages p
  ∧ buffer_messages p' = buffer_messages p
  ∧ (pending_acks p' = pending_acks p
     ∨ ∃ k, pending_acks p !! k = None
            ∧ pending_acks p' = <[k := ∅]> (pending_acks p)).
Proof.
  assert (Hget : ∀ k,
    let p' := (pending_acks_getitem k p).2 in
    process_id p' = process_id p ∧ total_processes p' = total_processes p
    ∧ lamport_clock p' = lamport_clock p
    ∧ delivered_messages p' = delivered_messages p
    ∧ buffer_messages p' = buffer_messages p
    ∧ (pending_acks p' = pending_acks p
       ∨ ∃ k, pending_acks p !! k = None
              ∧ pending_acks p' = <[k := ∅]> (pending_acks p))).
  { intros k. pose proof (pending_acks_getitem_cases k p) as H. cbn zeta in H.
    destruct H as (? & ? & ? & ? & ? & [[_ ->]|(? & _ & ?)]).
    - split_and!; try done. by left.
    - split_and!; try done. right. eauto. }
  destruct pc as [|[|k keys]|k c s l keys|k c s l keys|]; cbn [retransmitter_step].
  - split_and!; try done. by left.
  - split_and!; try done. by left.
  - specialize (Hget k).
    destruct (pending_acks_getitem k p) as [pending p1]. cbn [snd] in Hget.
    destruct (decide (pending = ∅)); [exact Hget|].
    destruct (py_split "-" k 2) as [|a [|b [|c [|? ?]]]]; try exact Hget.
    destruct (py_int a); [|exact Hget].
    destruct (py_int b); [|exact Hget].
    by case_decide.
  - specialize (Hget k).
    by destruct (pending_acks_getitem k p) as [pending p1].
  - specialize (Hget k).
    by destruct (pending_acks_getitem k p) as [pending p1].
  - split_and!; try done. by left.
Qed.

(** What a step of the retransmission thread sends goes out under the id
    of an entry that it has just read, with the members of that entry as
    targets. *)
Lemma retransmitter_step_sends (p : Process) (pc : Retransmitter) (port : Z)
    (m : Message) :
  SendTo port m ∈ (retransmitter_step p pc).2 →
  ∃ pending j, pending_acks (retransmitter_step p pc).1.1 !! message_id m
               = Some pending
               ∧ (pending_acks p !! message_id m = Some pending
                  ∨ pending_acks p !! message_id m = None)
               ∧ j ∈ pending ∧ port = BASE_PORT + j.
Proof.
  destruct pc as [|[|k keys]|k c s l keys|k c s l keys|];
    cbn [retransmitter_step].
  - intros H. by apply elem_of_nil in H.
  - intros H. by apply elem_of_nil in H.
  - destruct (pending_acks_getitem k p) as [pending p1].
    destruct (decide (pending = ∅)); [intros H; by apply elem_of_nil in H|].
    destruct (py_split "-" k 2) as [|a [|b [|c [|? ?]]]];
      try (intros H; by apply elem_of_nil in H).
    destruct (py_int a); [|intros H; by apply elem_of_nil in H].
    destruct (py_int b); [|intros H; by apply elem_of_nil in H].
    case_decide; intros Hx; by apply elem_of_nil in Hx.
  - destruct (pending_acks_getitem k p) as [pending p1].
    intros H. by apply elem_of_nil in H.
  - pose proof (pending_acks_getitem_cases k p) as Hget. cbn zeta in Hget.
    destruct (pending_acks_getitem k p) as [pending p1]. cbn [fst snd] in *.
    intros (j & [= -> ->] & Hj%elem_of_elements)%list_elem_of_fmap.
    cbn [message_id].
    destruct Hget as (_ & _ & _ & _ & _ & [[Hl ->]|(Hl & -> & Hp1)]).
    + exists pending, j. split_and!; [done|by left|done|done].
    + by apply not_elem_of_empty in Hj.
  - intros H. by apply elem_of_nil in H.
Qed.

Lemma thread_step_process_id (st : Process * Retransmitter) (ts : ThreadStep) :
  process_id (thread_step st ts).1 = process_id st.1
  ∧ total_processes (thread_step st ts).1 = total_processes st.1.
Proof.
  destruct ts as [c|m|]; cbn [thread_step fst].
  - apply step_process_id.
  - apply step_process_id.
  - pose proof (retransmitter_step_cases st.1 st.2) as H. cbn zeta in H.
    by destruct H as (? & ? & _).
Qed.

Lemma pending_in_range_thread_step (st : Process * Retransmitter)
    (ts : ThreadStep) :
  pending_in_range st.1 → pending_in_range (thread_step st ts).1.
Proof.
  intros Hok k pending. destruct (thread_step_process_id st ts) as [_ Htot].
  rewrite Htot. destruct ts as [c|m|]; cbn [thread_step fst].
  - rewrite step_multicast. cbn.
    destruct (decide
      (k = format_message_id (process_id st.1) (lamport_clock st.1 + 1) c))
      as [->|Hne].
    + rewrite lookup_insert_eq. intros [= <-] j Hj.
      rewrite elem_of_list_to_set in Hj. by apply elem_of_py_range.
    + rewrite lookup_insert_ne by done. apply Hok.
  - pose proof (step_receive_cases st.1 m) as H. cbn zeta in H.
    destruct H as (_ & _ & _ & _ & [Hp|Hp]); rewrite Hp.
    + apply Hok.
    + intros (pending0 & Hl & Hsub & _)%ack_table_lookup_Some j Hj.
      apply (Hok k pending0 Hl). set_solver.
  - pose proof (retransmitter_step_cases st.1 st.2) as H. cbn zeta in H.
    destruct H as (_ & _ & _ & _ & _ & [->|(k' & Hnone & ->)]); [apply Hok|].
    destruct (decide (k = k')) as [->|Hne].
    + rewrite lookup_insert_eq. intros [= <-] j Hj.
      by apply not_elem_of_empty in Hj.
    + rewrite lookup_insert_ne by done. apply Hok.
Qed.

Lemma thread_run_process_id (st : Process * Retransmitter)
    (tss : list ThreadStep) :
  process_id (thread_run st tss).1 = process_id st.1
  ∧ total_processes (thread_run st tss).1 = total_processes st.1.
Proof.
  revert st. induction tss as [|ts tss IH]; intros st; [done|].
  change (thread_run st (ts :: tss)) with (thread_run (thread_step st ts) tss).
  destruct (IH (thread_step st ts)) as [-> ->].
  apply thread_step_process_id.
Qed.

Lemma pending_in_range_thread_run (st : Process * Retransmitter)
    (tss : list ThreadStep) :
  pending_in_range st.1 → pending_in_range (thread_run st tss).1.
Proof.
  revert st. induction tss as [|ts tss IH]; intros st Hok; [done|].
  change (thread_run st (ts :: tss)) with (thread_run (thread_step st ts) tss).
  by apply IH, pending_in_range_thread_step.
Qed.

(** X3. The sets of [pending_acks] when the three threads of a process
    interleave, the retransmission thread read by read.  In every state
    reached from [__init__]: each set holds only peer ids
    [0 .. total_processes-1]; receiving a message never adds a key, and a
    set only loses members; a step of the retransmission thread never
    changes or removes an entry, but its read of a key that the listener
    has deleted since the keys were copied puts the key back with the
    empty set.  Such an empty entry stays for ever under every receipt
    and every step of the retransmission thread, and nothing is ever sent
    for it.  With [total_processes] positive, [r_multicast] and the
    listener never leave an empty entry behind, so these reads are the
    only source of one; and they do occur: after a multicast in a system
    with one peer, a copy of the keys, the acknowledgement, and the next
    read, the table holds the id of the message with the empty set. *)
Theorem X3_pending_sets (pid total : Z) (tss : list ThreadStep) :
  let p := (thread_run (init pid total, Sleeping) tss).1 in
  (∀ k pending, pending_acks p !! k = Some pending →
     ∀ j, j ∈ pending → 0 ≤ j < total)
  ∧ (∀ m k pending', pending_acks (step p (EvReceive m)) !! k = Some pending' →
       ∃ pending, pending_acks p !! k = Some pending ∧ pending' ⊆ pending)
  ∧ (∀ pc,
       pending_acks (retransmitter_step p pc).1.1 = pending_acks p
       ∨ ∃ k, pending_acks p !! k = None
              ∧ pending_acks (retransmitter_step p pc).1.1
                = <[k := ∅]> (pending_acks p))
  ∧ (∀ k, pending_acks p !! k = Some ∅ →
       (∀ m, pending_acks (step p (EvReceive m)) !! k = Some ∅)
       ∧ (∀ pc, pending_acks (retransmitter_step p pc).1.1 !! k = Some ∅
                ∧ ∀ port m, SendTo port m ∈ (retransmitter_step p pc).2 →
                            message_id m ≠ k))
  ∧ (0 < total → no_empty_entry p →
       (∀ c, no_empty_entry (step p (EvMulticast c)))
       ∧ (∀ m, no_empty_entry (step p (EvReceive m))))
  ∧ (∀ pid' c,
       let mid := format_message_id pid' 1 c in
       pending_acks
         (thread_run (init pid' 1, Sleeping)
            [ThMulticast c; ThRetransmit;
             ThListen (mkMessage "ACK" mid "" 0 1); ThRetransmit]).1
       = {[mid := ∅]}).
Proof.
  intros p.
  assert (Hok : pending_in_range p).
  { apply pending_in_range_thread_run. intros k pending Hl. cbn in Hl.
    by rewrite lookup_empty in Hl. }
  assert (Htot : total_processes p = total).
  { unfold p.
    by destruct (thread_run_process_id (init pid total, Sleeping) tss)
      as [_ ->]. }
  split_and!.
  - intros k pending Hl j Hj. rewrite <- Htot. by apply (Hok k pending).
  - intros m k pending' Hl.
    pose proof (step_receive_cases p m) as H. cbn zeta in H.
    destruct H as (_ & _ & _ & _ & [Hp|Hp]); rewrite Hp in Hl.
    + by exists pending'.
    + apply ack_table_lookup_Some in Hl as (pending & ? & ? & _). eauto.
  - intros pc. pose proof (retransmitter_step_cases p pc) as H. cbn zeta in H.
    by destruct H as (_ & _ & _ & _ & _ & H).
  - intros k Hl. split.
    + intros m. pose proof (step_receive_cases p m) as H. cbn zeta in H.
      destruct H as (_ & _ & _ & _ & [Hp|Hp]); rewrite Hp; [done|].
      destruct (decide (k = message_id m)) as [->|Hne].
      * rewrite ack_table_lookup_eq, Hl. cbn.
        by rewrite decide_False by set_solver.
      * by rewrite ack_table_lookup_ne.
    + intros pc. split.
      * pose proof (retransmitter_step_cases p pc) as H. cbn zeta in H.
        destruct H as (_ & _ & _ & _ & _ & [->|(k' & Hnone & ->)]); [done|].
        rewrite lookup_insert_ne; [done|]. intros ->. congruence.
      * intros port m Hsend <-.
        apply retransmitter_step_sends in Hsend
          as (pending & j & _ & [Hl'|Hl'] & Hj & _).
        -- rewrite Hl in Hl'. injection Hl' as <-.
           by apply not_elem_of_empty in Hj.
        -- congruence.
  - intros Htotal Hne. split.
    + intros c k. rewrite step_multicast. cbn.
      destruct (decide
        (k = format_message_id (process_id p) (lamport_clock p + 1) c))
        as [->|Hk].
      * rewrite lookup_insert_eq. intros [= He].
        assert (0 ∈ (list_to_set (py_range (total_processes p)) : gset Z))
          as H0 by (rewrite elem_of_list_to_set; apply elem_of_py_range; lia).
        rewrite He in H0. by apply not_elem_of_empty in H0.
      * rewrite lookup_insert_ne by done. apply Hne.
    + intros m k Hl.
      pose proof (step_receive_cases p m) as H. cbn zeta in H.
      destruct H as (_ & _ & _ & _ & [Hp|Hp]); rewrite Hp in Hl;
        [by apply (Hne k)|].
      apply ack_table_lookup_Some in Hl as (pending & Hl & _ & Hkeep).
      destruct (decide (pending = ∅)) as [->|Hpe]; [by apply (Hne k)|].
      by apply Hkeep.
  - intros pid' c mid.
    assert (Hset : (list_to_set (py_range 1) : gset Z) = {[0]}).
    { apply set_eq. intros j.
      rewrite elem_of_list_to_set, elem_of_py_range, elem_of_singleton. lia. }
    set (ack := mkMessage "ACK" mid "" 0 1).
    set (p1 := mkProcess pid' 1 1 ∅ {[mid := {[0]}]} ∅).
    set (p2 := mkProcess pid' 1 2 ∅ ∅ ∅).
    assert (H1 : step (init pid' 1) (EvMulticast c) = p1).
    { rewrite step_multicast. cbn. fold mid. by rewrite Hset, insert_empty. }
    assert (H2 : retransmitter_step p1 Sleeping = (p1, AtTest [mid], [])).
    { cbn [retransmitter_step]. unfold p1 at 2. cbn [pending_acks].
      by rewrite map_to_list_singleton. }
    assert (H3 : step p1 (EvReceive ack) = p2).
    { unfold step, exec. cbn [handler].
      rewrite listen_step_ack, on_ack_received_eq by done. cbn.
      unfold p2. f_equal. unfold ack_table. rewrite lookup_singleton_eq.
      rewrite decide_True by set_solver.
      rewrite decide_True by set_solver. apply delete_singleton_eq. }
    assert (H4 : retransmitter_step p2 (AtTest [mid])
                 = (set_pending_acks {[mid := ∅]} p2, AtTest [], [])).
    { cbn [retransmitter_step]. unfold pending_acks_getitem.
      unfold p2 at 1. cbn [pending_acks]. rewrite lookup_empty.
      rewrite decide_True by done. unfold p2 at 1. cbn [pending_acks].
      by rewrite insert_empty. }
    unfold thread_run. cbn [foldl thread_step fst snd].
    rewrite H1, H2. cbn [fst snd]. by rewrite H3, H4.
Qed.

Lemma pending_acks_getitem_present (k : string) (p : Process)
    (pending : gset Z) :
  pending_acks p !! k = Some pending → pending_acks_getitem k p = (pending, p).
Proof. intros Hl. unfold pending_acks_getitem. by rewrite Hl. Qed.

(** From the head of the loop, with keys that are all in the table, the
    thread goes through the keys as [retransmit_keys] does. *)
Lemma retransmitter_go_keys (p : Process) (keys : list string) (fuel : nat) :
  (∀ k, k ∈ keys → is_Some (pending_acks p !! k)) →
  (3 * length keys + 1 ≤ fuel)%nat →
  retransmitter_go fuel p (AtTest keys)
  = (p, if (retransmit_keys p keys).2 then Raised else Sleeping,
     (retransmit_keys p keys).1).
Proof.
  revert fuel. induction keys as [|k keys IH]; intros fuel Hkeys Hfuel.
  { destruct fuel as [|fuel]; [cbn in Hfuel; lia|]. done. }
  destruct fuel as [|fuel]; [cbn in Hfuel; lia|].
  cbn [length] in Hfuel.
  destruct (Hkeys k) as [pending Hl]; [left|].
  assert (Hrest : ∀ k', k' ∈ keys → is_Some (pending_acks p !! k'))
    by (intros k' Hk'; apply Hkeys; by right).
  cbn [retransmitter_go retransmitter_step retransmit_keys].
  rewrite (pending_acks_getitem_present k p pending Hl).
  unfold retransmit_one. rewrite Hl.
  change (default ∅ (Some pending)) with pending.
  destruct (decide (pending = ∅)) as [He|He].
  { rewrite (IH fuel Hrest) by lia.
    by destruct (retransmit_keys p keys) as [rest raised]. }
  destruct (py_split "-" k 2) as [|a [|b [|c [|? ?]]]]; try done.
  destruct (py_int a) as [s|]; [|done]. cbn [mbind option_bind].
  destruct (py_int b) as [l|]; [|done]. cbn [mbind option_bind].
  destruct (decide (s = process_id p)) as [Hs|Hs].
  - destruct fuel as [|fuel]; [lia|].
    cbn [retransmitter_go retransmitter_step].
    rewrite (pending_acks_getitem_present k p pending Hl).
    destruct fuel as [|fuel]; [lia|].
    cbn [retransmitter_go retransmitter_step].
    rewrite (pending_acks_getitem_present k p pending Hl).
    rewrite (IH fuel Hrest) by lia.
    by destruct (retransmit_keys p keys) as [rest raised].
  - rewrite (IH fuel Hrest) by lia.
    by destruct (retransmit_keys p keys) as [rest raised].
Qed.

(** X16. A pass of the retransmission thread that nothing interrupts,
    taken read by read from its sleep, leaves the process exactly as it
    was, the table of pending acknowledgements included, and sends
    exactly the datagrams of [_retransmit_messages] taken as one step; it
    ends asleep again, or gone if the pass raises. *)
Theorem X16_undisturbed_pass (p : Process) (fuel : nat) :
  (3 * length (map_to_list (pending_acks p)) + 2 ≤ fuel)%nat →
  retransmitter_go fuel p Sleeping
  = (p, if (retransmit_pass p).2 then Raised else Sleeping,
     actions _retransmit_messages p).
Proof.
  intros Hfuel. destruct fuel as [|fuel]; [lia|].
  cbn [retransmitter_go retransmitter_step].
  pose proof (retransmitter_go_keys p (map_to_list (pending_acks p)).*1 fuel)
    as Hgo.
  rewrite length_fmap in Hgo.
  destruct ((map_to_list (pending_acks p)).*1) as [|k keys] eqn:Hks.
  - destruct fuel as [|fuel]; [lia|].
    unfold actions, _retransmit_messages, retransmit_pass. rewrite Hks. done.
  - rewrite Hgo; [|intros k' Hk'; apply elem_of_keys; by rewrite Hks|lia].
    unfold actions, _retransmit_messages, retransmit_pass. rewrite Hks. done.
Qed.

Lemma X16_undisturbed_pass_witness :
  let p := run (init 0 3)
             [EvMulticast "hi"; EvReceive (mkMessage "ACK" "0-1-hi" "" 1 3);
              EvReceive (mkMessage "ACK" "0-1-hi" "" 0 3)] in
  retransmitter_go 5 p Sleeping
  = (p, Sleeping, [SendTo 12002 (mkMessage "DATA" "0-1-hi" "hi" 0 1)]).
Proof.
  intros p.
  assert (Hfuel : (3 * length (map_to_list (pending_acks p)) + 2 ≤ 5)%nat)
    by (vm_compute; lia).
  etrans; [exact (X16_undisturbed_pass p 5 Hfuel)|]. by vm_compute.
Defined.

(** The entry of a multicast after any later events. *)
Lemma pending_after_multicast (pid total : Z) (evs0 : list Event) (c : string)
    (evs : list Event) :
  0 ≤ pid →
  let p := run (init pid total) evs0 in
  let mid := format_message_id pid (lamport_clock p + 1) c in
  pending_acks (run (step p (EvMulticast c)) evs) !! mid
  = foldl acked (Some (list_to_set (py_range total))) (ack_senders mid evs).
Proof.
  intros Hpid p mid.
  assert (Hwf : well_formed p) by by apply well_formed_run, well_formed_init.
  destruct (run_process_id (init pid total) evs0) as [Hid Htot].
  fold p in Hid, Htot. cbn in Hid, Htot. destruct Hwf as (_ & Hclk & _).
  set (p1 := step p (EvMulticast c)).
  assert (Hid1 : process_id p1 = pid) by (unfold p1; by rewrite step_multicast).
  assert (Hclk1 : lamport_clock p1 = lamport_clock p + 1)
    by (unfold p1; by rewrite step_multicast).
  assert (Hl1 : pending_acks p1 !! mid = Some (list_to_set (py_range total))).
  { unfold p1. rewrite step_multicast. cbn. rewrite Hid, Htot.
    apply lookup_insert_eq. }
  pose proof (run_pending_lookup p1 evs (lamport_clock p + 1) c) as H.
  cbn zeta in H. rewrite Hid1 in H. fold mid in H.
  rewrite H by lia. by rewrite Hl1.
Qed.

(** X4. After a multicast by a process with a non-negative id and at
    least one peer, whatever events follow, a retransmission pass sends
    the message of that multicast exactly to the peers from which no ACK
    for its id has been received yet, and to nobody once all of them have
    acknowledged. *)
Theorem X4_retransmission_targets (pid total : Z) (evs0 : list Event)
    (c : string) (evs : list Event) :
  0 ≤ pid → 0 < total →
  let p := run (init pid total) evs0 in
  let ts := lamport_clock p + 1 in
  let mid := format_message_id pid ts c in
  let original := mkMessage "DATA" mid c pid ts in
  let p2 := run (step p (EvMulticast c)) evs in
  let resent := actions _retransmit_messages p2 in
  (∀ port m,
     SendTo port m ∈ resent ∧ message_id m = mid
     ↔ m = original
       ∧ ∃ j, 0 ≤ j < total ∧ (j ∉ ack_senders mid evs)
              ∧ port = BASE_PORT + j)
  ∧ ((∀ j, 0 ≤ j < total → j ∈ ack_senders mid evs) →
     ∀ port m, SendTo port m ∈ resent → message_id m ≠ mid).
Proof.
  intros Hpid Htotal p ts mid original p2 resent.
  assert (Hwf : well_formed p) by by apply well_formed_run, well_formed_init.
  assert (Hts : 0 ≤ ts) by (destruct Hwf as (_ & ? & _); unfold ts; lia).
  assert (Hwf2 : well_formed p2)
    by (unfold p2; by apply well_formed_run, well_formed_step).
  assert (Hid2 : process_id p2 = pid).
  { unfold p2.
    destruct (run_process_id (step p (EvMulticast c)) evs) as [-> _].
    destruct (step_process_id p (EvMulticast c)) as [-> _].
    unfold p. by destruct (run_process_id (init pid total) evs0) as [-> _]. }
  set (rest := (list_to_set (py_range total) : gset Z)
               ∖ list_to_set (ack_senders mid evs)).
  assert (Hl : pending_acks p2 !! mid
               = if decide (rest = ∅) then None else Some rest).
  { pose proof (pending_after_multicast pid total evs0 c evs Hpid) as H.
    cbn zeta in H. unfold p2, mid, ts, p. rewrite H.
    apply foldl_acked_Some. intros He.
    assert (0 ∈ (list_to_set (py_range total) : gset Z)) as H0
      by (rewrite elem_of_list_to_set; apply elem_of_py_range; lia).
    rewrite He in H0. by apply not_elem_of_empty in H0. }
  assert (Hrest : ∀ j, j ∈ rest ↔ 0 ≤ j < total ∧ j ∉ ack_senders mid evs).
  { intros j. unfold rest.
    rewrite elem_of_difference, !elem_of_list_to_set, elem_of_py_range. done. }
  assert (Hmain : ∀ port m,
     SendTo port m ∈ resent ∧ message_id m = mid
     ↔ m = original
       ∧ ∃ j, 0 ≤ j < total ∧ (j ∉ ack_senders mid evs)
              ∧ port = BASE_PORT + j).
  { intros port m. split.
    - intros [Hel Hmid].
      apply retransmit_keys_elem in Hel as (k & sent & _ & Hone & Hel).
      destruct (retransmit_one_shape _ _ _ _ Hone Hel)
        as (pending & target & c' & lam & Hlk & Htarget & [= -> ->]).
      cbn in Hmid. subst k. rewrite Hl in Hlk.
      destruct (decide (rest = ∅)); [done|]. injection Hlk as <-.
      assert (Hlk : pending_acks p2 !! format_message_id pid ts c = Some rest)
        by exact Hl.
      unfold mid in Hone.
      rewrite (retransmit_one_formatted p2 pid ts c rest Hpid Hts Hlk) in Hone.
      injection Hone as <-. rewrite decide_False in Hel by done.
      rewrite decide_True in Hel by done.
      apply list_elem_of_fmap in Hel as (target' & Heq & _).
      injection Heq as _ Hc Hs Hlam. subst c' lam. rewrite Hid2.
      split; [done|]. exists target. apply Hrest in Htarget. tauto.
    - intros [-> (j & Hj & Hnot & ->)]. split; [|done].
      assert (Hjr : j ∈ rest) by (by apply Hrest).
      assert (Hne : rest ≠ ∅) by set_solver.
      assert (Hlk : pending_acks p2 !! format_message_id pid ts c = Some rest).
      { fold mid. rewrite Hl. by rewrite decide_False. }
      destruct (retransmit_keys_total p2 (map_to_list (pending_acks p2)).*1)
        as [_ Hcomplete].
      { intros k Hk%elem_of_keys. by apply well_formed_retransmit_one. }
      eapply (Hcomplete mid).
      + apply elem_of_keys. eauto.
      + by apply retransmit_one_formatted.
      + rewrite decide_False by done. rewrite decide_True by done.
        apply list_elem_of_fmap. exists j. split; [done|].
        by apply elem_of_elements. }
  split; [done|].
  intros Hall port m Hel Hmid.
  destruct (proj1 (Hmain port m) (conj Hel Hmid)) as (_ & j & Hj & Hnot & _).
  by apply Hnot, Hall.
Qed.

Lemma X4_retransmission_targets_witness :
  let acks := [EvReceive (mkMessage "ACK" "0-1-hi" "" 1 3);
               EvReceive (mkMessage "ACK" "0-1-hi" "" 0 3)] in
  0 ≤ 0 ∧ 0 < 3
  ∧ SendTo 12002 (mkMessage "DATA" "0-1-hi" "hi" 0 1)
    ∈ actions _retransmit_messages
        (run (step (run (init 0 3) []) (EvMulticast "hi")) acks).
Proof.
  intros acks.
  assert (Hpid : 0 ≤ 0) by lia. assert (Htotal : 0 < 3) by lia.
  split_and!; [done|done|].
  pose proof (X4_retransmission_targets 0 3 [] "hi" acks Hpid Htotal) as H.
  cbn zeta in H.
  refine (proj1 (proj2 (proj1 H 12002 (mkMessage "DATA" "0-1-hi" "hi" 0 1)) _)).
  split; [by vm_compute|].
  exists 2. split_and!; [lia|lia| |reflexivity].
  vm_compute. intros Hel.
  repeat (apply elem_of_cons in Hel as [Hel|Hel]; [discriminate Hel|]).
  by apply elem_of_nil in Hel.
Defined.

End PendingSets.

(** ** What the listener answers, and what follows a receipt *)

Section Replies.
Import Ack.



(** X6. Lamport's clock condition inside a process: once a process has
    handled a DATA message, first or duplicate, every timestamp that it
    gives to a later multicast is above the timestamp of that message. *)
Theorem X6_receive_before_send (p : Process) (evs1 : list Event) (m : Message)
    (evs2 : list Event) :
  msg_type m = "DATA" →
  Forall (λ t, lamport m < t)
    (ack_send_timestamps (run p (evs1 ++ [EvReceive m])) evs2).
Proof.
  intros Hd. rewrite run_app. cbn [run foldl]. fold (run p evs1).
  eapply Forall_impl; [apply ack_send_timestamps_above|].
  intros t Ht. cbn beta in Ht.
  assert (lamport m < lamport_clock (step (run p evs1) (EvReceive m)));
    [|lia].
  unfold step, exec. cbn [handler].
  rewrite listen_step_data by done.
  destruct (decide (message_id m ∈ delivered_messages (run p evs1))).
  - rewrite on_message_received_dup by done. cbn. lia.
  - rewrite on_message_received_fresh by done. cbn. lia.
Qed.

Lemma X6_receive_before_send_witness :
  let m := mkMessage "DATA" "2-7-x" "x" 2 7 in
  Forall (λ t, 7 < t)
    (ack_send_timestamps (run (init 1 3) ([EvMulticast "a"] ++ [EvReceive m]))
       [EvMulticast "b"; EvRetransmit; EvMulticast "c"]).
Proof.
  intros m. assert (Hd : msg_type m = "DATA") by reflexivity.
  exact (X6_receive_before_send (init 1 3) [EvMulticast "a"] m
           [EvMulticast "b"; EvRetransmit; EvMulticast "c"] Hd).
Defined.

End Replies.

(** ** The network: integrity and completion *)

Section NetworkDelivery.
Import Ack.

Lemma net_do_Some (N N' : Network) (x : Z * Event) :
  net_do N x = Some N' ↔
  ∃ p, procs N !! x.1 = Some p
       ∧ (∀ m, x.2 = EvReceive m → (BASE_PORT + x.1, m) ∈ wire N)
       ∧ N' = net_handle N x.1 p x.2.
Proof.
  unfold net_do. destruct (procs N !! x.1) as [p|]; cbn.
  2:{ split; [done|]. by intros (p & ? & _). }
  destruct (net_enabled N x.1 x.2) eqn:Hen.
  - split.
    + intros [= <-]. exists p. split_and!; [done| |done].
      intros m Hm. unfold net_enabled in Hen. rewrite Hm in Hen.
      by apply bool_decide_eq_true in Hen.
    + by intros (p' & [= <-] & _ & ->).
  - split; [done|]. intros (p' & [= <-] & Hrecv & _).
    unfold net_enabled in Hen. destruct x.2 as [c|m|]; try done.
    apply bool_decide_eq_false in Hen. destruct Hen. by apply Hrecv.
Qed.

Lemma net_run_snoc (N : Network) (sched : list (Z * Event)) (x : Z * Event) :
  net_run N (sched ++ [x]) = N' ← net_run N sched ; net_do N' x.
Proof.
  revert N. induction sched as [|y sched IH]; intros N; cbn.
  - by destruct (net_do N x).
  - destruct (net_do N y) as [N1|]; cbn; [apply IH|done].
Qed.

Lemma net_do_step (N N' : Network) (x : Z * Event) :
  net_do N x = Some N' → net_step N N'.
Proof.
  intros (p & Hp & Hrecv & ->)%net_do_Some. by constructor.
Qed.

Lemma net_run_reachable (total : Z) (sched : list (Z * Event)) (N : Network) :
  net_run (net_init total) sched = Some N → net_reachable total N.
Proof.
  revert N. induction sched as [|x sched IH] using rev_ind; intros N.
  - intros [= <-]. apply rtc_refl.
  - rewrite net_run_snoc.
    destruct (net_run (net_init total) sched) as [N0|]; [|done]. cbn.
    intros Hdo%net_do_step. eapply rtc_r; [by apply IH|done].
Qed.

(** What a step does to the process table. *)
Lemma net_handle_procs (N : Network) (i : Z) (p : Process) (ev : Event)
    (j : Z) (q' : Process) :
  procs N !! i = Some p →
  procs (net_handle N i p ev) !! j = Some q' →
  ∃ q, procs N !! j = Some q
       ∧ delivered_messages q ⊆ delivered_messages q'
       ∧ lamport_clock q ≤ lamport_clock q'
       ∧ total_processes q' = total_processes q
       ∧ (j ≠ i → q' = q)
       ∧ (j = i → q = p ∧ q' = step p ev).
Proof.
  intros Hp. rewrite procs_handle. destruct (decide (i = j)) as [<-|Hne].
  - intros [= <-]. exists p.
    destruct (step_process_id p ev) as [_ Htot].
    split_and!; [done|apply step_delivered_mono|apply step_clock_mono|
                 done|done|done].
  - intros Hq. exists q'. split_and!; [done|done|lia|done|done|].
    intros ->. done.
Qed.

Lemma net_handle_procs_old (N : Network) (i : Z) (p : Process) (ev : Event)
    (j : Z) (q : Process) :
  procs N !! i = Some p →
  procs N !! j = Some q →
  ∃ q', procs (net_handle N i p ev) !! j = Some q'
        ∧ delivered_messages q ⊆ delivered_messages q'
        ∧ lamport_clock q ≤ lamport_clock q'.
Proof.
  intros Hp Hq. rewrite procs_handle. destruct (decide (i = j)) as [<-|Hne].
  - rewrite Hp in Hq. injection Hq as <-. exists (step p ev).
    split_and!; [done|apply step_delivered_mono|apply step_clock_mono].
  - exists q. split_and!; [done|done|lia].
Qed.

(** The one datagram that may answer a received message. *)
Lemma listen_step_sends (p : Process) (m a : Message) (port : Z) :
  SendTo port a ∈ actions (listen_step m) p →
  msg_type m = "DATA"
  ∧ a = mkMessage "ACK" (message_id m) "" (process_id p)
          (lamport_clock (step p (EvReceive m)))
  ∧ message_id m ∈ delivered_messages (step p (EvReceive m)).
Proof.
  unfold step, exec, actions. cbn [handler].
  destruct (decide (msg_type m = "DATA")) as [Hd|Hd].
  - rewrite listen_step_data by done.
    destruct (decide (message_id m ∈ delivered_messages p)) as [Hin|Hin].
    + rewrite on_message_received_dup by done. cbn.
      by intros [= _ ->]%list_elem_of_singleton.
    + rewrite on_message_received_fresh by done. cbn.
      intros [Heq|Hel]%elem_of_cons; [done|].
      apply list_elem_of_singleton in Hel as [= _ ->].
      split_and!; [done|done|set_solver].
  - destruct (decide (msg_type m = "ACK")) as [Ha|Ha].
    + rewrite listen_step_ack, on_ack_received_eq by done. cbn.
      by intros ?%elem_of_nil.
    + rewrite listen_step_other by done. cbn. by intros ?%elem_of_nil.
Qed.

Lemma wire_handle (N : Network) (i : Z) (p : Process) (ev : Event)
    (port : Z) (m : Message) :
  (port, m) ∈ wire (net_handle N i p ev)
  ↔ (port, m) ∈ wire N ∨ SendTo port m ∈ actions (handler ev) p.
Proof.
  unfold net_handle. cbn [wire].
  by rewrite elem_of_app, elem_of_wire_sends.
Qed.

Lemma net_inv2_init (total : Z) : net_inv2 total [] (net_init total).
Proof.
  assert (Hlook : ∀ i p, procs (net_init total) !! i = Some p →
            p = init i total ∧ 0 ≤ i < total).
  { intros i p Hl. cbn in Hl. apply elem_of_list_to_map_2 in Hl.
    apply list_elem_of_fmap in Hl as (j & [= -> ->] & Hj).
    by apply elem_of_py_range in Hj. }
  assert (Hwire : ∀ m, ¬ data_on_wire (net_init total) m).
  { intros m (_ & port & Hel). by apply elem_of_nil in Hel. }
  constructor.
  - intros i p (-> & Hi)%Hlook. by cbn.
  - intros i Hi. cbn. apply elem_of_dom. rewrite dom_list_to_map_L.
    rewrite <- list_fmap_compose. apply elem_of_list_to_set.
    apply list_elem_of_fmap. exists i. split; [done|].
    by apply elem_of_py_range.
  - intros port m Hel. by apply elem_of_nil in Hel.
  - intros port m Hel. by apply elem_of_nil in Hel.
  - intros s p k pending j q (-> & _)%Hlook Hl. cbn in Hl.
    by rewrite lookup_empty in Hl.
  - intros m p j q Hm. by destruct (Hwire m).
  - intros i m Hel. by apply elem_of_nil in Hel.
  - intros m Hm. by destruct (Hwire m).
  - intros i p t c (-> & _)%Hlook _ [x Hx]. cbn in Hx.
    by rewrite lookup_empty in Hx.
Qed.

Lemma net_inv2_multicast (total : Z) (sched : list (Z * Event)) (N : Network)
    (i : Z) (p : Process) (c : string) :
  net_inv N → net_inv2 total sched N → procs N !! i = Some p →
  net_inv2 total (sched ++ [(i, EvMulticast c)])
    (net_handle N i p (EvMulticast c)).
Proof.
  intros Hinv Hinv2 Hp.
  destruct (inv_procs N Hinv i p Hp) as (Hid & Hi & Hclk).
  destruct (i2_range total sched N Hinv2 i p Hp) as [Hrange Htot].
  set (ts := lamport_clock p + 1).
  set (k0 := format_message_id i ts c).
  set (m0 := mkMessage "DATA" k0 c i ts).
  set (N' := net_handle N i p (EvMulticast c)).
  assert (Hstep : step p (EvMulticast c)
                  = mkProcess i total ts (delivered_messages p)
                      (<[k0 := list_to_set (py_range total)]> (pending_acks p))
                      (buffer_messages p))
    by (by rewrite step_multicast, Hid, Htot).
  assert (Hwire : ∀ port m, (port, m) ∈ wire N' →
            (port, m) ∈ wire N ∨ m = m0).
  { intros port m [Hel|Hel]%wire_handle; [by left|right].
    apply r_multicast_sends in Hel. by rewrite Hid in Hel. }
  assert (Hnew : ∀ m, data_on_wire N' m → data_on_wire N m ∨ m = m0).
  { intros m (Hd & port & [Hel| ->]%Hwire); [left|by right].
    split; [done|by exists port]. }
  assert (Hold : ∀ m, data_on_wire N m → sender_id m = i →
            message_id m ≠ k0).
  { intros m Hm Hs Heq.
    destruct (inv_data N Hinv m Hm) as (q & Hq & Hr & Hfmt).
    rewrite Hs, Hp in Hq. injection Hq as <-. rewrite Hfmt, Hs in Heq.
    apply format_message_id_inj in Heq as (_ & Heq & _);
      [|done|lia|done|unfold ts; lia].
    unfold ts in Heq. lia. }
  assert (Hproc : ∀ j q', procs N' !! j = Some q' →
            ∃ q, procs N !! j = Some q
                 ∧ delivered_messages q' = delivered_messages q
                 ∧ lamport_clock q ≤ lamport_clock q'
                 ∧ total_processes q' = total_processes q
                 ∧ (j ≠ i → q' = q)
                 ∧ (j = i → q = p ∧ q' = step p (EvMulticast c))).
  { intros j q'. unfold N'. rewrite procs_handle.
    destruct (decide (i = j)) as [<-|Hne].
    - intros [= <-]. exists p. rewrite Hstep. cbn. unfold ts.
      split_and!; [done|done|lia|done|done|done].
    - intros Hq. exists q'. split_and!; [done|done|lia|done|done|].
      by intros ->. }
  constructor.
  - intros j q' (q & Hq & _ & _ & Ht & _)%Hproc. rewrite Ht.
    apply (i2_range total sched N Hinv2 j q Hq).
  - intros j Hj. unfold N'. rewrite procs_handle. case_decide; [eauto|].
    by apply (i2_all total sched N Hinv2).
  - intros port m [Hel| ->]%Hwire; [|by left].
    by apply (i2_types total sched N Hinv2 port).
  - intros port a [Hel| ->]%Hwire Ha; [|done].
    destruct (i2_ack total sched N Hinv2 port a Hel Ha) as (q & Hq & Hin).
    destruct (net_handle_procs_old N i p (EvMulticast c) _ q Hp Hq)
      as (q' & Hq' & Hsub & _).
    exists q'. split; [done|]. by apply Hsub.
  - intros s ps' k pending j q' Hs Hl Hj.
    apply Hproc in Hj as (q & Hq & Hdel & _). rewrite Hdel.
    apply Hproc in Hs as (ps & Hps & _ & _ & _ & Hne & Heq).
    destruct (decide (s = i)) as [->|Hsi].
    + destruct (Heq eq_refl) as [-> ->]. rewrite Hstep in Hl. cbn in Hl.
      destruct (decide (k = k0)) as [->|Hk].
      * rewrite lookup_insert_eq in Hl. injection Hl as <-. left.
        rewrite elem_of_list_to_set. apply elem_of_py_range.
        apply (i2_range total sched N Hinv2 j q Hq).
      * rewrite lookup_insert_ne in Hl by done.
        by apply (i2_pending total sched N Hinv2 i p k pending j q).
    + rewrite (Hne Hsi) in Hl.
      by apply (i2_pending total sched N Hinv2 s ps k pending j q).
  - intros m ps' j q' [Hm| ->]%Hnew Hs Hl Hj.
    + apply Hproc in Hj as (q & Hq & Hdel & _). rewrite Hdel.
      apply Hproc in Hs as (ps & Hps & _ & _ & _ & Hne & Heq).
      destruct (decide (sender_id m = i)) as [Hsi|Hsi].
      * destruct (Heq Hsi) as [-> ->]. rewrite Hstep in Hl. cbn in Hl.
        rewrite lookup_insert_ne in Hl by (intros Hk; by apply (Hold m)).
        by apply (i2_done total sched N Hinv2 m p j q).
      * rewrite (Hne Hsi) in Hl.
        by apply (i2_done total sched N Hinv2 m ps j q).
    + change (sender_id m0) with i in Hs. change (message_id m0) with k0 in Hl.
      unfold N' in Hs. rewrite procs_handle in Hs.
      rewrite decide_True in Hs by done. injection Hs as <-.
      rewrite Hstep in Hl. cbn in Hl. by rewrite lookup_insert_eq in Hl.
  - intros j m Hel. unfold N', net_handle in Hel. cbn [delivery_log] in Hel.
    rewrite app_nil_r in Hel.
    destruct (i2_log total sched N Hinv2 j m Hel) as (q & Hq & Hin & Hlt).
    destruct (net_handle_procs_old N i p (EvMulticast c) _ q Hp Hq)
      as (q' & Hq' & Hsub & Hmono).
    exists q'. split_and!; [done|by apply Hsub|lia].
  - intros m [Hm| ->]%Hnew.
    + destruct (i2_origin total sched N Hinv2 m Hm) as [Hin Hl].
      split; [|done]. apply elem_of_app. by left.
    + cbn. split; [|unfold ts; lia]. apply elem_of_app. right. left.
  - intros j q' t c' Hj Ht Hk.
    apply Hproc in Hj as (q & Hq & _ & _ & _ & Hne & Heq).
    destruct (decide (j = i)) as [->|Hji].
    + destruct (Heq eq_refl) as [-> ->]. rewrite Hstep in Hk. cbn in Hk.
      destruct (decide (format_message_id i t c' = k0)) as [Hk0|Hk0].
      * apply format_message_id_inj in Hk0 as (_ & -> & ->);
          [|done|done|done|unfold ts; lia].
        split; [|unfold ts; lia]. apply elem_of_app. right. left.
      * rewrite lookup_insert_ne in Hk by done.
        destruct (i2_keys total sched N Hinv2 i p t c' Hp Ht Hk) as [Hin Hl].
        split; [|done]. apply elem_of_app. by left.
    + rewrite (Hne Hji) in Hk.
      destruct (i2_keys total sched N Hinv2 j q t c' Hq Ht Hk) as [Hin Hl].
      split; [|done]. apply elem_of_app. by left.
Qed.

Lemma net_inv2_retransmit (total : Z) (sched : list (Z * Event)) (N : Network)
    (i : Z) (p : Process) :
  net_inv N → net_inv2 total sched N → procs N !! i = Some p →
  net_inv2 total (sched ++ [(i, EvRetransmit)]) (net_handle N i p EvRetransmit).
Proof.
  intros Hinv Hinv2 Hp.
  destruct (inv_procs N Hinv i p Hp) as (Hid & Hi & Hclk).
  set (N' := net_handle N i p EvRetransmit).
  assert (Hprocs : ∀ j, procs N' !! j = procs N !! j).
  { intros j. unfold N'. rewrite procs_handle. case_decide as Hj; [|done].
    subst j. by rewrite Hp. }
  assert (Hwire : ∀ port m, (port, m) ∈ wire N' →
            (port, m) ∈ wire N
            ∨ ∃ t c, 0 ≤ t
                ∧ is_Some (pending_acks p !! format_message_id i t c)
                ∧ m = mkMessage "DATA" (format_message_id i t c) c i t).
  { intros port m [Hel|Hel]%wire_handle; [by left|right].
    cbn [handler] in Hel.
    apply retransmit_sends in Hel; [|by rewrite Hid|].
    - rewrite Hid in Hel. destruct Hel as (t & c & Ht & Hk & ->).
      exists t, c. split_and!; [lia|done|done].
    - intros k Hk. rewrite Hid. by apply (inv_keys N Hinv i p k). }
  assert (Hnew : ∀ m, data_on_wire N' m →
            data_on_wire N m
            ∨ ∃ t c, 0 ≤ t
                ∧ is_Some (pending_acks p !! format_message_id i t c)
                ∧ m = mkMessage "DATA" (format_message_id i t c) c i t).
  { intros m (Hd & port & [Hel|Hel]%Hwire); [left|by right].
    split; [done|by exists port]. }
  constructor.
  - intros j q. rewrite Hprocs. apply (i2_range total sched N Hinv2).
  - intros j Hj. rewrite Hprocs. by apply (i2_all total sched N Hinv2).
  - intros port m [Hel|(t & c & _ & _ & ->)]%Hwire; [|by left].
    by apply (i2_types total sched N Hinv2 port).
  - intros port a [Hel|(t & c & _ & _ & ->)]%Hwire Ha; [|done].
    rewrite Hprocs. by apply (i2_ack total sched N Hinv2 port).
  - intros s ps k pending j q. rewrite !Hprocs.
    apply (i2_pending total sched N Hinv2).
  - intros m ps j q [Hm|(t & c & Ht & Hk & ->)]%Hnew; rewrite !Hprocs.
    + by apply (i2_done total sched N Hinv2).
    + cbn. rewrite Hp. intros [= <-] Hl. rewrite Hl in Hk. by destruct Hk.
  - intros j m Hel. unfold N', net_handle in Hel. cbn [delivery_log] in Hel.
    rewrite app_nil_r in Hel. rewrite Hprocs.
    by apply (i2_log total sched N Hinv2).
  - intros m [Hm|(t & c & Ht & Hk & ->)]%Hnew.
    + destruct (i2_origin total sched N Hinv2 m Hm) as [Hin Hl].
      split; [|done]. apply elem_of_app. by left.
    + cbn. destruct (i2_keys total sched N Hinv2 i p t c Hp Ht Hk) as [Hin Hl].
      split; [|done]. apply elem_of_app. by left.
  - intros j q t c. rewrite Hprocs. intros Hq Ht Hk.
    destruct (i2_keys total sched N Hinv2 j q t c Hq Ht Hk) as [Hin Hl].
    split; [|done]. apply elem_of_app. by left.
Qed.

Lemma step_receive_pending (p : Process) (m : Message) :
  pending_acks (step p (EvReceive m))
  = if decide (msg_type m = "ACK")
    then ack_table (message_id m) (sender_id m) (pending_acks p)
    else pending_acks p.
Proof.
  unfold step, exec. cbn [handler].
  destruct (decide (msg_type m = "ACK")) as [Ha|Ha].
  - by rewrite listen_step_ack, on_ack_received_eq.
  - destruct (decide (msg_type m = "DATA")) as [Hd|Hd].
    + rewrite listen_step_data by done.
      destruct (decide (message_id m ∈ delivered_messages p)).
      * by rewrite on_message_received_dup.
      * by rewrite on_message_received_fresh.
    + by rewrite listen_step_other.
Qed.

Lemma ack_table_lookup_members (mid k : string) (a : Z)
    (tbl : gmap string (gset Z)) (pending' : gset Z) :
  ack_table mid a tbl !! k = Some pending' →
  ∃ pending, tbl !! k = Some pending
    ∧ ∀ j, j ∈ pending → j ∈ pending' ∨ (k = mid ∧ j = a).
Proof.
  destruct (decide (k = mid)) as [->|Hne].
  - rewrite ack_table_lookup_eq.
    destruct (tbl !! mid) as [pending|]; [|done]. cbn.
    destruct (decide (a ∈ pending)).
    + destruct (decide (pending ∖ {[a]} = ∅)); [done|].
      intros [= <-]. exists pending. split; [done|].
      intros j Hj. destruct (decide (j = a)) as [->|Hja]; [by right|left].
      set_solver.
    + intros [= <-]. exists pending. split; [done|]. by left.
  - rewrite ack_table_lookup_ne by done. intros Hl.
    exists pending'. split; [done|]. by left.
Qed.

Lemma ack_table_lookup_None (mid k : string) (a : Z)
    (tbl : gmap string (gset Z)) :
  ack_table mid a tbl !! k = None →
  tbl !! k = None
  ∨ (k = mid ∧ ∃ pending, tbl !! k = Some pending ∧ ∀ j, j ∈ pending → j = a).
Proof.
  destruct (decide (k = mid)) as [->|Hne].
  - rewrite ack_table_lookup_eq.
    destruct (tbl !! mid) as [pending|]; [|by left]. cbn.
    destruct (decide (a ∈ pending)); [|done].
    destruct (decide (pending ∖ {[a]} = ∅)) as [He|]; [|done].
    intros _. right. split; [done|]. exists pending. split; [done|].
    intros j Hj. destruct (decide (j = a)); [done|]. set_solver.
  - rewrite ack_table_lookup_ne by done. by left.
Qed.

Lemma net_inv2_receive (total : Z) (sched : list (Z * Event)) (N : Network)
    (i : Z) (p : Process) (m : Message) :
  net_inv N → net_inv2 total sched N → procs N !! i = Some p →
  (BASE_PORT + i, m) ∈ wire N →
  net_inv2 total (sched ++ [(i, EvReceive m)])
    (net_handle N i p (EvReceive m)).
Proof.
  intros Hinv Hinv2 Hp Hrecv.
  destruct (inv_procs N Hinv i p Hp) as (Hid & Hi & Hclk).
  set (N' := net_handle N i p (EvReceive m)).
  set (p' := step p (EvReceive m)).
  assert (Hpi : procs N' !! i = Some p').
  { unfold N'. rewrite procs_handle. by rewrite decide_True. }
  assert (Hwire : ∀ port a, (port, a) ∈ wire N' →
            (port, a) ∈ wire N
            ∨ (msg_type a = "ACK" ∧ sender_id a = i
               ∧ message_id a ∈ delivered_messages p')).
  { intros port a [Hel|Hel]%wire_handle; [by left|right].
    cbn [handler] in Hel.
    apply listen_step_sends in Hel as (_ & -> & Hin). by cbn. }
  assert (Hdata : ∀ m', data_on_wire N' m' ↔ data_on_wire N m').
  { intros m'. split.
    - intros (Hd & port & [Hel|(Ha & _)]%Hwire); [|congruence].
      split; [done|by exists port].
    - intros (Hd & port & Hel). split; [done|]. exists port.
      apply wire_handle. by left. }
  assert (Hack : msg_type m = "ACK" →
            ∃ q, procs N !! sender_id m = Some q
                 ∧ message_id m ∈ delivered_messages q).
  { intros Ha. by apply (i2_ack total sched N Hinv2 (BASE_PORT + i)). }
  assert (Hsched : ∀ x, x ∈ sched → x ∈ sched ++ [(i, EvReceive m)]).
  { intros x Hx. apply elem_of_app. by left. }
  constructor.
  - intros j q' Hq'.
    destruct (net_handle_procs N i p _ j q' Hp Hq')
      as (q & Hq & _ & _ & Ht & _). rewrite Ht.
    apply (i2_range total sched N Hinv2 j q Hq).
  - intros j Hj. unfold N'. rewrite procs_handle. case_decide; [eauto|].
    by apply (i2_all total sched N Hinv2).
  - intros port a [Hel|(Ha & _)]%Hwire; [|by right].
    by apply (i2_types total sched N Hinv2 port).
  - intros port a [Hel|(_ & Hs & Hin)]%Hwire Ha.
    + destruct (i2_ack total sched N Hinv2 port a Hel Ha) as (q & Hq & Hin).
      destruct (net_handle_procs_old N i p (EvReceive m) _ q Hp Hq)
        as (q' & Hq' & Hsub & _).
      exists q'. split; [done|]. by apply Hsub.
    + exists p'. by rewrite Hs.
  - intros s ps' k pending' j q' Hs Hl Hj.
    destruct (net_handle_procs N i p _ j q' Hp Hj)
      as (q & Hq & Hsub & _).
    destruct (net_handle_procs N i p _ s ps' Hp Hs)
      as (ps & Hps & _ & _ & _ & Hne & Heq).
    assert (Hgoal : ∀ pending, pending_acks ps !! k = Some pending →
              (∀ j0, j0 ∈ pending →
                 j0 ∈ pending' ∨ (k = message_id m ∧ j0 = sender_id m
                                  ∧ msg_type m = "ACK")) →
              j ∈ pending' ∨ k ∈ delivered_messages q').
    { intros pending Hlold Hmem.
      destruct (i2_pending total sched N Hinv2 s ps k pending j q Hps Hlold Hq)
        as [Hin|Hin]; [|right; by apply Hsub].
      destruct (Hmem j Hin) as [?|(-> & -> & Ha)]; [by left|right].
      destruct (Hack Ha) as (qa & Hqa & Hdel). rewrite Hq in Hqa.
      injection Hqa as <-. by apply Hsub. }
    destruct (decide (s = i)) as [->|Hsi].
    + destruct (Heq eq_refl) as [-> ->]. rewrite step_receive_pending in Hl.
      destruct (decide (msg_type m = "ACK")) as [Ha|Ha].
      * apply ack_table_lookup_members in Hl as (pending & Hlold & Hmem).
        apply (Hgoal pending Hlold). intros j0 Hj0.
        destruct (Hmem j0 Hj0) as [?|[-> ->]]; [by left|by right].
      * apply (Hgoal pending' Hl). by left.
    + rewrite (Hne Hsi) in Hl. apply (Hgoal pending' Hl). by left.
  - intros m0 ps' j q' Hm0%Hdata Hs Hl Hj.
    destruct (net_handle_procs N i p _ j q' Hp Hj)
      as (q & Hq & Hsub & _).
    destruct (net_handle_procs N i p _ _ ps' Hp Hs)
      as (ps & Hps & _ & _ & _ & Hne & Heq).
    destruct (decide (sender_id m0 = i)) as [Hsi|Hsi].
    + destruct (Heq Hsi) as [-> ->]. rewrite step_receive_pending in Hl.
      destruct (decide (msg_type m = "ACK")) as [Ha|Ha].
      * apply ack_table_lookup_None in Hl
          as [Hl|(Hk & pending & Hlold & Hall)].
        -- apply Hsub. by apply (i2_done total sched N Hinv2 m0 p j q).
        -- destruct (i2_pending total sched N Hinv2 _ p _ pending j q
                       Hps Hlold Hq) as [Hin|Hin]; [|by apply Hsub].
           apply Hall in Hin. subst j.
           destruct (Hack Ha) as (qa & Hqa & Hdel). rewrite Hq in Hqa.
           injection Hqa as <-. apply Hsub. by rewrite Hk.
      * apply Hsub. by apply (i2_done total sched N Hinv2 m0 p j q).
    + rewrite (Hne Hsi) in Hl. apply Hsub.
      by apply (i2_done total sched N Hinv2 m0 ps j q).
  - intros j m' Hel. unfold N', net_handle in Hel. cbn [delivery_log] in Hel.
    apply elem_of_app in Hel as [Hel|Hel].
    + destruct (i2_log total sched N Hinv2 j m' Hel) as (q & Hq & Hin & Hlt).
      destruct (net_handle_procs_old N i p (EvReceive m) _ q Hp Hq)
        as (q' & Hq' & Hsub & Hmono).
      exists q'. split_and!; [done|by apply Hsub|lia].
    + cbn [handler] in Hel. rewrite listen_step_deliver_calls in Hel.
      case_decide as Hc; [|by apply elem_of_nil in Hel].
      apply list_elem_of_singleton in Hel as [= -> ->].
      destruct Hc as [Hd Hfresh]. exists p'. split; [done|].
      unfold p', step, exec. cbn [handler].
      rewrite listen_step_data, on_message_received_fresh by done. cbn.
      split; [set_solver|lia].
  - intros m0 Hm0%Hdata.
    destruct (i2_origin total sched N Hinv2 m0 Hm0) as [Hin Hl]. auto.
  - intros j q' t c Hj Ht Hk.
    destruct (net_handle_procs N i p _ j q' Hp Hj)
      as (q & Hq & _ & _ & _ & Hne & Heq).
    assert (is_Some (pending_acks q !! format_message_id j t c)) as Hk'.
    { destruct (decide (j = i)) as [->|Hji].
      - destruct (Heq eq_refl) as [-> ->]. rewrite step_receive_pending in Hk.
        case_decide; [by apply ack_table_dom in Hk|done].
      - by rewrite (Hne Hji) in Hk. }
    destruct (i2_keys total sched N Hinv2 j q t c Hq Ht Hk') as [Hin Hl]. auto.
Qed.

Lemma net_inv2_run (total : Z) (sched : list (Z * Event)) (N : Network) :
  net_run (net_init total) sched = Some N → net_inv2 total sched N.
Proof.
  revert N. induction sched as [|x sched IH] using rev_ind; intros N.
  - intros [= <-]. apply net_inv2_init.
  - rewrite net_run_snoc.
    destruct (net_run (net_init total) sched) as [N0|] eqn:Hrun; [|done]. cbn.
    intros (p & Hp & Hrecv & ->)%net_do_Some.
    assert (Hinv : net_inv N0)
      by (by eapply net_inv_reachable, net_run_reachable).
    specialize (IH N0 eq_refl). destruct x as [i ev]. cbn in *.
    destruct ev as [c|m|].
    + by apply net_inv2_multicast.
    + apply net_inv2_receive; [done|done|done|]. by apply Hrecv.
    + by apply net_inv2_retransmit.
Qed.

End NetworkDelivery.

Section NetworkProperties.
Import Ack.



(** X8. Integrity.  After any schedule of a network of these processes,
    every call of [r_deliver] recorded for a process is for a DATA
    datagram that was sent; the process has it in [delivered_messages] and
    its clock is above the timestamp; the origin named in the message is a
    process of the network that did multicast this content, its clock has
    reached the timestamp, which is at least 1, and the id is the one
    formatted from origin, timestamp and content. *)
Theorem X8_integrity (total : Z) (sched : list (Z * Event)) (N : Network)
    (i : Z) (m : Message) :
  net_run (net_init total) sched = Some N →
  (i, m) ∈ delivery_log N →
  data_on_wire N m
  ∧ (∃ q, procs N !! i = Some q
          ∧ message_id m ∈ delivered_messages q
          ∧ lamport m < lamport_clock q)
  ∧ (∃ p, procs N !! sender_id m = Some p
          ∧ 0 ≤ sender_id m < total
          ∧ 1 ≤ lamport m ≤ lamport_clock p)
  ∧ (sender_id m, EvMulticast (content m)) ∈ sched
  ∧ message_id m
    = format_message_id (sender_id m) (lamport m) (content m).
Proof.
  intros Hrun Hlog.
  pose proof (net_inv2_run total sched N Hrun) as Hinv2.
  assert (Hinv : net_inv N) by (by eapply net_inv_reachable, net_run_reachable).
  pose proof (inv_log N Hinv i m Hlog) as Hm.
  destruct (inv_data N Hinv m Hm) as (p & Hp & Hr & Hfmt).
  destruct (i2_origin total sched N Hinv2 m Hm) as [Hsched Hl].
  destruct (i2_range total sched N Hinv2 _ p Hp) as [Hrange _].
  split_and!; [done|by apply (i2_log total sched N Hinv2)| |done|done].
  exists p. split_and!; [done|lia|lia|lia|lia].
Qed.

Lemma X8_integrity_witness :
  let m := mkMessage "DATA" "0-1-hi" "hi" 0 1 in
  let sched := [(0, EvMulticast "hi"); (1, EvReceive m); (1, EvReceive m)] in
  ∃ N, net_run (net_init 2) sched = Some N
       ∧ (1, m) ∈ delivery_log N
       ∧ (sender_id m, EvMulticast (content m)) ∈ sched.
Proof.
  intros m sched.
  destruct (net_run (net_init 2) sched) as [N|] eqn:Hrun;
    [|by vm_compute in Hrun].
  exists N.
  assert (Hlog : (1, m) ∈ delivery_log N).
  { vm_compute in Hrun. injection Hrun as <-. cbn. left. }
  split_and!; [done|done|].
  exact (proj1 (proj2 (proj2 (proj2
           (X8_integrity 2 sched N 1 m Hrun Hlog))))).
Defined.

(** X9. Completion means delivery everywhere.  After any schedule of a
    network of these processes: whoever sent an ACK for an id has that id
    in [delivered_messages]; a peer that is no longer in the pending set
    of an id has delivered it; and once the origin of a DATA datagram has
    no entry for its id any more (the moment the code reports the message
    as delivered by all), every process of the network has it in
    [delivered_messages]. *)
Theorem X9_completion (total : Z) (sched : list (Z * Event)) (N : Network) :
  net_run (net_init total) sched = Some N →
  (∀ port a, (port, a) ∈ wire N → msg_type a = "ACK" →
     ∃ q, procs N !! sender_id a = Some q
          ∧ message_id a ∈ delivered_messages q)
  ∧ (∀ s p k pending j, procs N !! s = Some p →
       pending_acks p !! k = Some pending → 0 ≤ j < total → j ∉ pending →
       ∃ q, procs N !! j = Some q ∧ k ∈ delivered_messages q)
  ∧ (∀ m p, data_on_wire N m → procs N !! sender_id m = Some p →
       pending_acks p !! message_id m = None →
       ∀ j, 0 ≤ j < total →
         ∃ q, procs N !! j = Some q ∧ message_id m ∈ delivered_messages q).
Proof.
  intros Hrun. pose proof (net_inv2_run total sched N Hrun) as Hinv2.
  split_and!.
  - apply (i2_ack total sched N Hinv2).
  - intros s p k pending j Hp Hl Hj Hnot.
    destruct (i2_all total sched N Hinv2 j Hj) as [q Hq]. exists q.
    split; [done|].
    by destruct (i2_pending total sched N Hinv2 s p k pending j q Hp Hl Hq).
  - intros m p Hm Hp Hl j Hj.
    destruct (i2_all total sched N Hinv2 j Hj) as [q Hq]. exists q.
    split; [done|]. by apply (i2_done total sched N Hinv2 m p j q).
Qed.

Lemma X9_completion_witness :
  let m := mkMessage "DATA" "0-1-hi" "hi" 0 1 in
  let a1 := mkMessage "ACK" "0-1-hi" "" 1 3 in
  let a0 := mkMessage "ACK" "0-1-hi" "" 0 3 in
  let sched := [(0, EvMulticast "hi"); (1, EvReceive m); (0, EvReceive m);
                (0, EvReceive a1); (0, EvReceive a0)] in
  ∃ N, net_run (net_init 2) sched = Some N
       ∧ ∀ j, 0 ≤ j < 2 →
           ∃ q, procs N !! j = Some q ∧ "0-1-hi" ∈ delivered_messages q.
Proof.
  intros m a1 a0 sched.
  destruct (net_run (net_init 2) sched) as [N|] eqn:Hrun;
    [|by vm_compute in Hrun].
  exists N. split; [done|].
  pose proof (proj2 (proj2 (X9_completion 2 sched N Hrun))) as H.
  assert (Hfacts : data_on_wire N m
                   ∧ ∃ p, procs N !! 0 = Some p
                          ∧ pending_acks p !! "0-1-hi" = None).
  { vm_compute in Hrun. injection Hrun as <-. split.
    - split; [reflexivity|]. exists 12000. cbn. left.
    - eexists. split; [reflexivity|]. by vm_compute. }
  destruct Hfacts as (Hm & p & Hp & Hl).
  exact (H m p Hm Hp Hl).
Defined.

End NetworkProperties.

(** ** The flooding process along a run *)

Section GossipRuns.
Import Gossip.

Lemma delivered_below_step (p : Processo) (ev : Event) :
  delivered_below p → delivered_below (step p ev).1.
Proof.
  intros Hb s t. destruct ev as [c|[|m]]; cbn [step].
  - cbn. intros H%Hb. lia.
  - destruct (running p); cbn; apply Hb.
  - destruct (running p); [|apply Hb]. cbn [run_step].
    destruct (decide ((original_sender m, timestamp m) ∈ delivered_messages p))
      as [Hin|Hin].
    + rewrite handle_receive_dup by done. apply Hb.
    + rewrite handle_receive_fresh by done. cbn.
      intros [Heq%elem_of_singleton|H%Hb]%elem_of_union; [|lia].
      injection Heq as -> ->. lia.
Qed.

Lemma delivered_below_run (p : Processo) (evs : list Event) :
  delivered_below p → delivered_below (run p evs).
Proof.
  revert p. induction evs as [|ev evs IH]; intros p Hb; [done|].
  apply (IH (step p ev).1), delivered_below_step, Hb.
Qed.

Lemma delivered_below_init (pid : Z) (n : nat) : delivered_below (init pid n).
Proof. intros s t H. cbn in H. by apply not_elem_of_empty in H. Qed.

(** X10. A running process that takes a message from its queue, new or
    already delivered, gives every message it multicasts afterwards a
    timestamp above the timestamp of that message. *)
Theorem X10_gossip_receive_before_send (pid : Z) (n : nat)
    (evs1 : list Event) (m : Message) (evs2 : list Event) :
  let p := run (init pid n) evs1 in
  running p = true →
  Forall (λ t, timestamp m < t)
         (gossip_send_timestamps (step p (EvQueue (Msg m))).1 evs2).
Proof.
  intros p Hrun.
  assert (Hb : delivered_below (step p (EvQueue (Msg m))).1)
    by apply delivered_below_step, delivered_below_run, delivered_below_init.
  assert (Hin : (original_sender m, timestamp m)
                ∈ delivered_messages (step p (EvQueue (Msg m))).1).
  { cbn [step]. rewrite Hrun. cbn [run_step].
    destruct (decide ((original_sender m, timestamp m) ∈ delivered_messages p))
      as [Hin|Hin].
    - by rewrite handle_receive_dup.
    - rewrite handle_receive_fresh by done. cbn. set_solver. }
  apply Hb in Hin.
  eapply Forall_impl; [apply gossip_send_timestamps_above|].
  intros t Ht. cbn beta in Ht. lia.
Qed.

Lemma X10_gossip_receive_before_send_witness :
  let m := mkMessage "hi" 7 1 in
  running (run (init 0 2) [EvQueue (Msg m)]) = true
  ∧ Forall (λ t, 7 < t)
      (gossip_send_timestamps
         (step (run (init 0 2) [EvQueue (Msg m)]) (EvQueue (Msg m))).1
         [EvMulticast "a"; EvMulticast "b"]).
Proof.
  intros m.
  assert (Hrun : running (run (init 0 2) [EvQueue (Msg m)]) = true)
    by reflexivity.
  split; [done|].
  exact (X10_gossip_receive_before_send 0 2 [EvQueue (Msg m)] m
           [EvMulticast "a"; EvMulticast "b"] Hrun).
Defined.

Lemma puts_app (l1 l2 : list Action) : puts (l1 ++ l2) = puts l1 ++ puts l2.
Proof. apply omap_app. Qed.

Lemma puts_basic_multicast (p : Processo) (m : Message) :
  puts (_basic_multicast p m) = (λ i, (i, m)) <$> seq 0 (num_queues p).
Proof.
  unfold _basic_multicast. induction (seq 0 (num_queues p)) as [|i l IH];
    [done|]. cbn. unfold puts in IH. by rewrite IH.
Qed.

Lemma gossip_step_num_queues (p : Processo) (ev : Event) :
  num_queues (step p ev).1 = num_queues p ∧ id (step p ev).1 = id p.
Proof.
  destruct ev as [c|[|m]]; cbn [step]; [done|by destruct (running p)|].
  destruct (running p); [|done]. cbn [run_step]. unfold handle_receive.
  by case_decide.
Qed.

Lemma gossip_run_num_queues (p : Processo) (evs : list Event) :
  num_queues (run p evs) = num_queues p ∧ id (run p evs) = id p.
Proof.
  revert p. induction evs as [|ev evs IH]; intros p; [done|].
  change (run p (ev :: evs)) with (run (step p ev).1 evs).
  destruct (IH (step p ev).1) as [-> ->]. apply gossip_step_num_queues.
Qed.

(** The [put]s of one step: one per queue, in the order of the list, for
    the message that the step multicasts or delivers; none otherwise. *)
Lemma gossip_step_puts (p : Processo) (ev : Event) :
  puts (step p ev).2
  = flat_map (λ m, (λ i, (i, m)) <$> seq 0 (num_queues p))
      (match ev with
       | EvMulticast c => [mkMessage c (lamport_clock p + 1) (id p)]
       | EvQueue _ => entregues (step p ev).2
       end).
Proof.
  destruct ev as [c|[|m]]; cbn [step].
  - unfold multicast. cbn [snd]. rewrite puts_basic_multicast. cbn.
    by rewrite app_nil_r.
  - by destruct (running p).
  - destruct (running p); [|done]. cbn [run_step].
    destruct (decide ((original_sender m, timestamp m) ∈ delivered_messages p))
      as [Hin|Hin].
    + by rewrite handle_receive_dup.
    + rewrite handle_receive_fresh by done. cbn [snd].
      change (puts (Entregue m :: ?l)) with (puts l).
      change (entregues (Entregue m :: ?l)) with (m :: entregues l).
      rewrite entregues_puts.
      pose proof (puts_basic_multicast p m) as H.
      unfold _basic_multicast in H. rewrite H. cbn. by rewrite app_nil_r.
Qed.

Lemma length_flat_map_const {A B} (f : A → list B) (k : nat) (l : list A) :
  (∀ x, length (f x) = k) → length (flat_map f l) = (k * length l)%nat.
Proof.
  intros Hf. induction l as [|x l IH]; cbn; [lia|].
  rewrite length_app, Hf, IH. lia.
Qed.

Lemma gossip_send_timestamps_length (p : Processo) (evs : list Event) :
  length (gossip_send_timestamps p evs) = multicast_calls evs.
Proof.
  revert p. induction evs as [|ev evs IH]; intros p; [done|].
  cbn [gossip_send_timestamps]. rewrite length_app, IH.
  unfold multicast_calls. destruct ev as [c|item].
  - by rewrite filter_cons_True by done.
  - rewrite filter_cons_False; [done|]. cbn. tauto.
Qed.

(** X11. Along any run of a process, every call of [multicast] and every
    delivery puts the message once into each of the queues, and nothing
    else is ever put: the number of [put]s is the number of queues times
    the number of multicasts and deliveries, a message that is put is one
    that was delivered or one that the process made itself, and it goes to
    a queue that exists.  A message that is found already delivered is
    not forwarded again. *)
Theorem X11_gossip_forwarding (p : Processo) (evs : list Event) :
  length (puts (gossip_trace p evs))
  = (num_queues p
     * (multicast_calls evs + length (gossip_deliveries p evs)))%nat
  ∧ ∀ i m, (i, m) ∈ puts (gossip_trace p evs) →
      (i < num_queues p)%nat
      ∧ (m ∈ gossip_deliveries p evs
         ∨ (original_sender m = id p
            ∧ timestamp m ∈ gossip_send_timestamps p evs)).
Proof.
  revert p. induction evs as [|ev evs IH]; intros p.
  { split; [cbn; lia|]. intros i m H. by apply elem_of_nil in H. }
  destruct (IH (step p ev).1) as [IHlen IHel].
  destruct (gossip_step_num_queues p ev) as [Hn Hid].
  rewrite Hn in IHlen, IHel. rewrite Hid in IHel.
  cbn [gossip_trace]. rewrite puts_app, gossip_deliveries_cons.
  pose proof (gossip_step_puts p ev) as Hputs.
  split.
  - rewrite !length_app, IHlen, Hputs.
    rewrite (length_flat_map_const _ (num_queues p))
      by (intros x; by rewrite length_fmap, length_seq).
    unfold multicast_calls. destruct ev as [c|item].
    + rewrite filter_cons_True by done. cbn [length].
      assert (entregues (step p (EvMulticast c)).2 = []) as ->.
      { cbn. apply entregues_puts. }
      cbn [length]. lia.
    + rewrite filter_cons_False by (cbn; tauto). lia.
  - intros i m [Hel|Hel]%elem_of_app.
    + rewrite Hputs in Hel. apply list_elem_of_In, in_flat_map in Hel
        as (m' & Hm' & Hel).
      apply list_elem_of_In, list_elem_of_fmap in Hel as (k & [= -> ->] & Hk).
      apply elem_of_seq in Hk. split; [lia|].
      apply list_elem_of_In in Hm'. destruct ev as [c|item].
      * right. apply list_elem_of_singleton in Hm' as ->. cbn. split; [done|].
        left.
      * left. apply elem_of_app. by left.
    + destruct (IHel i m Hel) as [Hi [Hd|[Hs Ht]]].
      * split; [done|]. left. apply elem_of_app. by right.
      * split; [done|]. right. split; [done|].
        cbn [gossip_send_timestamps]. apply elem_of_app. by right.
Qed.

Lemma multicast_contents_length (evs : list Event) :
  length (multicast_contents evs) = multicast_calls evs.
Proof.
  unfold multicast_calls.
  induction evs as [|[c|item] evs IH]; [done| |].
  - rewrite filter_cons_True by done.
    change (multicast_contents (EvMulticast c :: evs))
      with (c :: multicast_contents evs).
    cbn [length]. by rewrite IH.
  - rewrite filter_cons_False by (cbn; tauto). exact IH.
Qed.

(** X12. A process that has taken the STOP item from its queue never
    delivers again and its set of delivered identities stays as it is,
    whatever is put into its queue; but [multicast] still works on it:
    each call advances the clock by one and puts its message, stamped
    with the new clock and the id of the process, once into each of the
    queues, in the order of the list, and nothing else is put. *)
Theorem X12_stopped_process (p : Processo) (evs : list Event) :
  running p = false →
  running (run p evs) = false
  ∧ delivered_messages (run p evs) = delivered_messages p
  ∧ gossip_deliveries p evs = []
  ∧ lamport_clock (run p evs) = lamport_clock p + Z.of_nat (multicast_calls evs)
  ∧ length (puts (gossip_trace p evs))
    = (num_queues p * multicast_calls evs)%nat
  ∧ puts (gossip_trace p evs)
    = flat_map (λ m, (λ i, (i, m)) <$> seq 0 (num_queues p))
        (imap (λ k c, mkMessage c (lamport_clock p + Z.of_nat k + 1) (id p))
           (multicast_contents evs)).
Proof.
  intros Hstop.
  assert (Hmain : running (run p evs) = false
    ∧ delivered_messages (run p evs) = delivered_messages p
    ∧ gossip_deliveries p evs = []
    ∧ lamport_clock (run p evs)
      = lamport_clock p + Z.of_nat (multicast_calls evs)
    ∧ puts (gossip_trace p evs)
      = flat_map (λ m, (λ i, (i, m)) <$> seq 0 (num_queues p))
          (imap (λ k c, mkMessage c (lamport_clock p + Z.of_nat k + 1) (id p))
             (multicast_contents evs))).
  { revert p Hstop. induction evs as [|ev evs IH]; intros p Hstop.
    { unfold multicast_calls. rewrite filter_nil. cbn.
      split_and!; [done|done|done|lia|done]. }
    change (run p (ev :: evs)) with (run (step p ev).1 evs).
    rewrite gossip_deliveries_cons. cbn [gossip_trace]. rewrite puts_app.
    destruct (gossip_step_num_queues p ev) as [Hn Hid].
    unfold multicast_calls. destruct ev as [c|item].
    - destruct (IH (step p (EvMulticast c)).1) as (-> & -> & -> & -> & ->);
        [done|].
      rewrite Hn, Hid. rewrite filter_cons_True by done.
      rewrite gossip_step_puts.
      fold (multicast_calls evs).
      split_and!; [done|done| | |].
      + cbn. by rewrite entregues_puts.
      + cbn. unfold multicast_calls. lia.
      + change (multicast_contents (EvMulticast c :: evs))
          with (c :: multicast_contents evs).
        rewrite imap_cons. cbn [flat_map]. rewrite app_nil_r.
        f_equal; [by rewrite Z.add_0_r|].
        f_equal. apply imap_ext. intros k c' _. cbn. f_equal. lia.
    - assert (Hs : step p (EvQueue item) = (p, []))
        by (cbn [step]; by rewrite Hstop).
      rewrite Hs. cbn [fst snd].
      destruct (IH p Hstop) as (-> & -> & -> & -> & ->).
      rewrite filter_cons_False by (cbn; tauto).
      fold (multicast_calls evs). done. }
  destruct Hmain as (H1 & H2 & H3 & H4 & H5).
  split_and!; [done|done|done|done| |done].
  rewrite H5.
  rewrite (length_flat_map_const _ (num_queues p))
    by (intros x; by rewrite length_fmap, length_seq).
  by rewrite length_imap, multicast_contents_length.
Qed.

Lemma X12_stopped_process_witness :
  let p := run (init 0 3) [EvQueue Stop] in
  let evs := [EvQueue (Msg (mkMessage "a" 1 1)); EvMulticast "b"] in
  running p = false
  ∧ gossip_deliveries p evs = []
  ∧ lamport_clock (run p evs) = 1
  ∧ puts (gossip_trace p evs)
    = [(0%nat, mkMessage "b" 1 0); (1%nat, mkMessage "b" 1 0);
       (2%nat, mkMessage "b" 1 0)].
Proof.
  intros p evs.
  assert (Hstop : running p = false) by reflexivity.
  destruct (X12_stopped_process p evs Hstop) as (_ & _ & Hd & Hc & _ & Hp).
  split_and!; [done|done| |].
  - etrans; [exact Hc|]. by vm_compute.
  - etrans; [exact Hp|]. by vm_compute.
Defined.

End GossipRuns.

(** ** The system of flooding processes: what every state satisfies *)

Section GossipSystem.
Import Gossip.

Lemma lookup_queue_put (qs : list (list QueueItem)) (k : nat)
    (item : QueueItem) (j : nat) (q : list QueueItem) :
  queue_put k item qs !! j = Some q
  ↔ (j = k ∧ ∃ q0, qs !! j = Some q0 ∧ q = q0 ++ [item])
    ∨ (j ≠ k ∧ qs !! j = Some q).
Proof.
  unfold queue_put. rewrite list_lookup_alter.
  destruct (decide (k = j)) as [->|Hne].
  - destruct (qs !! j) as [q0|]; cbn.
    + split.
      * intros [= <-]. left. eauto.
      * intros [(_ & q1 & [= <-] & ->)|[? _]]; done.
    + split; [done|]. intros [(_ & q1 & ? & _)|[? _]]; done.
  - split; [right; split; done|]. intros [[-> _]|[_ ?]]; done.
Qed.

Lemma queue_put_grows (qs : list (list QueueItem)) (k : nat)
    (item : QueueItem) (j : nat) (q0 : list QueueItem) (x : QueueItem) :
  qs !! j = Some q0 → x ∈ q0 →
  ∃ q, queue_put k item qs !! j = Some q ∧ x ∈ q.
Proof.
  intros Hq Hx. destruct (decide (j = k)) as [->|Hne].
  - exists (q0 ++ [item]). split; [|apply elem_of_app; by left].
    apply lookup_queue_put. left. eauto.
  - exists q0. split; [|done]. apply lookup_queue_put. by right.
Qed.

Lemma queue_put_new (qs : list (list QueueItem)) (k : nat)
    (item : QueueItem) :
  (k < length qs)%nat →
  ∃ q, queue_put k item qs !! k = Some q ∧ item ∈ q.
Proof.
  intros Hk. destruct (lookup_lt_is_Some_2 qs k Hk) as [q0 Hq0].
  exists (q0 ++ [item]). split; [|apply elem_of_app; right; left].
  apply lookup_queue_put. left. eauto.
Qed.

Lemma queue_put_elem (qs : list (list QueueItem)) (k : nat)
    (item : QueueItem) (j : nat) (q : list QueueItem) (x : QueueItem) :
  queue_put k item qs !! j = Some q → x ∈ q →
  (∃ q0, qs !! j = Some q0 ∧ x ∈ q0) ∨ (j = k ∧ x = item).
Proof.
  intros [(-> & q0 & Hq0 & ->)|[_ Hq]]%lookup_queue_put Hx; [|left; eauto].
  apply elem_of_app in Hx as [Hx|Hx%list_elem_of_singleton]; [left|right];
    eauto.
Qed.

(** What one round of the loop of [run] does to the process that finds
    [item] in its queue. *)
Lemma run_step_facts (p : Processo) (item : QueueItem) :
  let p' := (run_step p item).1 in
  let acts := (run_step p item).2 in
  id p' = id p ∧ num_queues p' = num_queues p
  ∧ lamport_clock p ≤ lamport_clock p'
  ∧ delivered_messages p ⊆ delivered_messages p'
  ∧ (∀ m, item = Msg m → identity m ∈ delivered_messages p')
  ∧ ((entregues acts = [] ∧ put_actions acts = []
      ∧ delivered_messages p' = delivered_messages p)
     ∨ ∃ m, item = Msg m ∧ (identity m ∉ delivered_messages p)
            ∧ entregues acts = [m]
            ∧ put_actions acts = (λ i, Put i m) <$> seq 0 (num_queues p)
            ∧ delivered_messages p' = {[identity m]} ∪ delivered_messages p
            ∧ timestamp m < lamport_clock p').
Proof.
  destruct item as [|m]; cbn [run_step].
  - cbn. split_and!; [done|done|lia|done|done|]. by left.
  - unfold identity.
    destruct (decide ((original_sender m, timestamp m) ∈ delivered_messages p))
      as [Hin|Hin].
    + rewrite handle_receive_dup by done. cbn [fst snd].
      split_and!; [done|done|lia|done| |by left].
      by intros m' [= <-].
    + rewrite handle_receive_fresh by done. cbn [fst snd].
      cbn [id num_queues lamport_clock delivered_messages].
      split_and!; [done|done|lia|set_solver| |].
      * intros m' [= <-]. set_solver.
      * right. exists m. split_and!; [done|done| | |done|lia].
        -- change (entregues (Entregue m :: ?l)) with (m :: entregues l).
           by rewrite entregues_puts.
        -- unfold put_actions. rewrite filter_cons_False by (cbn; tauto).
           induction (seq 0 (num_queues p)) as [|i l IH]; [done|].
           cbn [fmap list_fmap]. rewrite filter_cons_True by done.
           f_equal. exact IH.
Qed.

Lemma gnet_inv_init (n : nat) : gnet_inv n (gnet_init n).
Proof.
  assert (Hp : ∀ i p, processos (gnet_init n) !! i = Some p →
                      p = init (Z.of_nat i) n ∧ (i < n)%nat).
  { intros i p. cbn. rewrite list_lookup_fmap.
    intros (k & [-> ?]%lookup_seq & ->)%fmap_Some. done. }
  constructor.
  - cbn. by rewrite length_fmap, length_seq, !length_replicate.
  - intros i p [-> _]%Hp. cbn. split_and!; [done|done|lia].
  - intros k m [H|(i & s & [-> _]%lookup_replicate & H)];
      by apply elem_of_nil in H.
  - intros j queue m [-> _]%lookup_replicate H. by apply elem_of_nil in H.
  - intros m H. by apply elem_of_nil in H.
  - intros m1 m2 H. by apply elem_of_nil in H.
  - intros j p s t [-> _]%Hp H. cbn in H. by apply not_elem_of_empty in H.
  - intros j p s t [-> _]%Hp H. cbn in H. by apply not_elem_of_empty in H.
  - intros j m H. by apply elem_of_nil in H.
  - apply NoDup_nil_2.
  - intros m j p H. by apply elem_of_nil in H.
Qed.

(** A [put] by a thread that is in the loop of [_basic_multicast], or the
    [put] of [stop]. *)
Lemma gnet_inv_put (n : nat) (G : GossipNet) (k : nat) (item : QueueItem)
    (main' : list Action) (fw' : list (list Action)) :
  gnet_inv n G →
  length fw' = length (forwarding G) →
  (∀ m, item = Msg m → (k < n)%nat ∧ m ∈ created G) →
  let G' := mkGossipNet (processos G) (queue_put k item (all_queues G))
              fw' main' (created G) (entregue_log G) in
  (∀ k' m', pending_put G' k' m' → pending_put G k' m') →
  (∀ k' m', pending_put G k' m' →
     pending_put G' k' m' ∨ (k' = k ∧ item = Msg m')) →
  gnet_inv n G'.
Proof.
  intros [HL HI HP HQ HC HU HD HB HG HN HE] Hlen Hitem G' Hsub Hcov.
  destruct HL as (HL1 & HL2 & HL3).
  constructor; cbn [processos all_queues forwarding main_sending created
                    entregue_log G']; try done.
  - split_and!; [done| |lia]. unfold queue_put. by rewrite length_alter.
  - intros k' m' H%Hsub. by apply HP.
  - intros j queue m Hq Hin.
    destruct (queue_put_elem _ _ _ _ _ _ Hq Hin) as [(q0 & Hq0 & Hin0)|[-> <-]].
    + by eapply HQ.
    + by apply Hitem.
  - intros m j p Hm Hp. destruct (HE m j p Hm Hp) as [Hd|[Hq|Hpend]];
      [by left| |].
    + right. left. destruct Hq as (q0 & Hq0 & Hin0).
      by eapply queue_put_grows.
    + right. destruct (Hcov j m Hpend) as [Hpend'|[-> ->]]; [by right|].
      left. apply queue_put_new.
      destruct (Hitem m eq_refl) as [Hk _]. lia.
Qed.

Lemma lookup_insert_same_length {A} (l : list A) (i : nat) (x y : A) (j : nat)
    (z : A) :
  l !! i = Some x → <[i:=y]> l !! j = Some z →
  (j = i ∧ z = y) ∨ (j ≠ i ∧ l !! j = Some z).
Proof.
  intros Hi [(-> & -> & _)|[? ?]]%list_lookup_insert_Some; [by left|].
  right. split; [congruence|done].
Qed.

Lemma gnet_inv_main_put (n : nat) (G : GossipNet) (G' : GossipNet) :
  gnet_inv n G → gnet_do G GMainPut = Some G' → gnet_inv n G'.
Proof.
  intros Hinv Hdo. cbn in Hdo.
  destruct (main_sending G) as [|[k m|m] rest] eqn:Hmain; [done| |done].
  injection Hdo as <-.
  assert (Hpend : pending_put G k m) by (left; rewrite Hmain; left).
  apply (gnet_inv_put n G k (Msg m) rest (forwarding G) Hinv eq_refl).
  - intros m' [= <-]. by apply (g_puts n G Hinv).
  - intros k' m' [H|H]; [|by right]. left. rewrite Hmain. by right.
  - intros k' m' [H|H]; [|left; by right]. rewrite Hmain in H.
    apply elem_of_cons in H as [[= -> ->]|H]; [by right|]. left. by left.
Qed.

Lemma gnet_inv_thread_put (n : nat) (G : GossipNet) (i : nat)
    (G' : GossipNet) :
  gnet_inv n G → gnet_do G (GPut i) = Some G' → gnet_inv n G'.
Proof.
  intros Hinv Hdo. cbn in Hdo.
  destruct (forwarding G !! i) as [sending|] eqn:Hfw; [|done]. cbn in Hdo.
  destruct sending as [|[k m|m] rest]; [done| |done].
  injection Hdo as <-.
  assert (Hpend : pending_put G k m) by (right; exists i; eexists; split;
                                          [done|left]).
  apply (gnet_inv_put n G k (Msg m) (main_sending G) (<[i:=rest]> (forwarding G))
           Hinv).
  - by rewrite length_insert.
  - intros m' [= <-]. by apply (g_puts n G Hinv).
  - intros k' m' [H|(i0 & s & Hs & H)]; [by left|]. right. cbn in Hs.
    destruct (lookup_insert_same_length _ _ _ _ _ _ Hfw Hs) as [[-> ->]|[_ Hs']].
    + exists i. eexists. split; [done|]. by right.
    + eauto.
  - intros k' m' [H|(i0 & s & Hs & H)]; [left; by left|].
    destruct (decide (i0 = i)) as [->|Hne].
    + rewrite Hfw in Hs. injection Hs as <-.
      apply elem_of_cons in H as [[= -> ->]|H]; [by right|]. left. right.
      exists i, rest. split; [|done]. cbn.
      apply list_lookup_insert_eq. by eapply lookup_lt_Some.
    + left. right. exists i0, s. split; [|done]. cbn.
      by rewrite list_lookup_insert_ne.
Qed.

Lemma gnet_inv_stop (n : nat) (G : GossipNet) (i : nat) (G' : GossipNet) :
  gnet_inv n G → gnet_do G (GStop i) = Some G' → gnet_inv n G'.
Proof.
  intros Hinv Hdo. cbn in Hdo.
  destruct (main_sending G) eqn:Hmain; [|done].
  destruct (processos G !! i) as [p|] eqn:Hp; [|done]. cbn in Hdo.
  injection Hdo as <-.
  apply (gnet_inv_put n G (Z.to_nat (id p)) Stop [] (forwarding G) Hinv eq_refl).
  - done.
  - intros k' m' [H|H]; [by apply elem_of_nil in H|by right].
  - intros k' m' [H|H]; [rewrite Hmain in H; by apply elem_of_nil in H|].
    left. by right.
Qed.

Lemma gnet_inv_multicast (n : nat) (G : GossipNet) (i : nat) (c : string)
    (G' : GossipNet) :
  gnet_inv n G → gnet_do G (GMulticast i c) = Some G' → gnet_inv n G'.
Proof.
  intros Hinv Hdo. cbn in Hdo.
  destruct (main_sending G) eqn:Hmain; [|done].
  destruct (processos G !! i) as [p|] eqn:Hp; [|done]. cbn in Hdo.
  injection Hdo as <-.
  destruct Hinv as [HL HI HP HQ HC HU HD HB HG HN HE].
  destruct HL as (HL1 & HL2 & HL3).
  destruct (HI i p Hp) as (Hid & Hnq & Hclk).
  assert (Hi : (i < length (processos G))%nat) by by eapply lookup_lt_Some.
  set (msg := mkMessage c (lamport_clock p + 1) (id p)).
  assert (Hold : ∀ j q', <[i:=_tick p]> (processos G) !! j = Some q' →
            ∃ q, processos G !! j = Some q ∧ id q' = id q
                 ∧ num_queues q' = num_queues q
                 ∧ lamport_clock q ≤ lamport_clock q'
                 ∧ delivered_messages q' = delivered_messages q).
  { intros j q' Hl.
    destruct (lookup_insert_same_length _ _ _ _ _ _ Hp Hl) as [[-> ->]|[_ Hl']].
    - exists p. cbn. split_and!; [done|done|done|lia|done].
    - exists q'. split_and!; [done|done|done|lia|done]. }
  assert (Hnew : ∀ j q, processos G !! j = Some q →
            ∃ q', <[i:=_tick p]> (processos G) !! j = Some q'
                  ∧ lamport_clock q ≤ lamport_clock q'
                  ∧ delivered_messages q' = delivered_messages q).
  { intros j q Hq. destruct (decide (j = i)) as [->|Hne].
    - exists (_tick p). rewrite list_lookup_insert_eq by done.
      assert (q = p) as -> by congruence. cbn. split_and!; [done|lia|done].
    - exists q. rewrite list_lookup_insert_ne by done.
      split_and!; [done|lia|done]. }
  constructor; cbn [processos all_queues forwarding main_sending created
                    entregue_log].
  - by rewrite length_insert.
  - intros j q' (q & Hq & -> & -> & Hle & _)%Hold.
    destruct (HI j q Hq) as (? & ? & ?). split_and!; [done|done|lia].
  - intros k m [H|H].
    + cbn in H. unfold _basic_multicast in H. cbn in H.
      apply list_elem_of_fmap in H as (k' & [= -> ->] & Hk%elem_of_seq).
      split; [lia|]. apply elem_of_app. right. left.
    + destruct (HP k m) as [? ?]; [by right|]. split; [done|].
      apply elem_of_app. by left.
  - intros j queue m Hq Hin. apply elem_of_app. left. by eapply HQ.
  - intros m [Hm|Hm%list_elem_of_singleton]%elem_of_app.
    + destruct (HC m Hm) as (i0 & p0 & Hp0 & Hs & Ht).
      destruct (Hnew i0 p0 Hp0) as (q' & Hq' & Hle & _).
      exists i0, q'. split_and!; [done|done|lia|lia].
    + subst m. exists i, (_tick p). rewrite list_lookup_insert_eq by done.
      cbn. split_and!; [done|done|lia|lia].
  - assert (Hfresh : ∀ m, m ∈ created G → identity m ≠ identity msg).
    { intros m Hm Heq. destruct (HC m Hm) as (i0 & p0 & Hp0 & Hs & Ht).
      unfold identity in Heq. injection Heq as Hs' Ht'. cbn in Hs', Ht'.
      assert (i0 = i) as -> by lia. assert (p0 = p) as -> by congruence.
      lia. }
    intros m1 m2 [H1|H1%list_elem_of_singleton]%elem_of_app
      [H2|H2%list_elem_of_singleton]%elem_of_app Heq.
    + by apply HU.
    + subst m2. by destruct (Hfresh m1 H1).
    + subst m1. by destruct (Hfresh m2 H2).
    + congruence.
  - intros j q' s t (q & Hq & _ & _ & _ & ->)%Hold Hin.
    destruct (HD j q s t Hq Hin) as (m & Hm & Hidm & Hlog).
    exists m. split_and!; [|done|done]. apply elem_of_app. by left.
  - intros j q' s t (q & Hq & _ & _ & Hle & ->)%Hold Hin.
    pose proof (HB j q s t Hq Hin). lia.
  - intros j m Hlog. destruct (HG j m Hlog) as (Hm & q & Hq & Hin).
    split; [apply elem_of_app; by left|].
    destruct (Hnew j q Hq) as (q' & Hq' & _ & Hdel).
    exists q'. split; [done|]. by rewrite Hdel.
  - done.
  - intros m j q' [Hm|Hm%list_elem_of_singleton]%elem_of_app Hq'.
    + destruct (Hold j q' Hq') as (q & Hq & _ & _ & _ & ->).
      destruct (HE m j q Hm Hq) as [Hd|[Hqu|[Hpend|Hpend]]].
      * by left.
      * right. by left.
      * rewrite Hmain in Hpend. by apply elem_of_nil in Hpend.
      * right. right. by right.
    + subst m. right. right. left. cbn. unfold _basic_multicast. cbn.
      apply list_elem_of_fmap. exists j. split; [done|].
      apply elem_of_seq. apply lookup_lt_Some in Hq'.
      rewrite length_insert in Hq'. lia.
Qed.

Lemma gnet_inv_get (n : nat) (G : GossipNet) (i : nat) (G' : GossipNet) :
  gnet_inv n G → gnet_do G (GGet i) = Some G' → gnet_inv n G'.
Proof.
  intros Hinv Hdo. cbn in Hdo.
  destruct (processos G !! i) as [p|] eqn:Hp; [|done]. cbn in Hdo.
  destruct (forwarding G !! i) as [sending|] eqn:Hfw; [|done]. cbn in Hdo.
  destruct Hinv as [HL HI HP HQ HC HU HD HB HG HN HE].
  destruct HL as (HL1 & HL2 & HL3).
  destruct (HI i p Hp) as (Hid & Hnq & Hclk).
  rewrite Hid, Nat2Z.id in Hdo.
  destruct (all_queues G !! i) as [queue|] eqn:Hqueue; [|done]. cbn in Hdo.
  destruct sending; [|done]. destruct queue as [|item rest]; [done|].
  destruct (running p); [|done].
  pose proof (run_step_facts p item) as Hfacts. cbn zeta in Hfacts.
  destruct (run_step p item) as [p' acts]. cbn [fst snd] in Hfacts.
  injection Hdo as <-.
  destruct Hfacts as (Hid' & Hnq' & Hle & Hsub & Hitem & Hcases).
  assert (Hi : (i < length (processos G))%nat) by by eapply lookup_lt_Some.
  assert (Hhead : ∀ m, item = Msg m → m ∈ created G).
  { intros m ->. apply (HQ i (Msg m :: rest)); [done|left]. }
  assert (Hold : ∀ j q', <[i:=p']> (processos G) !! j = Some q' →
            (j = i ∧ q' = p') ∨ (j ≠ i ∧ processos G !! j = Some q')).
  { intros j q' Hl. by eapply lookup_insert_same_length. }
  assert (Hnew : ∀ j q, processos G !! j = Some q →
            ∃ q', <[i:=p']> (processos G) !! j = Some q'
                  ∧ lamport_clock q ≤ lamport_clock q'
                  ∧ delivered_messages q ⊆ delivered_messages q').
  { intros j q Hq. destruct (decide (j = i)) as [->|Hne].
    - exists p'. rewrite list_lookup_insert_eq by done.
      assert (q = p) as -> by congruence. done.
    - exists q. rewrite list_lookup_insert_ne by done.
      split_and!; [done|lia|done]. }
  assert (Hputs : ∀ k m, Put k m ∈ put_actions acts →
                         (k < n)%nat ∧ item = Msg m).
  { intros k m Hin.
    destruct Hcases as [(_ & Hnil & _)|(m0 & -> & _ & _ & Hpa & _)].
    - rewrite Hnil in Hin. by apply elem_of_nil in Hin.
    - rewrite Hpa in Hin.
      apply list_elem_of_fmap in Hin as (k' & [= -> ->] & Hk%elem_of_seq).
      split; [lia|done]. }
  constructor; cbn [processos all_queues forwarding main_sending created
                    entregue_log].
  - by rewrite !length_insert.
  - intros j q' [[-> ->]|[_ Hq]]%Hold; [|by apply HI].
    rewrite Hid', Hnq'. split_and!; [done|done|lia].
  - intros k m [H|(i0 & s & Hs & H)].
    + apply HP. by left.
    + cbn in Hs.
      destruct (lookup_insert_same_length _ _ _ _ _ _ Hfw Hs)
        as [[-> ->]|[_ Hs']].
      * destruct (Hputs k m H) as [Hk Hm]. split; [done|]. by apply Hhead.
      * apply HP. right. eauto.
  - intros j q m Hq Hin.
    destruct (lookup_insert_same_length _ _ _ _ _ _ Hqueue Hq)
      as [[-> ->]|[_ Hq']].
    + apply (HQ i (item :: rest)); [done|by right].
    + by eapply HQ.
  - intros m Hm. destruct (HC m Hm) as (i0 & p0 & Hp0 & Hs & Ht).
    destruct (Hnew i0 p0 Hp0) as (q' & Hq' & Hle' & _).
    exists i0, q'. split_and!; [done|done|lia|lia].
  - done.
  - intros j q' s t [[-> ->]|[_ Hq]]%Hold Hin.
    + destruct Hcases as [(_ & _ & Hdel)|(m0 & -> & Hfresh & Hent & _ & Hdel & _)].
      * rewrite Hdel in Hin.
        destruct (HD i p s t Hp Hin) as (m & Hm & Hidm & Hlog).
        exists m. split_and!; [done|done|]. apply elem_of_app. by left.
      * rewrite Hdel in Hin.
        apply elem_of_union in Hin as [Heq%elem_of_singleton|Hin].
        -- exists m0. split_and!; [by apply Hhead|done|].
           apply elem_of_app. right. rewrite Hent. left.
        -- destruct (HD i p s t Hp Hin) as (m & Hm & Hidm & Hlog).
           exists m. split_and!; [done|done|]. apply elem_of_app. by left.
    + destruct (HD j q' s t Hq Hin) as (m & Hm & Hidm & Hlog).
      exists m. split_and!; [done|done|]. apply elem_of_app. by left.
  - intros j q' s t [[-> ->]|[_ Hq]]%Hold Hin; [|by eapply HB].
    destruct Hcases as [(_ & _ & Hdel)|(m0 & -> & Hfresh & _ & _ & Hdel & Hlt)].
    + rewrite Hdel in Hin. pose proof (HB i p s t Hp Hin). lia.
    + rewrite Hdel in Hin.
      apply elem_of_union in Hin as [Heq%elem_of_singleton|Hin].
      * unfold identity in Heq. injection Heq as -> ->. done.
      * pose proof (HB i p s t Hp Hin). lia.
  - intros j m [Hlog|Hlog]%elem_of_app.
    + destruct (HG j m Hlog) as (Hm & q & Hq & Hin). split; [done|].
      destruct (Hnew j q Hq) as (q' & Hq' & _ & Hsub').
      exists q'. split; [done|]. by apply Hsub'.
    + apply list_elem_of_fmap in Hlog as (m0 & [= -> ->] & Hin).
      destruct Hcases as [(Hnil & _)|(m1 & -> & _ & Hent & _)].
      * rewrite Hnil in Hin. by apply elem_of_nil in Hin.
      * rewrite Hent in Hin. apply list_elem_of_singleton in Hin as ->.
        split; [by apply Hhead|]. exists p'.
        rewrite list_lookup_insert_eq by done. split; [done|].
        by apply Hitem.
  - destruct Hcases as [(-> & _)|(m0 & -> & Hfresh & -> & _)].
    + by rewrite app_nil_r.
    + apply NoDup_app. split_and!; [done| |apply NoDup_singleton].
      intros x Hx ->%list_elem_of_singleton.
      destruct (HG i m0 Hx) as (_ & q & Hq & Hin).
      assert (q = p) as -> by congruence. done.
  - intros m j q' Hm Hq'.
    assert (∃ q, processos G !! j = Some q
                 ∧ delivered_messages q ⊆ delivered_messages q'
                 ∧ (j = i → q' = p')) as (q & Hq & Hsub' & Hji).
    { destruct (Hold j q' Hq') as [[-> ->]|[Hne Hq]].
      - exists p. done.
      - exists q'. done. }
    destruct (HE m j q Hm Hq) as [Hd|[Hqu|[Hpend|Hpend]]].
    + left. by apply Hsub'.
    + destruct Hqu as (q0 & Hq0 & Hin).
      destruct (decide (j = i)) as [->|Hne].
      * rewrite Hqueue in Hq0. injection Hq0 as <-.
        apply elem_of_cons in Hin as [<-|Hin].
        -- left. rewrite (Hji eq_refl). by apply Hitem.
        -- right. left. exists rest. split; [|done].
           apply list_lookup_insert_eq. by eapply lookup_lt_Some.
      * right. left. exists q0. split; [|done]. cbn.
        by rewrite list_lookup_insert_ne.
    + right. right. by left.
    + right. right. right. destruct Hpend as (i0 & s & Hs & Hin).
      destruct (decide (i0 = i)) as [->|Hne].
      * rewrite Hfw in Hs. injection Hs as <-. by apply elem_of_nil in Hin.
      * exists i0, s. split; [|done]. cbn. by rewrite list_lookup_insert_ne.
Qed.

Lemma gnet_inv_do (n : nat) (G : GossipNet) (st : GossipStep)
    (G' : GossipNet) :
  gnet_inv n G → gnet_do G st = Some G' → gnet_inv n G'.
Proof.
  destruct st.
  - apply gnet_inv_multicast.
  - apply gnet_inv_main_put.
  - apply gnet_inv_stop.
  - apply gnet_inv_get.
  - apply gnet_inv_thread_put.
Qed.

Lemma gnet_inv_run_from (n : nat) (steps : list GossipStep)
    (G G' : GossipNet) :
  gnet_inv n G → gnet_run G steps = Some G' → gnet_inv n G'.
Proof.
  revert G. induction steps as [|st steps IH]; intros G Hinv Hrun.
  { cbn in Hrun. by injection Hrun as <-. }
  cbn in Hrun. destruct (gnet_do G st) as [G1|] eqn:Hdo; [|done].
  cbn in Hrun. eapply IH; [|done]. by eapply gnet_inv_do.
Qed.

Lemma gnet_inv_run (n : nat) (steps : list GossipStep) (G : GossipNet) :
  gnet_run (gnet_init n) steps = Some G → gnet_inv n G.
Proof. apply gnet_inv_run_from, gnet_inv_init. Qed.

End GossipSystem.

(** ** The system of flooding processes: validity, integrity, agreement *)

Section GossipProperties.
Import Gossip.

Lemma filter_eq_NoDup {A} `{EqDecision A} (l : list A) (x : A) :
  NoDup l →
  length (filter (λ y, y = x) l) = (if decide (x ∈ l) then 1 else 0)%nat.
Proof.
  induction 1 as [|y l Hy Hnd IH]; [done|].
  destruct (decide (y = x)) as [->|Hne].
  - rewrite filter_cons_True by done. cbn [length]. rewrite IH.
    rewrite decide_False by done. rewrite decide_True by left. done.
  - rewrite filter_cons_False by done. rewrite IH.
    destruct (decide (x ∈ l)) as [Hin|Hin].
    + rewrite decide_True by (by right). done.
    + rewrite decide_False; [done|].
      intros [->|?]%elem_of_cons; done.
Qed.

Lemma times_delivered_log (n : nat) (G : GossipNet) (j : nat) (m : Message) :
  gnet_inv n G →
  times_delivered G j m
  = (if decide ((j, m) ∈ entregue_log G) then 1 else 0)%nat.
Proof.
  intros Hinv. unfold times_delivered.
  apply filter_eq_NoDup, (g_log_nodup n G Hinv).
Qed.

(** A process that has the identity of a message of the system in
    [delivered_messages] has delivered that very message, once. *)
Lemma delivered_once (n : nat) (G : GossipNet) (j : nat) (p : Processo)
    (m : Message) :
  gnet_inv n G → m ∈ created G → processos G !! j = Some p →
  identity m ∈ delivered_messages p →
  (j, m) ∈ entregue_log G ∧ times_delivered G j m = 1%nat.
Proof.
  intros Hinv Hm Hp Hin.
  destruct (g_delivered n G Hinv j p _ _ Hp Hin) as (m' & Hm' & Hid & Hlog).
  assert (m' = m) as -> by by apply (g_unique n G Hinv).
  split; [done|]. rewrite (times_delivered_log n) by done.
  by rewrite decide_True.
Qed.

Lemma gnet_do_created (n : nat) (G : GossipNet) (st : GossipStep)
    (G' : GossipNet) :
  gnet_inv n G → gnet_do G st = Some G' →
  (∀ m, m ∈ created G → m ∈ created G')
  ∧ (∀ m, m ∈ created G' →
       m ∈ created G
       ∨ st = GMulticast (Z.to_nat (original_sender m)) (content m))
  ∧ (∀ i c, st = GMulticast i c →
       ∃ m, m ∈ created G' ∧ content m = c ∧ original_sender m = Z.of_nat i).
Proof.
  intros Hinv Hdo. destruct st as [i c| |i|i|i]; cbn in Hdo.
  - destruct (main_sending G); [|done].
    destruct (processos G !! i) as [p|] eqn:Hp; [|done]. cbn in Hdo.
    injection Hdo as <-. cbn [created].
    destruct (g_ids n G Hinv i p Hp) as (Hid & _).
    split_and!.
    + intros m Hm. apply elem_of_app. by left.
    + intros m [Hm|Hm%list_elem_of_singleton]%elem_of_app; [by left|].
      right. subst m. cbn. by rewrite Hid, Nat2Z.id.
    + intros i' c' [= <- <-]. eexists. split; [apply elem_of_app; right; left|].
      done.
  - destruct (main_sending G) as [|[k m|m] rest]; [done| |done].
    injection Hdo as <-. split_and!; [done|by left|done].
  - destruct (main_sending G); [|done].
    destruct (processos G !! i) as [p|]; [|done]. cbn in Hdo.
    injection Hdo as <-. split_and!; [done|by left|done].
  - destruct (processos G !! i) as [p|]; [|done]. cbn in Hdo.
    destruct (forwarding G !! i) as [sending|]; [|done]. cbn in Hdo.
    destruct (all_queues G !! Z.to_nat (id p)) as [queue|]; [|done].
    cbn in Hdo. destruct sending; [|done].
    destruct queue as [|item rest]; [done|].
    destruct (running p); [|done].
    destruct (run_step p item) as [p' acts].
    injection Hdo as <-. split_and!; [done|by left|done].
  - destruct (forwarding G !! i) as [sending|]; [|done]. cbn in Hdo.
    destruct sending as [|[k m|m] rest]; [done| |done].
    injection Hdo as <-. split_and!; [done|by left|done].
Qed.

Lemma gnet_run_created (n : nat) (steps : list GossipStep) (G G' : GossipNet) :
  gnet_inv n G → gnet_run G steps = Some G' →
  (∀ m, m ∈ created G → m ∈ created G')
  ∧ (∀ m, m ∈ created G' →
       m ∈ created G
       ∨ GMulticast (Z.to_nat (original_sender m)) (content m) ∈ steps)
  ∧ (∀ i c, GMulticast i c ∈ steps →
       ∃ m, m ∈ created G' ∧ content m = c ∧ original_sender m = Z.of_nat i).
Proof.
  revert G. induction steps as [|st steps IH]; intros G Hinv Hrun.
  { cbn in Hrun. injection Hrun as <-. split_and!; [done|by left|].
    intros i c H. by apply elem_of_nil in H. }
  cbn in Hrun. destruct (gnet_do G st) as [G1|] eqn:Hdo; [|done].
  cbn in Hrun.
  destruct (gnet_do_created n G st G1 Hinv Hdo) as (Hmono & Hfrom & Hmake).
  destruct (IH G1 (gnet_inv_do n G st G1 Hinv Hdo) Hrun)
    as (Hmono' & Hfrom' & Hmake').
  split_and!.
  - intros m Hm. by apply Hmono', Hmono.
  - intros m Hm. destruct (Hfrom' m Hm) as [Hm1|Hin]; [|right; by right].
    destruct (Hfrom m Hm1) as [?| ->]; [by left|]. right. left.
  - intros i c [<-|Hin]%elem_of_cons.
    + destruct (Hmake i c eq_refl) as (m & Hm & Hc & Hs).
      exists m. split_and!; [by apply Hmono'|done|done].
    + by apply Hmake'.
Qed.

Lemma settled_nothing_on_the_way (G : GossipNet) (j : nat) (m : Message) :
  settled G j = true → ¬ on_the_way G j m.
Proof.
  unfold settled. intros [[Hq Hmain]%andb_prop Hfw]%andb_prop.
  apply bool_decide_eq_true in Hmain.
  rewrite forallb_forall in Hfw.
  intros [(queue & Hqueue & Hin)|[Hin|(i & s & Hs & Hin)]].
  - rewrite Hqueue in Hq. rewrite forallb_forall in Hq.
    apply list_elem_of_In, Hq in Hin. done.
  - rewrite Hmain in Hin. by apply elem_of_nil in Hin.
  - apply list_elem_of_lookup_2, list_elem_of_In, Hfw in Hs.
    apply bool_decide_eq_true in Hs. subst s. by apply elem_of_nil in Hin.
Qed.

(** X13. No message is lost.  After any steps of the system, every call
    [processos[i].multicast(c)] that was made has produced a message with
    content [c] and original sender [i], and at every process of the
    system this message has been delivered exactly once, or it is still
    on its way to the process: in its queue, or about to be put there by
    a thread that is in the middle of [_basic_multicast]. *)
Theorem X13_flooding_no_loss (n : nat) (steps : list GossipStep)
    (G : GossipNet) (i : nat) (c : string) :
  gnet_run (gnet_init n) steps = Some G →
  GMulticast i c ∈ steps →
  ∃ m, m ∈ created G ∧ content m = c ∧ original_sender m = Z.of_nat i
       ∧ ∀ j, (j < n)%nat →
           times_delivered G j m = 1%nat ∨ on_the_way G j m.
Proof.
  intros Hrun Hin. pose proof (gnet_inv_run n steps G Hrun) as Hinv.
  destruct (gnet_run_created n steps (gnet_init n) G (gnet_inv_init n) Hrun)
    as (_ & _ & Hmake).
  destruct (Hmake i c Hin) as (m & Hm & Hc & Hs).
  exists m. split_and!; [done|done|done|].
  intros j Hj. destruct (g_lengths n G Hinv) as (HL & _).
  destruct (lookup_lt_is_Some_2 (processos G) j) as [p Hp]; [lia|].
  destruct (g_everywhere n G Hinv m j p Hm Hp) as [Hd|Hw]; [|by right].
  left. by eapply delivered_once.
Qed.

Lemma X13_flooding_no_loss_witness :
  let steps := [GMulticast 0 "a"; GMainPut; GMainPut; GGet 1] in
  ∃ G, gnet_run (gnet_init 2) steps = Some G
       ∧ ∃ m, m ∈ created G ∧ content m = "a" ∧ original_sender m = 0
              ∧ (times_delivered G 1 m = 1%nat ∨ on_the_way G 1 m).
Proof.
  intros steps.
  destruct (gnet_run (gnet_init 2) steps) as [G|] eqn:Hrun;
    [|by vm_compute in Hrun].
  exists G. split; [done|].
  assert (Hin : GMulticast 0 "a" ∈ steps) by left.
  destruct (X13_flooding_no_loss 2 steps G 0 "a" Hrun Hin)
    as (m & Hm & Hc & Hs & Hall).
  exists m. split_and!; [done|done|done|]. apply Hall. lia.
Defined.

(** X14. Nothing is invented and nothing is delivered twice.  After any
    steps of the system: no process has delivered a message more than
    once; every message that a process has delivered, and every message
    in a queue, is a message made by a call of [multicast] on the process
    named as its original sender, with that content; its timestamp is at
    least 1 and at most the clock of the original sender; two messages of
    the system with the same original sender and timestamp are the same
    message; and the process that delivered it has its identity in
    [delivered_messages] and a clock above its timestamp. *)
Theorem X14_flooding_integrity (n : nat) (steps : list GossipStep)
    (G : GossipNet) :
  gnet_run (gnet_init n) steps = Some G →
  (∀ j m, (times_delivered G j m ≤ 1)%nat)
  ∧ (∀ j m, (j, m) ∈ entregue_log G ∨
            (∃ queue, all_queues G !! j = Some queue ∧ Msg m ∈ queue) →
       m ∈ created G)
  ∧ (∀ m, m ∈ created G →
       GMulticast (Z.to_nat (original_sender m)) (content m) ∈ steps
       ∧ ∃ p, processos G !! Z.to_nat (original_sender m) = Some p
              ∧ 0 ≤ original_sender m
              ∧ 1 ≤ timestamp m ≤ lamport_clock p)
  ∧ (∀ m1 m2, m1 ∈ created G → m2 ∈ created G →
       original_sender m1 = original_sender m2 →
       timestamp m1 = timestamp m2 → m1 = m2)
  ∧ (∀ j m, (j, m) ∈ entregue_log G →
       ∃ q, processos G !! j = Some q
            ∧ identity m ∈ delivered_messages q
            ∧ timestamp m < lamport_clock q).
Proof.
  intros Hrun. pose proof (gnet_inv_run n steps G Hrun) as Hinv.
  destruct (gnet_run_created n steps (gnet_init n) G (gnet_inv_init n) Hrun)
    as (_ & Hfrom & _).
  split_and!.
  - intros j m. rewrite (times_delivered_log n) by done. case_decide; lia.
  - intros j m [Hlog|(queue & Hq & Hin)].
    + by destruct (g_log n G Hinv j m Hlog).
    + by eapply (g_queued n G Hinv).
  - intros m Hm. split.
    + destruct (Hfrom m Hm) as [H|H]; [|done].
      cbn in H. by apply elem_of_nil in H.
    + destruct (g_created n G Hinv m Hm) as (i & p & Hp & Hs & Ht).
      exists p. rewrite Hs, Nat2Z.id. split_and!; [done|lia|lia|lia].
  - intros m1 m2 H1 H2 Hs Ht. apply (g_unique n G Hinv); [done|done|].
    unfold identity. by rewrite Hs, Ht.
  - intros j m Hlog. destruct (g_log n G Hinv j m Hlog) as (_ & q & Hq & Hin).
    exists q. split_and!; [done|done|].
    by apply (g_below n G Hinv j q (original_sender m)).
Qed.

Lemma X14_flooding_integrity_witness :
  let steps := [GMulticast 1 "a"; GMainPut; GGet 0; GPut 0; GPut 0;
                GGet 0] in
  ∃ G, gnet_run (gnet_init 2) steps = Some G
       ∧ (times_delivered G 0 (mkMessage "a" 1 1) ≤ 1)%nat.
Proof.
  intros steps.
  destruct (gnet_run (gnet_init 2) steps) as [G|] eqn:Hrun;
    [|by vm_compute in Hrun].
  exists G. split; [done|].
  exact (proj1 (X14_flooding_integrity 2 steps G Hrun) 0%nat
           (mkMessage "a" 1 1)).
Defined.

(** X15. Agreement.  After any steps of the system, two processes to which
    nothing is on its way any more (no message in their queues, no thread
    in the middle of [_basic_multicast]) have delivered exactly the same
    messages, each of them once, and these are all the messages that were
    ever multicast; their sets [delivered_messages] are equal. *)
Theorem X15_flooding_agreement (n : nat) (steps : list GossipStep)
    (G : GossipNet) (j1 j2 : nat) :
  gnet_run (gnet_init n) steps = Some G →
  (j1 < n)%nat → (j2 < n)%nat →
  settled G j1 = true → settled G j2 = true →
  (∀ m, (j1, m) ∈ entregue_log G ↔ (j2, m) ∈ entregue_log G)
  ∧ (∀ m, m ∈ created G →
       times_delivered G j1 m = 1%nat ∧ times_delivered G j2 m = 1%nat)
  ∧ ∃ p1 p2, processos G !! j1 = Some p1 ∧ processos G !! j2 = Some p2
             ∧ delivered_messages p1 = delivered_messages p2.
Proof.
  intros Hrun Hj1 Hj2 Hs1 Hs2.
  pose proof (gnet_inv_run n steps G Hrun) as Hinv.
  destruct (g_lengths n G Hinv) as (HL & _).
  destruct (lookup_lt_is_Some_2 (processos G) j1) as [p1 Hp1]; [lia|].
  destruct (lookup_lt_is_Some_2 (processos G) j2) as [p2 Hp2]; [lia|].
  assert (Hall : ∀ j p m, settled G j = true → processos G !! j = Some p →
                          m ∈ created G →
                          identity m ∈ delivered_messages p
                          ∧ (j, m) ∈ entregue_log G
                          ∧ times_delivered G j m = 1%nat).
  { intros j p m Hs Hp Hm.
    destruct (g_everywhere n G Hinv m j p Hm Hp) as [Hd|Hw].
    - split; [done|]. by eapply delivered_once.
    - by destruct (settled_nothing_on_the_way G j m Hs). }
  split_and!.
  - intros m. split; intros Hlog.
    + destruct (g_log n G Hinv _ m Hlog) as (Hm & _).
      by destruct (Hall j2 p2 m Hs2 Hp2 Hm) as (_ & ? & _).
    + destruct (g_log n G Hinv _ m Hlog) as (Hm & _).
      by destruct (Hall j1 p1 m Hs1 Hp1 Hm) as (_ & ? & _).
  - intros m Hm.
    destruct (Hall j1 p1 m Hs1 Hp1 Hm) as (_ & _ & ?).
    destruct (Hall j2 p2 m Hs2 Hp2 Hm) as (_ & _ & ?). done.
  - exists p1, p2. split_and!; [done|done|].
    apply set_eq. intros [s t]. split; intros Hin.
    + destruct (g_delivered n G Hinv j1 p1 s t Hp1 Hin) as (m & Hm & <- & _).
      by destruct (Hall j2 p2 m Hs2 Hp2 Hm) as (? & _).
    + destruct (g_delivered n G Hinv j2 p2 s t Hp2 Hin) as (m & Hm & <- & _).
      by destruct (Hall j1 p1 m Hs1 Hp1 Hm) as (? & _).
Qed.

Lemma X15_flooding_agreement_witness :
  let steps := [GMulticast 0 "a"; GMainPut; GMainPut;
                GGet 0; GPut 0; GPut 0; GGet 1; GPut 1; GPut 1;
                GGet 0; GGet 0; GGet 1; GGet 1] in
  ∃ G, gnet_run (gnet_init 2) steps = Some G
       ∧ settled G 0 = true ∧ settled G 1 = true
       ∧ times_delivered G 0 (mkMessage "a" 1 0) = 1%nat
       ∧ times_delivered G 1 (mkMessage "a" 1 0) = 1%nat.
Proof.
  intros steps.
  destruct (gnet_run (gnet_init 2) steps) as [G|] eqn:Hrun;
    [|vm_compute in Hrun; discriminate Hrun].
  exists G.
  assert (Hfacts : match gnet_run (gnet_init 2) steps with
                   | Some G' =>
                       settled G' 0 && settled G' 1
                       && bool_decide (mkMessage "a" 1 0 ∈ created G') = true
                   | None => False
                   end) by (vm_compute; reflexivity).
  rewrite Hrun in Hfacts.
  apply andb_prop in Hfacts as [[Hs0 Hs1]%andb_prop Hm%bool_decide_eq_true].
  assert (H0 : (0 < 2)%nat) by lia. assert (H1 : (1 < 2)%nat) by lia.
  destruct (X15_flooding_agreement 2 steps G 0 1 Hrun H0 H1 Hs0 Hs1)
    as (_ & Hall & _).
  destruct (Hall _ Hm) as [Hd0 Hd1].
  exact (conj eq_refl (conj Hs0 (conj Hs1 (conj Hd0 Hd1)))).
Defined.

End GossipProperties.
